(** * waka-readme-stats: report rendering and README section replacement

    A shallow embedding of [sources/graphics_list_formatter.py], of the
    section replacement and the commit author of
    [sources/manager_github.py] and of the weekly block of
    [sources/main.py], with the properties the specification states about
    them.

    Conventions of the embedding:
    - a Python [str] is the list of its code points ([Py.str]), so that
      [len] counts characters the way Python does; the interpreter's
      limits on the length of a string are not part of the model;
    - a Python [int] is a [Z];
    - a Python [float] is the exact rational value of a finite binary64
      number ([Py.float]); arithmetic on floats rounds its exact result to
      the nearest binary64 number, ties to even ([Py.fl]); infinities, NaN,
      signed zero and the subnormal range are not part of the model;
    - code that can raise returns a [Py.result];
    - of the [re] module, the patterns this code builds from a section
      name without special characters, and every replacement template of
      ASCII characters, as CPython 3.11 reads them. *)

From Stdlib Require Import String Ascii.
From Stdlib Require Import ZArith QArith Qround Qabs Qpower List Bool Lia Lqa.
From Stdlib Require Import Permutation Sorted DecimalPos.
Import ListNotations.

Set Implicit Arguments.

(* ================================================================== *)
(** * Python values and primitives *)
(* ================================================================== *)

Module Py.

(** Strings are sequences of code points. *)
Definition str := list Z.

Definition str_eq_dec : forall a b : str, {a = b} + {a <> b} :=
  list_eq_dec Z.eq_dec.

Definition str_eqb (a b : str) : bool :=
  if str_eq_dec a b then true else false.

(** An ASCII literal of the source, as a [str]. *)
Definition lit (s : string) : str :=
  map (fun a => Z.of_N (N_of_ascii a)) (list_ascii_of_string s).

(** The exceptions the modelled code can raise.  [OutsideModel] is not a
    Python exception: it marks an input that leaves the fragment of the
    [re] module that is modelled here. *)
Inductive exn : Set :=
| TypeError | KeyError | ValueError | IndexError | ZeroDivisionError
| AssertionError | re_error | OutsideModel.

Inductive result (A : Type) : Type :=
| Ok (a : A)
| Raise (e : exn).
Arguments Ok {A} a.
Arguments Raise {A} e.

Definition bind {A B} (m : result A) (k : A -> result B) : result B :=
  match m with
  | Ok a => k a
  | Raise e => Raise e
  end.

(** A comprehension [[f x for x in l]]: elements are evaluated left to
    right and the first exception aborts it. *)
Fixpoint mapM {A B} (f : A -> result B) (l : list A) : result (list B) :=
  match l with
  | [] => Ok []
  | x :: l' =>
      bind (f x) (fun y => bind (mapM f l') (fun ys => Ok (y :: ys)))
  end.

Definition len {A} (l : list A) : Z := Z.of_nat (length l).

(** [l[:n]], with Python's meaning of a negative bound. *)
Definition slice_to {A} (l : list A) (n : Z) : list A :=
  if (0 <=? n)%Z then firstn (Z.to_nat n) l
  else firstn (Z.to_nat (len l + n)) l.

(** [l[n:]] for a non-negative [n]. *)
Definition slice_from {A} (l : list A) (n : nat) : list A := skipn n l.

(** [s * n]: the empty string when [n <= 0].  The interpreter's limits
    on the length of a string (a count that does not fit a machine index,
    or more characters than memory holds) are not part of the model; the
    counts of this code stay below 26 for a percent between 0 and 100. *)
Definition str_mul (s : str) (n : Z) : str :=
  concat (repeat s (Z.to_nat n)).

(** [sep.join(l)]. *)
Fixpoint join (sep : str) (l : list str) : str :=
  match l with
  | [] => []
  | [x] => x
  | x :: l' => x ++ sep ++ join sep l'
  end.

(** [zip(a, b, c)] stops at the shortest of its arguments. *)
Fixpoint zip3 {A B C} (a : list A) (b : list B) (c : list C)
  : list (A * B * C) :=
  match a, b, c with
  | x :: a', y :: b', z :: c' => (x, y, z) :: zip3 a' b' c'
  | _, _, _ => []
  end.

(** [l[i]] for [0 <= i]. *)
Definition getitem {A} (l : list A) (i : nat) : result A :=
  match nth_error l i with
  | Some x => Ok x
  | None => Raise IndexError
  end.

(** [l[i] += 1] on a list of integers, with Python's index rules: a
    negative index counts from the end, anything else out of range raises
    [IndexError]. *)
Fixpoint incr_nth (l : list Z) (i : nat) : list Z :=
  match l, i with
  | [], _ => []
  | x :: l', O => (x + 1)%Z :: l'
  | x :: l', S i' => x :: incr_nth l' i'
  end.

Definition incr_item (l : list Z) (i : Z) : result (list Z) :=
  if ((0 <=? i) && (i <? len l))%Z%bool then Ok (incr_nth l (Z.to_nat i))
  else if ((- len l <=? i) && (i <? 0))%Z%bool
       then Ok (incr_nth l (Z.to_nat (len l + i)))
       else Raise IndexError.

Definition sum (l : list Z) : Z := fold_left Z.add l 0%Z.

(** ** Decimal rendering of integers *)

Fixpoint uint_chars (u : Decimal.uint) : str :=
  match u with
  | Decimal.Nil => []
  | Decimal.D0 u' => 48%Z :: uint_chars u'
  | Decimal.D1 u' => 49%Z :: uint_chars u'
  | Decimal.D2 u' => 50%Z :: uint_chars u'
  | Decimal.D3 u' => 51%Z :: uint_chars u'
  | Decimal.D4 u' => 52%Z :: uint_chars u'
  | Decimal.D5 u' => 53%Z :: uint_chars u'
  | Decimal.D6 u' => 54%Z :: uint_chars u'
  | Decimal.D7 u' => 55%Z :: uint_chars u'
  | Decimal.D8 u' => 56%Z :: uint_chars u'
  | Decimal.D9 u' => 57%Z :: uint_chars u'
  end.

(** [str(n)] for an integer. *)
Definition str_of_int (n : Z) : str :=
  match n with
  | Z0 => [48%Z]
  | Zpos p => uint_chars (Pos.to_uint p)
  | Zneg p => 45%Z :: uint_chars (Pos.to_uint p)
  end.

(** ** Integers read from text *)

Definition is_digit (c : Z) : bool := ((48 <=? c) && (c <=? 57))%Z.

(** The ASCII characters [int] passes over at both ends of its argument:
    tab, line feed, vertical tab, form feed, carriage return, space. *)
Definition is_space (c : Z) : bool :=
  (((9 <=? c) && (c <=? 13)) || (c =? 32))%Z.

Fixpoint lstrip (s : str) : str :=
  match s with
  | [] => []
  | c :: s' => if is_space c then lstrip s' else s
  end.

Definition strip (s : str) : str := rev (lstrip (rev (lstrip s))).

(** The value of a run of decimal digits in which single underscores may
    stand between two digits; [after_digit] tells whether the character
    before was a digit. *)
Fixpoint digits_value (s : str) (acc : Z) (after_digit : bool) : option Z :=
  match s with
  | [] => if after_digit then Some acc else None
  | c :: s' =>
      if is_digit c then digits_value s' (10 * acc + (c - 48))%Z true
      else if ((c =? 95)%Z && after_digit)%bool
           then digits_value s' acc false
           else None
  end.

(** The default of [sys.get_int_max_str_digits()]. *)
Definition int_max_str_digits : Z := 4300%Z.

(** [int(s)] on a string of ASCII characters: white space at both ends, a
    sign, decimal digits with single underscores between them; anything
    else, or more digits than the interpreter converts, raises
    [ValueError]. *)
Definition int_of_str (s : str) : result Z :=
  let s := strip s in
  let '(negative, digits) :=
    match s with
    | 43%Z :: d => (false, d)
    | 45%Z :: d => (true, d)
    | _ => (false, s)
    end in
  match digits_value digits 0%Z false with
  | Some v =>
      if (int_max_str_digits <? len (filter is_digit digits))%Z
      then Raise ValueError
      else Ok (if negative then (- v)%Z else v)
  | None => Raise ValueError
  end.

(** [s.isidentifier()] on a string of ASCII characters. *)
Definition is_ascii_letter (c : Z) : bool :=
  (((65 <=? c) && (c <=? 90)) || ((97 <=? c) && (c <=? 122)))%Z.

Definition isidentifier (s : str) : bool :=
  match s with
  | [] => false
  | c :: s' =>
      (is_ascii_letter c || (c =? 95)%Z)
      && forallb (fun x => is_ascii_letter x || (x =? 95)%Z || is_digit x) s'
  end.

Definition isascii (s : str) : bool :=
  forallb (fun c => ((0 <=? c) && (c <? 128))%Z) s.

(** ** Floats *)

Definition float := Q.

(** Rounding of a rational to the nearest integer, ties to even: what
    [round(x)] does on the exact value of [x]. *)
Definition round_half_even (x : Q) : Z :=
  let f := Qfloor x in
  match Qcompare (x - inject_Z f) (1 # 2) with
  | Lt => f
  | Gt => (f + 1)%Z
  | Eq => if Z.even f then f else (f + 1)%Z
  end.

(** [floor(log2 x)] for a positive rational. *)
Definition ilog2 (x : Q) : Z :=
  let n := Qnum x in
  let d := Zpos (Qden x) in
  let a := Z.log2 n in
  let b := Z.log2 d in
  if (d * 2 ^ a <=? n * 2 ^ b)%Z then (a - b)%Z else (a - b - 1)%Z.

(** Rounding of a positive rational to 53 significant bits. *)
Definition fl_pos (x : Q) : Q :=
  let e := (ilog2 x - 52)%Z in
  inject_Z (round_half_even (x / 2 ^ e)) * 2 ^ e.

(** The binary64 number nearest to a rational (normal range). *)
Definition fl (x : Q) : float :=
  match Qcompare x 0 with
  | Eq => 0
  | Gt => Qred (fl_pos x)
  | Lt => Qred (- fl_pos (- x))
  end.

Definition float_mul (x y : float) : float := fl (x * y).

(** [x / y] on floats. *)
Definition float_div (x y : float) : result float :=
  if Qeq_bool y 0 then Raise ZeroDivisionError else Ok (fl (x / y)).

(** [a / b] on integers: the correctly rounded quotient. *)
Definition int_truediv (a b : Z) : result float :=
  if (b =? 0)%Z then Raise ZeroDivisionError
  else Ok (fl (inject_Z a / inject_Z b)).

(** [round(x)]: an integer. *)
Definition round (x : float) : Z := round_half_even x.

(** [round(x, 2)]: the float nearest to the decimal with two places
    nearest to [x]. *)
Definition round2 (x : float) : float :=
  fl (inject_Z (round_half_even (x * 100)) / 100).

(** Left padding with zeros up to [width] characters. *)
Definition zfill (s : str) (width : nat) : str :=
  repeat 48%Z (width - length s) ++ s.

Definition two_digits (n : Z) : str :=
  zfill (str_of_int n) 2.

(** [f"{p:05.2f}"]: two decimals of the exact value, ties to even, padded
    with zeros after the sign to a width of at least five. *)
Definition format_05_2f (p : float) : str :=
  let r := round_half_even (p * 100) in
  let a := Z.abs r in
  let body := str_of_int (a / 100) ++ [46%Z] ++ two_digits (a mod 100) in
  match Qcompare p 0 with
  | Lt => 45%Z :: zfill body 4
  | _ => zfill body 5
  end.

(** [sorted(l, key=key, reverse=True)]: a stable sort, so that records of
    equal key keep their order. *)
Fixpoint insert_desc {A} (key : A -> float) (x : A) (l : list A) : list A :=
  match l with
  | [] => [x]
  | y :: l' =>
      match Qcompare (key x) (key y) with
      | Lt => y :: insert_desc key x l'
      | _ => x :: l
      end
  end.

Definition sorted_reverse {A} (key : A -> float) (l : list A) : list A :=
  fold_right (insert_desc key) [] l.

End Py.

Import Py.

(* ================================================================== *)
(** * The configuration read by the code *)
(* ================================================================== *)

(** Modelled from the spec: [manager_environment.EnvironmentManager] is not
    among the sources; the specification lists the flags this code reads
    from it: [SYMBOL_VERSION: 1|2|3], [SHOW_DAYS_OF_WEEK: bool] and
    [SECTION_NAME: string]. *)
Record EnvironmentManager : Type := {
  SYMBOL_VERSION : Z;
  SHOW_DAYS_OF_WEEK : bool;
  SECTION_NAME : str
}.

(* ================================================================== *)
(** * graphics_list_formatter.py *)
(* ================================================================== *)

Module Formatter.

Definition DAY_TIME_EMOJI : list str :=
  [[127774%Z]; [127750%Z]; [127747%Z]; [127769%Z]].
Definition DAY_TIME_NAMES : list str :=
  [lit "Morning"; lit "Daytime"; lit "Evening"; lit "Night"].
Definition WEEK_DAY_NAMES : list str :=
  [lit "Monday"; lit "Tuesday"; lit "Wednesday"; lit "Thursday";
   lit "Friday"; lit "Saturday"; lit "Sunday"].

(** The members of the enumeration [Symbol]. *)
Inductive Symbol : Set := VERSION_1 | VERSION_2 | VERSION_3.

(** [member.value]: the filled and the empty glyph. *)
Definition value (s : Symbol) : str * str :=
  match s with
  | VERSION_1 => ([9608%Z], [9617%Z])
  | VERSION_2 => ([10495%Z], [10432%Z])
  | VERSION_3 => ([11035%Z], [11036%Z])
  end.

Definition Symbol_members : list (str * Symbol) :=
  [(lit "VERSION_1", VERSION_1);
   (lit "VERSION_2", VERSION_2);
   (lit "VERSION_3", VERSION_3)].

(** [Symbol[name]]: lookup of a member by its name. *)
Fixpoint Symbol_getitem (members : list (str * Symbol)) (name : str)
  : result Symbol :=
  match members with
  | [] => Raise KeyError
  | (n, s) :: rest =>
      if str_eqb n name then Ok s else Symbol_getitem rest name
  end.

Definition get_symbols (version : Z) : result (str * str) :=
  bind (Symbol_getitem Symbol_members (lit "VERSION_" ++ str_of_int version))
       (fun s => Ok (value s)).

Definition make_graph (EM : EnvironmentManager) (percent : float)
  : result str :=
  bind (get_symbols (SYMBOL_VERSION EM)) (fun symbols =>
  let '(done_block, empty_block) := symbols in
  bind (float_div percent 4) (fun quarter =>
  let percent_quart := round quarter in
  Ok (str_mul done_block percent_quart
      ++ str_mul empty_block (25 - percent_quart)))).

(** An item of [data]: a dictionary carrying a measure.  Of its keys only
    ["name"], ["text"] and ["percent"] are read, each present once. *)
Record Measure : Type := {
  name : str;
  text : str;
  percent : float
}.

(** One row of the table: the f-string of the comprehension in
    [make_list]. *)
Definition row (EM : EnvironmentManager) (r : str * str * float)
  : result str :=
  let '(n, t, p) := r in
  bind (make_graph EM p) (fun graph =>
  Ok (slice_to n 25 ++ str_mul (lit " ") (25 - len n)
      ++ t ++ str_mul (lit " ") (20 - len t)
      ++ graph ++ lit "   " ++ format_05_2f p ++ lit " % ")).

(** The arguments of [zip]: an argument left at [None] is not iterable. *)
Definition zip_args (names texts : option (list str))
  (percents : option (list float)) : result (list (str * str * float)) :=
  match names, texts, percents with
  | Some ns, Some ts, Some ps => Ok (zip3 ns ts ps)
  | _, _, _ => Raise TypeError
  end.

Definition or_else {A} (given : option A) (default : A) : option A :=
  match given with
  | None => Some default
  | Some x => Some x
  end.

(** [top_data] of [make_list]. *)
Definition top_data (data : list (str * str * float)) (top_num : Z)
  (sort : bool) : list (str * str * float) :=
  if sort then sorted_reverse (fun record => snd record) (slice_to data top_num)
  else slice_to data top_num.

(** [data_list] of [make_list]: the rendered rows. *)
Definition data_list (EM : EnvironmentManager)
  (data : option (list Measure)) (names texts : option (list str))
  (percents : option (list float)) (top_num : Z) (sort : bool)
  : result (list str) :=
  let '(names, texts, percents) :=
    match data with
    | Some items =>
        (or_else names (map name items),
         or_else texts (map text items),
         or_else percents (map percent items))
    | None => (names, texts, percents)
    end in
  bind (zip_args names texts percents) (fun data =>
  mapM (row EM) (top_data data top_num sort)).

Definition make_list (EM : EnvironmentManager)
  (data : option (list Measure)) (names texts : option (list str))
  (percents : option (list float)) (top_num : Z) (sort : bool)
  : result str :=
  bind (data_list EM data names texts percents top_num sort) (fun rows =>
  Ok (join [10%Z] rows)).

(** ** Commit times *)

(** A commit date after [astimezone]: the two fields the code reads. *)
Record datetime : Type := {
  hour : Z;
  isoweekday : Z
}.

(** The body of the inner loop: one commit is counted in its bucket of the
    day and in its day of the week. *)
Definition count_commit (counts : list Z * list Z) (date : datetime)
  : result (list Z * list Z) :=
  let '(day_times, week_days) := counts in
  bind (incr_item day_times (hour date / 6)) (fun day_times =>
  bind (incr_item week_days (isoweekday date - 1)) (fun week_days =>
  Ok (day_times, week_days))).

Fixpoint count_commits (counts : list Z * list Z) (dates : list datetime)
  : result (list Z * list Z) :=
  match dates with
  | [] => Ok counts
  | date :: rest =>
      bind (count_commit counts date) (fun counts' =>
      count_commits counts' rest)
  end.

(** [day_times] and [week_days] when the loops are over. *)
Definition counted (dates : list datetime) : result (list Z * list Z) :=
  count_commits (repeat 0%Z 4, repeat 0%Z 7) dates.

(** [day_times[1:] + day_times[:1]]. *)
Definition rotated (day_times : list Z) : list Z :=
  slice_from day_times 1 ++ slice_to day_times 1.

(** [[round((c / total) * 100, 2) for c in counts]]. *)
Definition percents_of (counts : list Z) (total : Z) : result (list float) :=
  mapM (fun c => bind (int_truediv c total) (fun share =>
                 Ok (round2 (float_mul share 100)))) counts.

(** [max(l)] on floats: the first of the largest elements. *)
Fixpoint max_float (l : list float) : result float :=
  match l with
  | [] => Raise ValueError
  | x :: l' =>
      match l' with
      | [] => Ok x
      | _ => bind (max_float l') (fun m =>
             Ok (match Qcompare x m with Lt => m | _ => x end))
      end
  end.

(** [l.index(x)]. *)
Fixpoint index_float (l : list float) (x : float) : result nat :=
  match l with
  | [] => Raise ValueError
  | y :: l' =>
      if Qeq_bool y x then Ok O
      else bind (index_float l' x) (fun i => Ok (S i))
  end.

(** ** Languages of the repositories *)

(** A node of the repository list: its primary language, by name. *)
Record repository : Type := {
  primaryLanguage : option str
}.

(** [language_count]: a dictionary in insertion order, from the name of a
    language to its ["count"]. *)
Definition dict := list (str * Z).

Fixpoint dict_get (d : dict) (k : str) (default : Z) : Z :=
  match d with
  | [] => default
  | (k', v) :: d' => if str_eqb k' k then v else dict_get d' k default
  end.

Fixpoint dict_set (d : dict) (k : str) (v : Z) : dict :=
  match d with
  | [] => [(k, v)]
  | (k', v') :: d' =>
      if str_eqb k' k then (k', v) :: d' else (k', v') :: dict_set d' k v
  end.

Definition keys (d : dict) : list str := map fst d.

Definition count_language (language_count : dict) (language : str) : dict :=
  let language_count :=
    dict_set language_count language (dict_get language_count language 0%Z) in
  dict_set language_count language
           (dict_get language_count language 0%Z + 1)%Z.

Fixpoint languages_of (nodes : list repository) : list str :=
  match nodes with
  | [] => []
  | repo :: rest =>
      match primaryLanguage repo with
      | Some language => language :: languages_of rest
      | None => languages_of rest
      end
  end.

(** [max(l, key=key)]: the first element of the largest key. *)
Fixpoint max_by (key : str -> Z) (l : list str) : result str :=
  match l with
  | [] => Raise ValueError
  | x :: l' =>
      match l' with
      | [] => Ok x
      | _ => bind (max_by key l') (fun m =>
             Ok (if (key x <? key m)%Z then m else x))
      end
  end.

Section Localized.

(** The lookup of a localized string, [LM.t]. *)
Variable LM_t : str -> str.

(** [template % argument] on strings, with one string argument. *)
Variable str_mod : str -> str -> result str.

Definition fenced (EM : EnvironmentManager) (names texts : list str)
  (percents : list float) (top_num : Z) (sort : bool) : result str :=
  bind (make_list EM None (Some names) (Some texts) (Some percents)
                  top_num sort) (fun table =>
  Ok (lit "```text" ++ [10%Z] ++ table ++ [10%Z] ++ lit "```" ++ [10%Z])).

(** [make_commit_day_time_list], from the commit dates the two nested
    loops visit, in the order they visit them. *)
Definition make_commit_day_time_list (EM : EnvironmentManager)
  (dates : list datetime) : result str :=
  bind (counted dates) (fun counts =>
  let '(day_times, week_days) := counts in
  let sum_day := sum day_times in
  let sum_week := sum week_days in
  let day_times := rotated day_times in
  bind (mapM (fun i =>
          bind (getitem DAY_TIME_EMOJI i) (fun emoji =>
          bind (getitem DAY_TIME_NAMES i) (fun name =>
          Ok (emoji ++ lit " " ++ LM_t name))))
          (seq 0 (length day_times))) (fun dt_names =>
  let dt_texts :=
    map (fun day_time => str_of_int day_time ++ lit " commits") day_times in
  bind (percents_of day_times sum_day) (fun dt_percents =>
  let title :=
    if (sum (firstn 2 day_times) >=? sum (firstn 2 (skipn 2 day_times)))%Z
    then LM_t (lit "I am an Early") else LM_t (lit "I am a Night") in
  bind (fenced EM dt_names dt_texts dt_percents 7 false) (fun table =>
  let stats :=
    lit "**" ++ title ++ lit "** " ++ [10%Z; 10%Z] ++ table in
  if SHOW_DAYS_OF_WEEK EM then
    let wd_names := map LM_t WEEK_DAY_NAMES in
    let wd_texts :=
      map (fun week_day => str_of_int week_day ++ lit " commits") week_days in
    bind (percents_of week_days sum_week) (fun wd_percents =>
    bind (max_float wd_percents) (fun best =>
    bind (index_float wd_percents best) (fun i =>
    bind (getitem wd_names i) (fun day =>
    bind (str_mod (LM_t (lit "I am Most Productive on")) day) (fun title =>
    bind (fenced EM wd_names wd_texts wd_percents 7 false) (fun table =>
    Ok (stats ++ [128197%Z] ++ lit " **" ++ title ++ lit "** "
        ++ [10%Z; 10%Z] ++ table)))))))
  else Ok stats)))).

(** [make_language_per_repo_list], from the nodes of the repository
    list. *)
Definition make_language_per_repo_list (EM : EnvironmentManager)
  (nodes : list repository) : result str :=
  let repos_with_language := languages_of nodes in
  let language_count := fold_left count_language repos_with_language [] in
  let names := keys language_count in
  let texts :=
    map (fun lang =>
           let count := dict_get language_count lang 0%Z in
           str_of_int count ++ lit " "
           ++ (if (count =? 1)%Z then lit "repo" else lit "repos")) names in
  bind (mapM (fun lang =>
          bind (int_truediv (dict_get language_count lang 0%Z)
                            (len repos_with_language)) (fun share =>
          Ok (round2 (float_mul share 100)))) names) (fun percents =>
  bind (max_by (fun x => dict_get language_count x 0%Z)
               (keys language_count)) (fun top_language =>
  bind (if (len repos_with_language >? 0)%Z
        then bind (str_mod (LM_t (lit "I Mostly Code in")) top_language)
                  (fun line => Ok (lit "**" ++ line ++ lit "** "
                                   ++ [10%Z; 10%Z]))
        else Ok []) (fun title =>
  bind (fenced EM names texts percents 5 true) (fun table =>
  Ok (title ++ table ++ [10%Z]))))).

End Localized.

End Formatter.

(* ================================================================== *)
(** * The fragment of the [re] module the code uses *)
(* ================================================================== *)

Module Re.

(** Compiled patterns of the fragment: a sequence of literal characters
    and of greedy [[\s\S]+] items. *)
Inductive piece : Set :=
| Chr (c : Z)
| AnyPlus.

Definition pattern := list piece.

(** The characters with a special meaning in a pattern. *)
Definition special : str := lit ".^$*+?{}[]\|()".

Definition is_special (c : Z) : bool :=
  existsb (Z.eqb c) special.

(** The source text of the one character class the fragment knows. *)
Definition any_plus_text : str := lit "[\s\S]+".

Fixpoint prefixb (p s : str) : bool :=
  match p, s with
  | [], _ => true
  | _ :: _, [] => false
  | a :: p', b :: s' => (a =? b)%Z && prefixb p' s'
  end.

(** Parsing of a pattern; [skip] counts the characters of a class item
    that are left to pass over.  The section name is pasted into the
    pattern as it is: a name with a special character makes a pattern
    outside the fragment, which is answered by [OutsideModel] and about
    which nothing is proved. *)
Fixpoint compile_from (src : str) (skip : nat) : result pattern :=
  match src with
  | [] => Ok []
  | c :: rest =>
      match skip with
      | S k => compile_from rest k
      | O =>
          if prefixb any_plus_text src then
            bind (compile_from rest (length any_plus_text - 1))
                 (fun p => Ok (AnyPlus :: p))
          else if is_special c then Raise OutsideModel
          else bind (compile_from rest 0) (fun p => Ok (Chr c :: p))
      end
  end.

Definition compile (src : str) : result pattern := compile_from src 0.

(** Matching at the start of [s]: the length of the match, if any.  A
    greedy item first takes one more character, and gives it back only if
    the rest of the pattern fails further on. *)
Fixpoint match_here (p : pattern) : str -> option nat :=
  match p with
  | [] => fun _ => Some O
  | Chr c :: p' =>
      fun s =>
        match s with
        | [] => None
        | x :: s' =>
            if (x =? c)%Z then option_map S (match_here p' s') else None
        end
  | AnyPlus :: p' =>
      fix any_plus (s : str) : option nat :=
        match s with
        | [] => None
        | _ :: s' =>
            match any_plus s' with
            | Some n => Some (S n)
            | None => option_map S (match_here p' s')
            end
        end
  end.

(** ** Replacement templates *)

(** A parsed template: literal characters and references to the whole
    match (group 0; the patterns of the fragment have no other group). *)
Inductive token : Set :=
| TChr (c : Z)
| TMatch.

Definition backslash : Z := 92%Z.

Definition is_octal (c : Z) : bool := ((48 <=? c) && (c <=? 55))%Z.

(** The character escapes of a template. *)
Definition escape (c : Z) : option Z :=
  if (c =? 97)%Z then Some 7%Z            (* \a *)
  else if (c =? 98)%Z then Some 8%Z       (* \b *)
  else if (c =? 102)%Z then Some 12%Z     (* \f *)
  else if (c =? 110)%Z then Some 10%Z     (* \n *)
  else if (c =? 114)%Z then Some 13%Z     (* \r *)
  else if (c =? 116)%Z then Some 9%Z      (* \t *)
  else if (c =? 118)%Z then Some 11%Z     (* \v *)
  else if (c =? 92)%Z then Some 92%Z      (* \\ *)
  else None.

(** [getuntil(">")] of the tokenizer: the name up to the terminator and
    what follows it.  A backslash takes the next character with it, so
    that a name with a backslash either has no terminator or is no name:
    both are errors, and no answer is given here. *)
Fixpoint getuntil (s : str) : option (str * str) :=
  match s with
  | [] => None
  | c :: s' =>
      if (c =? 62)%Z then Some ([], s')
      else if (c =? backslash)%Z then None
      else match getuntil s' with
           | Some (name, after) => Some (c :: name, after)
           | None => None
           end
  end.

(** Parsing of a template, as [re] (CPython 3.11) does it before any
    search; [skip] counts the characters of an escape that are left to
    pass over.
    - a backslash at the very end is an error, raised as soon as the token
      before it is read;
    - [\g<name>]: a missing [<] or [>] and an empty name are errors; a name
      that is an identifier is an unknown group, [IndexError]; any other
      name is read by [int]: 0, however it is spelled, is the whole match,
      and anything else is an error (no such group, or no number); a name
      with a character outside ASCII is not modelled;
    - [\0], [\0o], [\0oo] and [\ooo] are octal escapes;
    - any other backslash followed by digits is a reference to a group the
      pattern does not have: an error;
    - [\a \b \f \n \r \t \v \\] are character escapes; a backslash before
      another ASCII letter is an error;
    - a backslash before anything else stays, with what follows it. *)
Fixpoint parse_template_from (src : str) (skip : nat) : result (list token) :=
  match src with
  | [] => Ok []
  | c :: rest =>
      match skip with
      | S k => parse_template_from rest k
      | O =>
          if (c =? backslash)%Z then
            match rest with
            | [] => Raise re_error
            | e :: rest' =>
                if (e =? 103)%Z then                           (* \g *)
                  match rest' with
                  | 60%Z :: named =>
                      match getuntil named with
                      | Some (c0 :: name', after) =>
                          let name := c0 :: name' in
                          if str_eqb after [backslash] then Raise re_error
                          else if negb (isascii name) then Raise OutsideModel
                          else if isidentifier name then Raise IndexError
                          else
                            match int_of_str name with
                            | Ok 0%Z =>
                                bind (parse_template_from rest
                                        (3 + length name))
                                     (fun t => Ok (TMatch :: t))
                            | _ => Raise re_error
                            end
                      | _ => Raise re_error
                      end
                  | _ => Raise re_error
                  end
                else if (e =? 48)%Z then                       (* \0.. *)
                  match rest' with
                  | d1 :: d2 :: _ =>
                      if is_octal d1 && is_octal d2 then
                        bind (parse_template_from rest 3) (fun t =>
                        Ok (TChr (Z.land ((d1 - 48) * 8 + (d2 - 48)) 255)
                              :: t))
                      else if is_octal d1 then
                        bind (parse_template_from rest 2) (fun t =>
                        Ok (TChr (d1 - 48) :: t))
                      else bind (parse_template_from rest 1) (fun t =>
                           Ok (TChr 0 :: t))
                  | [d1] =>
                      if is_octal d1 then
                        bind (parse_template_from rest 2) (fun t =>
                        Ok (TChr (d1 - 48) :: t))
                      else bind (parse_template_from rest 1) (fun t =>
                           Ok (TChr 0 :: t))
                  | [] => bind (parse_template_from rest 1) (fun t =>
                          Ok (TChr 0 :: t))
                  end
                else if is_digit e then                        (* \1 .. \9 *)
                  match rest' with
                  | d1 :: d2 :: _ =>
                      if is_octal e && is_octal d1 && is_octal d2 then
                        let v :=
                          ((e - 48) * 64 + (d1 - 48) * 8 + (d2 - 48))%Z in
                        if (v >? 255)%Z then Raise re_error
                        else bind (parse_template_from rest 3) (fun t =>
                             Ok (TChr v :: t))
                      else Raise re_error
                  | _ => Raise re_error
                  end
                else
                  match escape e with
                  | Some x =>
                      bind (parse_template_from rest 1) (fun t =>
                      Ok (TChr x :: t))
                  | None =>
                      if is_ascii_letter e then Raise re_error
                      else bind (parse_template_from rest 1) (fun t =>
                           Ok (TChr backslash :: TChr e :: t))
                  end
            end
          else bind (parse_template_from rest 0) (fun t => Ok (TChr c :: t))
      end
  end.

Definition parse_template (src : str) : result (list token) :=
  parse_template_from src 0.

(** The text a template stands for at a given match. *)
Fixpoint expand (t : list token) (whole : str) : str :=
  match t with
  | [] => []
  | TChr c :: t' => c :: expand t' whole
  | TMatch :: t' => whole ++ expand t' whole
  end.

(** The scan of [sub]: at each position outside the last match the
    pattern is tried; a match is replaced and passed over, an empty match
    is replaced and the character kept.  [skip] counts the characters of
    the last match that are left to pass over. *)
Fixpoint scan (p : pattern) (t : list token) (s : str) (skip : nat) : str :=
  match s with
  | [] =>
      match skip, match_here p [] with
      | O, Some _ => expand t []
      | _, _ => []
      end
  | c :: s' =>
      match skip with
      | S k => scan p t s' k
      | O =>
          match match_here p s with
          | Some (S n) => expand t (firstn (S n) s) ++ scan p t s' n
          | Some O => expand t [] ++ c :: scan p t s' 0
          | None => c :: scan p t s' 0
          end
      end
  end.

(** [re.sub(pattern, repl, string)]. *)
Definition sub (pattern repl string : str) : result str :=
  bind (compile pattern) (fun p =>
  bind (parse_template repl) (fun t =>
  Ok (scan p t string 0))).

End Re.

(* ================================================================== *)
(** * manager_github.py *)
(* ================================================================== *)

Module GitHubManager.

Definition _START_COMMENT (EM : EnvironmentManager) : str :=
  lit "<!--START_SECTION:" ++ SECTION_NAME EM ++ lit "-->".

Definition _END_COMMENT (EM : EnvironmentManager) : str :=
  lit "<!--END_SECTION:" ++ SECTION_NAME EM ++ lit "-->".

Definition _README_REGEX (EM : EnvironmentManager) : str :=
  _START_COMMENT EM ++ lit "[\s\S]+" ++ _END_COMMENT EM.

(** [readme_stats] of [_generate_new_readme]. *)
Definition readme_stats (EM : EnvironmentManager) (stats : str) : str :=
  _START_COMMENT EM ++ [10%Z] ++ stats ++ [10%Z] ++ _END_COMMENT EM.

Definition _generate_new_readme (EM : EnvironmentManager)
  (_README_CONTENTS stats : str) : result str :=
  Re.sub (_README_REGEX EM) (readme_stats EM stats) _README_CONTENTS.

(** [update_readme]: the answer of the function, and the content handed to
    [REPO.update_file] when the file is updated. *)
Definition update_readme (EM : EnvironmentManager)
  (_README_CONTENTS stats : str) : result (bool * option str) :=
  bind (_generate_new_readme EM _README_CONTENTS stats) (fun new_readme =>
  if str_eqb new_readme _README_CONTENTS then Ok (false, None)
  else Ok (true, Some new_readme)).

(** The README of the repository once [update_readme] has run. *)
Definition readme_after (_README_CONTENTS : str) (outcome : bool * option str)
  : str :=
  match snd outcome with
  | Some content => content
  | None => _README_CONTENTS
  end.

(** ** The author of the commits *)

(** Modelled from the spec: [manager_environment.EnvironmentManager] is not
    among the sources; these are the settings [_get_author] reads from it.
    A setting that is not given is [None] or the empty string. *)
Record CommitSettings : Type := {
  COMMIT_BY_ME : bool;
  COMMIT_USERNAME : option str;
  COMMIT_EMAIL : option str
}.

(** The two fields of [GitHubManager.USER] that [_get_author] reads. *)
Record AuthenticatedUser : Type := {
  login : option str;
  email : option str
}.

(** [InputGitAuthor] of PyGithub, which is not among the sources: its
    constructor asserts that the name and the e-mail address are
    strings. *)
Record InputGitAuthor : Type := {
  author_name : str;
  author_email : str
}.

Definition new_InputGitAuthor (name email : option str)
  : result InputGitAuthor :=
  match name, email with
  | Some name, Some email =>
      Ok {| author_name := name; author_email := email |}
  | _, _ => Raise AssertionError
  end.

(** The truth value of a string or [None]. *)
Definition truthy (s : option str) : bool :=
  match s with
  | Some (_ :: _) => true
  | _ => false
  end.

(** [a or b]. *)
Definition py_or (a b : option str) : option str :=
  if truthy a then a else b.

Definition bot_email : str :=
  lit "41898282+github-actions[bot]@users.noreply.github.com".

Definition _get_author (CS : CommitSettings) (USER : AuthenticatedUser)
  : result InputGitAuthor :=
  if COMMIT_BY_ME CS then
    new_InputGitAuthor (py_or (login USER) (COMMIT_USERNAME CS))
                       (py_or (email USER) (COMMIT_EMAIL CS))
  else
    new_InputGitAuthor (py_or (COMMIT_USERNAME CS) (Some (lit "readme-bot")))
                       (py_or (COMMIT_EMAIL CS) (Some bot_email)).

End GitHubManager.

(* ================================================================== *)
(** * main.py *)
(* ================================================================== *)

Module Main.

Import Formatter.



Section Localized.

Variable LM_t : str -> str.
Variable str_mod : str -> str -> result str.


(** One section of the weekly block: its heading and its table. *)
Definition shown (show : bool) (emoji : str) (title : str)
  (table : result str) (stats : str) : result str :=
  if show then
    bind table (fun table =>
    Ok (stats ++ emoji ++ lit " " ++ LM_t title ++ lit ": " ++ [10%Z]
        ++ table ++ [10%Z; 10%Z]))
  else Ok stats.


End Localized.

End Main.

(* ================================================================== *)
(** * Notions used to state the properties *)
(* ================================================================== *)

(** The versions the enumeration [Symbol] has a member for. *)
Definition valid_version (v : Z) : Prop := (v = 1 \/ v = 2 \/ v = 3)%Z.

(** The first [min(len(entries), top_num)] entries, in input order. *)
Definition window {A} (entries : list A) (top_num : Z) : list A :=
  firstn (Nat.min (length entries) (Z.to_nat top_num)) entries.

(** The order of a table sorted by percent, largest first. *)
Definition percent_descending (a b : str * str * float) : Prop :=
  (snd b <= snd a)%Q.

(** The width of [f"{p:05.2f}"] for a percent between 0 and 100: six
    characters once the two decimals round to [100.00], five below. *)
Definition percent_width (p : float) : nat :=
  if Qle_bool (99995 # 1000) p then 6%nat else 5%nat.

(** A configuration to evaluate the code at: the first glyph pair and the
    section name ["waka"]. *)
Definition EM_waka : EnvironmentManager :=
  {| SYMBOL_VERSION := 1; SHOW_DAYS_OF_WEEK := true;
     SECTION_NAME := lit "waka" |}.

(** A commit date as [datetime] produces it: an hour of the day and an ISO
    day of the week. *)
Definition valid_date (date : Formatter.datetime) : Prop :=
  (0 <= Formatter.hour date < 24)%Z
  /\ (1 <= Formatter.isoweekday date <= 7)%Z.

(** The number of commits whose hour falls in the six-hour bucket [b]. *)
Definition bucket_count (dates : list Formatter.datetime) (b : Z) : Z :=
  Z.of_nat
    (length (filter (fun d => (Formatter.hour d / 6 =? b)%Z) dates)).

(** The number of commits made on the ISO day of the week [w]. *)
Definition weekday_count (dates : list Formatter.datetime) (w : Z) : Z :=
  Z.of_nat
    (length (filter (fun d => (Formatter.isoweekday d =? w)%Z) dates)).

(** A percent of modest size, between minus one million and one million:
    its bar has at most 250025 cells, far below the interpreter's limits
    on the length of a string, which the model leaves out. *)
Definition modest (p : float) : Prop :=
  (- (1000000) <= p <= 1000000)%Q.

(** The names of the four times of day, in the order of the report. *)
Definition day_time_names (LM_t : str -> str) : list str :=
  [[127774%Z] ++ lit " " ++ LM_t (lit "Morning");
   [127750%Z] ++ lit " " ++ LM_t (lit "Daytime");
   [127747%Z] ++ lit " " ++ LM_t (lit "Evening");
   [127769%Z] ++ lit " " ++ LM_t (lit "Night")].

(** The text of a count in the commit report. *)
Definition commits_text (n : Z) : str := str_of_int n ++ lit " commits".

(** The configuration with the days of the week switched off. *)
Definition days_off (EM : EnvironmentManager) : EnvironmentManager :=
  {| SYMBOL_VERSION := SYMBOL_VERSION EM;
     SHOW_DAYS_OF_WEEK := false;
     SECTION_NAME := SECTION_NAME EM |}.

(** Stand-ins for the localization, to evaluate the reports. *)
Definition plain_t (key : str) : str := key.
Definition plain_mod (template argument : str) : result str :=
  Ok (template ++ lit " " ++ argument).

(** [p in s]: the string [s] contains [p]. *)
Fixpoint containsb (p s : str) : bool :=
  Re.prefixb p s
  || match s with
     | [] => false
     | _ :: s' => containsb p s'
     end.

(** A section name without a character that is special in a pattern. *)
Definition plain (s : str) : Prop :=
  Forall (fun c => Re.is_special c = false) s.

(** A text without a backslash. *)
Definition no_backslash (s : str) : Prop :=
  Forall (fun c => c <> Re.backslash) s.

(** The compiled pattern of a start marker [A], a greedy [[\s\S]+] and an
    end marker [B]. *)
Definition marker_pattern (A B : str) : Re.pattern :=
  map Re.Chr A ++ Re.AnyPlus :: map Re.Chr B.

(** Matching of the greedy item followed by the end marker [B]. *)
Definition any_plus (B : str) : str -> option nat :=
  Re.match_here (Re.AnyPlus :: map Re.Chr B).

(** [B] occurs last at offset [k >= 1] of [t]. *)
Definition last_at (B t : str) (k : nat) : Prop :=
  (1 <= k)%nat
  /\ Re.prefixb B (skipn k t) = true
  /\ forall k', (k < k')%nat -> Re.prefixb B (skipn k' t) = false.

(** The end marker [B] does not occur in [B ++ post] after its start. *)
Definition no_later (B post : str) : Prop :=
  forall d, (1 <= d)%nat -> Re.prefixb B (skipn d (B ++ post)) = false.

(** How often a language occurs among the primary languages. *)
Definition occurrences (langs : list str) (k : str) : Z :=
  Z.of_nat (count_occ str_eq_dec langs k).

(** More commits from 6 h to 18 h than from 18 h to 6 h, or as many. *)
Definition early_bird (dates : list Formatter.datetime) : bool :=
  (bucket_count dates 3 + bucket_count dates 0
   <=? bucket_count dates 1 + bucket_count dates 2)%Z.

(** The distinct elements of a list, in the order of their first
    occurrence. *)
Fixpoint distinct (l : list str) : list str :=
  match l with
  | [] => []
  | x :: l' => x :: filter (fun y => negb (str_eqb x y)) (distinct l')
  end.

(** [y] is not among the keys [ks]. *)
Definition unseen (ks : list str) (y : str) : bool :=
  if in_dec str_eq_dec y ks then false else true.

(** The marker [A] does not begin in [pre]: in [pre ++ A] it occurs first
    at the end of [pre]. *)
Definition first_at (A pre : str) : Prop :=
  forall j, (j < length pre)%nat ->
            Re.prefixb A (skipn j (pre ++ A)) = false.

(** Decision of [first_at] and of [no_later] on given strings. *)
Definition first_atb (A pre : str) : bool :=
  forallb (fun j => negb (Re.prefixb A (skipn j (pre ++ A))))
          (seq 0 (length pre)).

Definition no_laterb (B post : str) : bool :=
  forallb (fun d => negb (Re.prefixb B (skipn d (B ++ post))))
          (seq 1 (length (B ++ post))).

(* ================================================================== *)
(** * Facts about rounding *)
(* ================================================================== *)

Section Rounding.

Open Scope Q_scope.

Lemma round_half_even_comp (x y : Q) :
  x == y -> round_half_even x = round_half_even y.
Proof.
  intros E. unfold round_half_even.
  rewrite (Qfloor_comp _ _ E).
  assert (C : (x - inject_Z (Qfloor y) ?= 1 # 2)
              = (y - inject_Z (Qfloor y) ?= 1 # 2)).
  { apply Qcompare_comp; [rewrite E|]; reflexivity. }
  rewrite C. reflexivity.
Qed.

Lemma floor_bounds (x : Q) :
  inject_Z (Qfloor x) <= x /\ x < inject_Z (Qfloor x) + 1.
Proof.
  split; [apply Qfloor_le|].
  pose proof (Qlt_floor x) as H. rewrite inject_Z_plus in H. exact H.
Qed.

(** The rounded value is within one half of the argument. *)
Lemma round_half_even_near (x : Q) :
  inject_Z (round_half_even x) - (1 # 2) <= x
  /\ x <= inject_Z (round_half_even x) + (1 # 2).
Proof.
  unfold round_half_even.
  destruct (floor_bounds x) as [L U].
  destruct (Qcompare_spec (x - inject_Z (Qfloor x)) (1 # 2)) as [E|E|E].
  - destruct (Z.even (Qfloor x));
      [|rewrite inject_Z_plus; change (inject_Z 1) with 1]; split; lra.
  - split; lra.
  - rewrite inject_Z_plus. change (inject_Z 1) with 1. split; lra.
Qed.

(** On a tie the rounded value is even. *)
Lemma round_half_even_tie (x : Q) :
  x - inject_Z (Qfloor x) == 1 # 2 -> Z.even (round_half_even x) = true.
Proof.
  intros E. unfold round_half_even.
  rewrite (proj1 (Qeq_alt _ _) E).
  destruct (Z.even (Qfloor x)) eqn:Ev; [exact Ev|].
  rewrite Z.even_add, Ev. reflexivity.
Qed.

Lemma round_half_even_Z (n : Z) : round_half_even (inject_Z n) = n.
Proof.
  unfold round_half_even. rewrite Qfloor_Z.
  assert (E : (inject_Z n - inject_Z n ?= 1 # 2) = Lt).
  { apply (proj1 (Qlt_alt _ _)). lra. }
  rewrite E. reflexivity.
Qed.

Lemma round_half_even_mono (x y : Q) :
  x <= y -> (round_half_even x <= round_half_even y)%Z.
Proof.
  intros Hxy.
  pose proof (Qfloor_resp_le _ _ Hxy) as Hf.
  destruct (floor_bounds x) as [Lx Ux], (floor_bounds y) as [Ly Uy].
  assert (Bx : (Qfloor x <= round_half_even x <= Qfloor x + 1)%Z).
  { unfold round_half_even.
    destruct (x - inject_Z (Qfloor x) ?= 1 # 2);
      [destruct (Z.even _)| |]; lia. }
  assert (By : (Qfloor y <= round_half_even y <= Qfloor y + 1)%Z).
  { unfold round_half_even.
    destruct (y - inject_Z (Qfloor y) ?= 1 # 2);
      [destruct (Z.even _)| |]; lia. }
  destruct (Z.eq_dec (Qfloor x) (Qfloor y)) as [E|N]; [|lia].
  unfold round_half_even. rewrite <- E.
  destruct (Qcompare_spec (x - inject_Z (Qfloor x)) (1 # 2)) as [Ex|Ex|Ex];
    destruct (Qcompare_spec (y - inject_Z (Qfloor x)) (1 # 2)) as [Ey|Ey|Ey];
    try destruct (Z.even (Qfloor x)); try lia; exfalso; lra.
Qed.

End Rounding.

Section Floats.

Open Scope Q_scope.

Lemma pow2_pos (k : Z) : 0 < 2 ^ k.
Proof. apply Qpower_0_lt. reflexivity. Qed.

Lemma pow2_succ (k : Z) : 2 ^ (k + 1) == 2 * 2 ^ k.
Proof. rewrite Qpower_plus by discriminate. change (2 ^ 1) with 2. ring. Qed.

Lemma pow2_Z (k : Z) : (0 <= k)%Z -> 2 ^ k == inject_Z (2 ^ k).
Proof. intros H. rewrite Zpower_Qpower by exact H. reflexivity. Qed.

Lemma inject_Z_pos (B : Z) : (0 < B)%Z -> 0 < inject_Z B.
Proof.
  intros H. change (inject_Z 0 < inject_Z B). rewrite <- Zlt_Qlt. exact H.
Qed.

Lemma frac_le (A B n : Z) (d : positive) :
  (0 < B)%Z ->
  (inject_Z A / inject_Z B <= n # d <-> (A * Zpos d <= n * B)%Z).
Proof.
  intros HB. destruct B as [|p|p]; try lia.
  unfold Qdiv, Qinv, Qmult, Qle. simpl. rewrite !Z.mul_1_r. lia.
Qed.

Lemma frac_lt (A B n : Z) (d : positive) :
  (0 < B)%Z ->
  (n # d < inject_Z A / inject_Z B <-> (n * B < A * Zpos d)%Z).
Proof.
  intros HB. destruct B as [|p|p]; try lia.
  unfold Qdiv, Qinv, Qmult, Qlt. simpl. rewrite !Z.mul_1_r. lia.
Qed.

(** [ilog2] is the integer part of the binary logarithm. *)
Lemma ilog2_spec (x : Q) :
  0 < x -> 2 ^ ilog2 x <= x /\ x < 2 ^ (ilog2 x + 1).
Proof.
  destruct x as [n d]. intros Hx.
  assert (Hn : (0 < n)%Z).
  { unfold Qlt in Hx. simpl in Hx. lia. }
  unfold ilog2. simpl Qnum. simpl Qden.
  set (a := Z.log2 n). set (b := Z.log2 (Zpos d)).
  destruct (Z.log2_spec n Hn) as [La Ua]. fold a in La, Ua.
  destruct (Z.log2_spec (Zpos d) (Pos2Z.is_pos d)) as [Lb Ub]. fold b in Lb, Ub.
  assert (Ha : (0 <= a)%Z) by apply Z.log2_nonneg.
  assert (Hb : (0 <= b)%Z) by apply Z.log2_nonneg.
  assert (Pa : (0 < 2 ^ a)%Z) by (apply Z.pow_pos_nonneg; lia).
  assert (Pb : (0 < 2 ^ b)%Z) by (apply Z.pow_pos_nonneg; lia).
  assert (Sa : (2 ^ Z.succ a = 2 * 2 ^ a)%Z) by (apply Z.pow_succ_r; lia).
  assert (Sb : (2 ^ Z.succ b = 2 * 2 ^ b)%Z) by (apply Z.pow_succ_r; lia).
  assert (Q1 : 2 ^ (a - b) == inject_Z (2 ^ a) / inject_Z (2 ^ b)).
  { rewrite Qpower_minus by discriminate.
    rewrite (pow2_Z Ha), (pow2_Z Hb). reflexivity. }
  destruct (Z.leb_spec (Zpos d * 2 ^ a) (n * 2 ^ b)) as [T|T].
  - split.
    + rewrite Q1. apply frac_le; [exact Pb|lia].
    + rewrite pow2_succ, Q1.
      assert (E : 2 * (inject_Z (2 ^ a) / inject_Z (2 ^ b))
                  == inject_Z (2 * 2 ^ a) / inject_Z (2 ^ b)).
      { rewrite inject_Z_mult. unfold Qdiv. ring. }
      rewrite E. apply frac_lt; [exact Pb|nia].
  - replace (a - b - 1 + 1)%Z with (a - b)%Z by ring.
    split.
    + assert (E : 2 ^ (a - b - 1) == inject_Z (2 ^ a) / inject_Z (2 * 2 ^ b)).
      { assert (E2 : 2 ^ (a - b) == 2 * 2 ^ (a - b - 1)).
        { rewrite <- pow2_succ.
          replace (a - b - 1 + 1)%Z with (a - b)%Z by ring.
          reflexivity. }
        rewrite Q1 in E2. rewrite inject_Z_mult.
        assert (N : ~ inject_Z (2 ^ b) == 0).
        { intros C.
          assert (0 < inject_Z (2 ^ b)) by (apply inject_Z_pos; exact Pb).
          lra. }
        apply (Qmult_inj_l _ _ 2); [discriminate|].
        rewrite <- E2. change (inject_Z 2) with 2. field. exact N. }
      rewrite E. apply frac_le; [lia|nia].
    + rewrite Q1. apply frac_lt; [exact Pb|lia].
Qed.

Lemma ilog2_unique (x : Q) (k : Z) :
  2 ^ k <= x -> x < 2 ^ (k + 1) -> ilog2 x = k.
Proof.
  intros L U.
  assert (Hx : 0 < x) by (pose proof (pow2_pos k); lra).
  destruct (ilog2_spec Hx) as [L' U'].
  assert (H1 : (k < ilog2 x + 1)%Z).
  { apply (Qpower_lt_compat_l_inv 2); [lra|reflexivity]. }
  assert (H2 : (ilog2 x < k + 1)%Z).
  { apply (Qpower_lt_compat_l_inv 2); [lra|reflexivity]. }
  lia.
Qed.

Lemma ilog2_comp (x y : Q) : 0 < x -> x == y -> ilog2 x = ilog2 y.
Proof.
  intros Hx E. symmetry.
  destruct (ilog2_spec Hx) as [L U].
  apply ilog2_unique; rewrite <- E; assumption.
Qed.

Lemma scaled_bounds (x : Q) :
  0 < x ->
  2 ^ 52 <= x / 2 ^ (ilog2 x - 52) /\ x / 2 ^ (ilog2 x - 52) < 2 ^ 53.
Proof.
  intros Hx. destruct (ilog2_spec Hx) as [L U].
  pose proof (pow2_pos (ilog2 x - 52)) as P.
  assert (E1 : 2 ^ ilog2 x == 2 ^ 52 * 2 ^ (ilog2 x - 52)).
  { rewrite <- Qpower_plus by discriminate.
    replace (52 + (ilog2 x - 52))%Z with (ilog2 x) by ring. reflexivity. }
  assert (E2 : 2 ^ (ilog2 x + 1) == 2 ^ 53 * 2 ^ (ilog2 x - 52)).
  { rewrite <- Qpower_plus by discriminate.
    replace (53 + (ilog2 x - 52))%Z with (ilog2 x + 1)%Z by ring. reflexivity. }
  split.
  - apply Qle_shift_div_l; [exact P|]. rewrite <- E1. exact L.
  - apply Qlt_shift_div_r; [exact P|]. rewrite <- E2. exact U.
Qed.

Lemma mantissa_bounds (x : Q) :
  0 < x ->
  (2 ^ 52 <= round_half_even (x / 2 ^ (ilog2 x - 52)) <= 2 ^ 53)%Z.
Proof.
  intros Hx. destruct (scaled_bounds Hx) as [L U].
  split.
  - rewrite <- (round_half_even_Z (2 ^ 52)).
    apply round_half_even_mono. exact L.
  - rewrite <- (round_half_even_Z (2 ^ 53)).
    apply round_half_even_mono. apply Qlt_le_weak. exact U.
Qed.

Lemma fl_pos_bounds (x : Q) :
  0 < x -> 2 ^ ilog2 x <= fl_pos x /\ fl_pos x <= 2 ^ (ilog2 x + 1).
Proof.
  intros Hx. unfold fl_pos.
  destruct (mantissa_bounds Hx) as [L U].
  pose proof (pow2_pos (ilog2 x - 52)) as P.
  set (m := round_half_even (x / 2 ^ (ilog2 x - 52))) in *.
  assert (E1 : 2 ^ ilog2 x == inject_Z (2 ^ 52) * 2 ^ (ilog2 x - 52)).
  { rewrite <- (pow2_Z (k := 52)) by lia.
    rewrite <- Qpower_plus by discriminate.
    replace (52 + (ilog2 x - 52))%Z with (ilog2 x) by ring. reflexivity. }
  assert (E2 : 2 ^ (ilog2 x + 1) == inject_Z (2 ^ 53) * 2 ^ (ilog2 x - 52)).
  { rewrite <- (pow2_Z (k := 53)) by lia.
    rewrite <- Qpower_plus by discriminate.
    replace (53 + (ilog2 x - 52))%Z with (ilog2 x + 1)%Z by ring. reflexivity. }
  rewrite E1, E2. split.
  - apply Qmult_le_compat_r; [rewrite <- Zle_Qle; exact L|lra].
  - apply Qmult_le_compat_r; [rewrite <- Zle_Qle; exact U|lra].
Qed.

Lemma fl_pos_positive (x : Q) : 0 < x -> 0 < fl_pos x.
Proof.
  intros Hx. destruct (fl_pos_bounds Hx) as [L _].
  pose proof (pow2_pos (ilog2 x)). lra.
Qed.

Lemma fl_pos_mono (x y : Q) : 0 < x -> x <= y -> fl_pos x <= fl_pos y.
Proof.
  intros Hx Hxy.
  assert (Hy : 0 < y) by lra.
  destruct (ilog2_spec Hx) as [Lx Ux], (ilog2_spec Hy) as [Ly Uy].
  assert (K : (ilog2 x < ilog2 y + 1)%Z).
  { apply (Qpower_lt_compat_l_inv 2); [lra|reflexivity]. }
  destruct (Z.eq_dec (ilog2 x) (ilog2 y)) as [E|N].
  - unfold fl_pos. rewrite E.
    pose proof (pow2_pos (ilog2 y - 52)) as P.
    apply Qmult_le_compat_r; [|lra].
    rewrite <- Zle_Qle. apply round_half_even_mono.
    apply Qmult_le_compat_r; [exact Hxy|].
    apply Qlt_le_weak, Qinv_lt_0_compat, P.
  - destruct (fl_pos_bounds Hx) as [_ Bx], (fl_pos_bounds Hy) as [By _].
    assert (M : 2 ^ (ilog2 x + 1) <= 2 ^ ilog2 y).
    { apply Qpower_le_compat_l; [lia|discriminate]. }
    lra.
Qed.

Lemma fl_comp (x y : Q) : x == y -> fl x == fl y.
Proof.
  intros E. unfold fl.
  assert (C0 : (x ?= 0) = (y ?= 0)).
  { apply Qcompare_comp; [exact E|reflexivity]. }
  rewrite C0.
  destruct (Qcompare_spec y 0) as [C|C|C]; [reflexivity| |].
  - rewrite !Qred_correct. unfold fl_pos.
    assert (Hx : 0 < - x) by lra.
    assert (E' : - x == - y) by (rewrite E; reflexivity).
    rewrite (ilog2_comp Hx E').
    rewrite (round_half_even_comp (x := - x / 2 ^ (ilog2 (- y) - 52))
                                  (y := - y / 2 ^ (ilog2 (- y) - 52)));
      [reflexivity|rewrite E; reflexivity].
  - rewrite !Qred_correct. unfold fl_pos.
    assert (Hx : 0 < x) by lra.
    rewrite (ilog2_comp Hx E).
    rewrite (round_half_even_comp (x := x / 2 ^ (ilog2 y - 52))
                                  (y := y / 2 ^ (ilog2 y - 52)));
      [reflexivity|rewrite E; reflexivity].
Qed.

(** Rounding to a float is monotone. *)
Lemma fl_mono (x y : Q) : x <= y -> fl x <= fl y.
Proof.
  intros Hxy. unfold fl.
  destruct (Qcompare_spec x 0) as [Cx|Cx|Cx];
    destruct (Qcompare_spec y 0) as [Cy|Cy|Cy];
    rewrite ?Qred_correct; try lra.
  all: try (assert (Px : 0 < fl_pos x) by (apply fl_pos_positive; lra)).
  all: try (assert (Py : 0 < fl_pos y) by (apply fl_pos_positive; lra)).
  all: try (assert (Nx : 0 < fl_pos (- x)) by (apply fl_pos_positive; lra)).
  all: try (assert (Ny : 0 < fl_pos (- y)) by (apply fl_pos_positive; lra)).
  all: try (assert (M : fl_pos x <= fl_pos y) by (apply fl_pos_mono; lra)).
  all: try (assert (M' : fl_pos (- y) <= fl_pos (- x))
             by (apply fl_pos_mono; lra)).
  all: lra.
Qed.

(** A rational between two floats rounds to a float between them. *)
Lemma fl_between (lo hi x : Q) :
  fl lo == lo -> fl hi == hi -> lo <= x <= hi -> lo <= fl x <= hi.
Proof.
  intros Hlo Hhi [L U].
  pose proof (fl_mono L) as ML. pose proof (fl_mono U) as MU.
  rewrite Hlo in ML. rewrite Hhi in MU. split; assumption.
Qed.

(** Division by four is exact on floats. *)
Lemma fl_pos_quarter (x : Q) : 0 < x -> fl_pos (x / 4) == fl_pos x / 4.
Proof.
  intros Hx. destruct (ilog2_spec Hx) as [L U].
  assert (P4 : 2 ^ ilog2 x == 4 * 2 ^ (ilog2 x - 2)).
  { change 4 with (2 ^ 2). rewrite <- Qpower_plus by discriminate.
    replace (2 + (ilog2 x - 2))%Z with (ilog2 x) by ring. reflexivity. }
  assert (K : ilog2 (x / 4) = (ilog2 x - 2)%Z).
  { apply ilog2_unique.
    - apply Qle_shift_div_l; [reflexivity|]. rewrite Qmult_comm, <- P4. exact L.
    - apply Qlt_shift_div_r; [reflexivity|].
      replace (ilog2 x - 2 + 1)%Z with (ilog2 x + 1 - 2)%Z by ring.
      rewrite pow2_succ in U.
      assert (P5 : 2 ^ (ilog2 x + 1 - 2) * 4 == 2 * 2 ^ ilog2 x).
      { replace (ilog2 x + 1 - 2)%Z with (ilog2 x - 2 + 1)%Z by ring.
        rewrite pow2_succ, P4. ring. }
      rewrite P5. exact U. }
  unfold fl_pos. rewrite K.
  replace (ilog2 x - 2 - 52)%Z with ((ilog2 x - 52) - 2)%Z by ring.
  set (e := (ilog2 x - 52)%Z).
  assert (P6 : 2 ^ e == 4 * 2 ^ (e - 2)).
  { change 4 with (2 ^ 2). rewrite <- Qpower_plus by discriminate.
    replace (2 + (e - 2))%Z with e by ring. reflexivity. }
  pose proof (pow2_pos (e - 2)) as Pe.
  assert (S : x / 4 / 2 ^ (e - 2) == x / 2 ^ e).
  { rewrite P6. field. lra. }
  rewrite (round_half_even_comp S).
  set (m := round_half_even (x / 2 ^ e)). rewrite P6. field.
Qed.

Lemma fl_quarter (x : Q) : fl (x / 4) == fl x / 4.
Proof.
  unfold fl.
  assert (D : x / 4 == x * (1 # 4)) by reflexivity.
  assert (C : (x / 4 ?= 0) = (x ?= 0)).
  { destruct (Qcompare_spec x 0) as [E|E|E].
    - apply (proj1 (Qeq_alt _ _)). rewrite E. reflexivity.
    - apply (proj1 (Qlt_alt _ _)). lra.
    - apply (proj1 (Qgt_alt _ _)). lra. }
  rewrite C. destruct (Qcompare_spec x 0) as [E|E|E].
  - reflexivity.
  - rewrite !Qred_correct.
    assert (N : - (x / 4) == (- x) / 4) by field.
    assert (Hx : 0 < - (x / 4)) by lra.
    assert (F : fl_pos (- (x / 4)) == fl_pos (- x / 4)).
    { unfold fl_pos. rewrite (ilog2_comp Hx N).
      rewrite (round_half_even_comp
                 (x := - (x / 4) / 2 ^ (ilog2 (- x / 4) - 52))
                 (y := - x / 4 / 2 ^ (ilog2 (- x / 4) - 52)));
        [reflexivity|rewrite N; reflexivity]. }
    rewrite F, fl_pos_quarter by lra. field.
  - rewrite !Qred_correct. apply fl_pos_quarter. exact E.
Qed.

(** The float constants the code relies on are floats. *)
Lemma fl_0 : fl 0 == 0.
Proof. reflexivity. Qed.

Lemma fl_1 : fl 1 == 1.
Proof. vm_compute. reflexivity. Qed.

Lemma fl_25 : fl 25 == 25.
Proof. vm_compute. reflexivity. Qed.

Lemma fl_100 : fl 100 == 100.
Proof. vm_compute. reflexivity. Qed.

(** Rounding to a float moves a value by at most one part in [2 ^ 53]. *)
Lemma fl_pos_error (x : Q) :
  0 < x ->
  x - x * (1 # 9007199254740992) <= fl_pos x
  /\ fl_pos x <= x + x * (1 # 9007199254740992).
Proof.
  intros Hx. unfold fl_pos.
  destruct (scaled_bounds Hx) as [L _].
  pose proof (pow2_pos (ilog2 x - 52)) as P.
  set (t := 2 ^ (ilog2 x - 52)) in *.
  destruct (round_half_even_near (x / t)) as [N1 N2].
  set (m := inject_Z (round_half_even (x / t))) in *.
  assert (Y : x / t * t == x) by (field; lra).
  assert (M1 : (m - (1 # 2)) * t <= x / t * t)
    by (apply Qmult_le_compat_r; lra).
  assert (M2 : x / t * t <= (m + (1 # 2)) * t)
    by (apply Qmult_le_compat_r; lra).
  assert (M3 : 2 ^ 52 * t <= x / t * t)
    by (apply Qmult_le_compat_r; lra).
  rewrite Y in M1, M2, M3.
  change (2 ^ 52) with (4503599627370496 # 1) in M3.
  assert (E1 : (m - (1 # 2)) * t == m * t - (1 # 2) * t) by ring.
  assert (E2 : (m + (1 # 2)) * t == m * t + (1 # 2) * t) by ring.
  rewrite E1 in M1. rewrite E2 in M2.
  split; lra.
Qed.

Lemma fl_error (x : Q) :
  0 <= x ->
  x - x * (1 # 9007199254740992) <= fl x
  /\ fl x <= x + x * (1 # 9007199254740992).
Proof.
  intros Hx. unfold fl.
  destruct (Qcompare_spec x 0) as [C|C|C].
  - rewrite C. split; lra.
  - lra.
  - rewrite Qred_correct. apply fl_pos_error. exact C.
Qed.

End Floats.

(* ================================================================== *)
(** * Percentages and the progress bar *)
(* ================================================================== *)

Section Percentages.

Open Scope Q_scope.

Lemma Qfloor_unique (x : Q) (n : Z) :
  inject_Z n <= x -> x < inject_Z n + 1 -> Qfloor x = n.
Proof.
  intros L U.
  pose proof (Qfloor_resp_le _ _ L) as H1. rewrite Qfloor_Z in H1.
  destruct (floor_bounds x) as [Lf _].
  assert (H2 : inject_Z (Qfloor x) < inject_Z (n + 1)).
  { rewrite inject_Z_plus. change (inject_Z 1) with 1. lra. }
  rewrite <- Zlt_Qlt in H2. lia.
Qed.

(** Half way between two integers the even one is chosen. *)
Lemma round_half_even_even (x : Q) :
  x - inject_Z (round_half_even x) == 1 # 2
  \/ inject_Z (round_half_even x) - x == 1 # 2 ->
  Z.even (round_half_even x) = true.
Proof.
  intros [H|H]; apply round_half_even_tie.
  - rewrite (Qfloor_unique (n := round_half_even x)); [exact H|lra|lra].
  - rewrite (Qfloor_unique (n := round_half_even x - 1)).
    + unfold Z.sub. rewrite inject_Z_plus.
      change (inject_Z (- (1))) with (- (1))%Q. lra.
    + unfold Z.sub. rewrite inject_Z_plus.
      change (inject_Z (- (1))) with (- (1))%Q. lra.
    + unfold Z.sub. rewrite inject_Z_plus.
      change (inject_Z (- (1))) with (- (1))%Q. lra.
Qed.

Lemma round_between (lo hi : Z) (x : Q) :
  inject_Z lo <= x <= inject_Z hi ->
  (lo <= round_half_even x <= hi)%Z.
Proof.
  intros [L U]. split.
  - rewrite <- (round_half_even_Z lo). apply round_half_even_mono. exact L.
  - rewrite <- (round_half_even_Z hi). apply round_half_even_mono. exact U.
Qed.

Lemma round2_between (x : Q) : 0 <= x <= 100 -> 0 <= round2 x <= 100.
Proof.
  intros [L U]. unfold round2.
  assert (H : (0 <= round_half_even (x * 100) <= 10000)%Z).
  { apply round_between. change (inject_Z 0) with 0.
    change (inject_Z 10000) with 10000. lra. }
  destruct H as [H0 H1].
  rewrite Zle_Qle in H0, H1.
  change (inject_Z 0) with 0 in H0. change (inject_Z 10000) with 10000 in H1.
  apply fl_between; [apply fl_0|apply fl_100|].
  set (r := inject_Z (round_half_even (x * 100))) in *.
  assert (D : r / 100 == r * (1 # 100)) by reflexivity.
  rewrite D. lra.
Qed.

Lemma share_between (count total : Z) :
  (0 < total)%Z -> (0 <= count <= total)%Z ->
  0 <= inject_Z count / inject_Z total <= 1.
Proof.
  intros Ht [L U].
  pose proof (inject_Z_pos Ht) as P.
  rewrite Zle_Qle in L, U. change (inject_Z 0) with 0 in L.
  split.
  - apply Qle_shift_div_l; [exact P|lra].
  - apply Qle_shift_div_r; [exact P|lra].
Qed.

(** The expression [round(count / total * 100, 2)] of the two reports. *)
Lemma percent_between (count total : Z) :
  (0 < total)%Z -> (0 <= count <= total)%Z ->
  exists share : float,
    int_truediv count total = Ok share
    /\ 0 <= share <= 1
    /\ 0 <= round2 (float_mul share 100) <= 100.
Proof.
  intros Ht Hc. unfold int_truediv.
  destruct (Z.eqb_spec total 0) as [E|_]; [lia|].
  eexists. split; [reflexivity|].
  assert (S : 0 <= fl (inject_Z count / inject_Z total) <= 1).
  { apply fl_between; [apply fl_0|apply fl_1|].
    apply share_between; assumption. }
  split; [exact S|].
  apply round2_between. unfold float_mul.
  apply fl_between; [apply fl_0|apply fl_100|]. lra.
Qed.

Lemma percents_of_between (total : Z) (counts : list Z) :
  (0 < total)%Z ->
  Forall (fun c => (0 <= c <= total)%Z) counts ->
  exists ps : list float,
    Formatter.percents_of counts total = Ok ps
    /\ length ps = length counts
    /\ Forall (fun p => 0 <= p <= 100) ps.
Proof.
  intros Ht H. induction H as [|c counts Hc _ IH].
  - exists []. repeat split. constructor.
  - destruct IH as (ps & E & Hl & Hp).
    destruct (percent_between Ht Hc) as (share & Es & _ & Hr).
    exists (round2 (float_mul share 100) :: ps).
    unfold Formatter.percents_of in *. simpl. rewrite Es. simpl.
    rewrite E. simpl. repeat split; [congruence|].
    constructor; assumption.
Qed.

(** Rounding to two decimals moves a percent by half a hundredth, and by
    the rounding to a float on top of it. *)
Lemma round2_error (x : Q) :
  0 <= x <= 100 ->
  Qabs (round2 x - x) <= (1 # 200) + (1 # 10000000000000).
Proof.
  intros [L U]. unfold round2.
  destruct (round_half_even_near (x * 100)) as [N1 N2].
  assert (H : (0 <= round_half_even (x * 100) <= 10000)%Z).
  { apply round_between. change (inject_Z 0) with 0.
    change (inject_Z 10000) with 10000. lra. }
  destruct H as [H0 H1]. rewrite Zle_Qle in H0, H1.
  change (inject_Z 0) with 0 in H0. change (inject_Z 10000) with 10000 in H1.
  set (r := inject_Z (round_half_even (x * 100))) in *.
  assert (D : r / 100 == r * (1 # 100)) by reflexivity.
  destruct (@fl_error (r / 100)) as [F1 F2]; [rewrite D; lra|].
  set (z := r / 100) in *. set (p := fl z) in *.
  apply Qabs_Qle_condition. split; lra.
Qed.

(** The percent of the reports is within half a hundredth, and the
    rounding of the floats, of the exact percent. *)
Lemma percent_error (count total : Z) :
  (0 < total)%Z -> (0 <= count <= total)%Z ->
  Qabs (round2 (float_mul (fl (inject_Z count / inject_Z total)) 100)
        - 100 * (inject_Z count / inject_Z total))
  <= (1 # 200) + (1 # 1000000000000).
Proof.
  intros Ht Hc.
  pose proof (share_between Ht Hc) as [Q0 Q1].
  set (q := inject_Z count / inject_Z total) in *.
  destruct (@fl_error q Q0) as [S1 S2].
  assert (S : 0 <= fl q <= 1).
  { apply fl_between; [apply fl_0|apply fl_1|]. split; assumption. }
  unfold float_mul.
  destruct (@fl_error (fl q * 100)) as [M1 M2]; [lra|].
  assert (M : 0 <= fl (fl q * 100) <= 100).
  { apply fl_between; [apply fl_0|apply fl_100|]. lra. }
  pose proof (round2_error M) as R.
  set (m := fl (fl q * 100)) in *. set (s := fl q) in *.
  set (p := round2 m) in *.
  apply Qabs_Qle_condition in R. apply Qabs_Qle_condition.
  split; lra.
Qed.

Lemma percents_of_formula (total : Z) (counts : list Z) :
  (0 < total)%Z ->
  Forall (fun c => (0 <= c <= total)%Z) counts ->
  exists ps : list float,
    Formatter.percents_of counts total = Ok ps
    /\ Forall2 (fun c p =>
                  exists share : float,
                    int_truediv c total = Ok share
                    /\ p = round2 (float_mul share 100)
                    /\ Qabs (p - 100 * (inject_Z c / inject_Z total))
                       <= (1 # 200) + (1 # 1000000000000))
               counts ps.
Proof.
  intros Ht H. induction H as [|c counts Hc _ IH].
  - exists []. split; [reflexivity|constructor].
  - destruct IH as (ps & E & F).
    assert (Es : int_truediv c total
                 = Ok (fl (inject_Z c / inject_Z total))).
    { unfold int_truediv.
      destruct (Z.eqb_spec total 0) as [E0|_]; [lia|reflexivity]. }
    exists (round2 (float_mul (fl (inject_Z c / inject_Z total)) 100) :: ps).
    split.
    + unfold Formatter.percents_of in *. cbn [mapM]. rewrite Es.
      cbn [bind]. rewrite E. reflexivity.
    + constructor; [|exact F].
      eexists. split; [exact Es|]. split; [reflexivity|].
      apply percent_error; assumption.
Qed.

(** C8. The percentage of the reports is [round(count / total * 100, 2)]
    with the float arithmetic of the language: the quotient of the two
    integers, its product with 100 and the rounding to two decimals.
    Whenever [0 <= count <= total] and [total > 0] it lies between 0 and
    100 and within half a hundredth (and the rounding of the floats, less
    than [10 ^ -12]) of the exact percent; the comprehensions build the
    list of these values, one for each count and in their order. *)
Theorem percent_in_range (count total : Z) :
  (0 < total)%Z -> (0 <= count <= total)%Z ->
  (exists share : float,
     int_truediv count total = Ok share
     /\ 0 <= round2 (float_mul share 100) <= 100
     /\ Qabs (round2 (float_mul share 100)
              - 100 * (inject_Z count / inject_Z total))
        <= (1 # 200) + (1 # 1000000000000))
  /\ (forall counts : list Z,
        Forall (fun c => (0 <= c <= total)%Z) counts ->
        exists ps : list float,
          Formatter.percents_of counts total = Ok ps
          /\ Forall2 (fun c p =>
                        exists share : float,
                          int_truediv c total = Ok share
                          /\ p = round2 (float_mul share 100)
                          /\ Qabs (p - 100 * (inject_Z c / inject_Z total))
                             <= (1 # 200) + (1 # 1000000000000))
                     counts ps
          /\ length ps = length counts
          /\ Forall (fun p => 0 <= p <= 100) ps).
Proof.
  intros Ht Hc. split.
  - destruct (percent_between Ht Hc) as (share & E & _ & H).
    exists share. split; [exact E|]. split; [exact H|].
    unfold int_truediv in E.
    destruct (Z.eqb_spec total 0) as [E0|_]; [lia|].
    injection E as <-. apply percent_error; assumption.
  - intros counts H.
    destruct (percents_of_between Ht H) as (ps & E & L & B).
    destruct (percents_of_formula Ht H) as (ps' & E' & F).
    rewrite E in E'. injection E' as <-.
    exists ps. repeat split; assumption.
Qed.

Lemma percent_in_range_witness :
  ((0 < 3)%Z /\ (0 <= 1 <= 3)%Z)
  /\ exists share : float,
       int_truediv 1 3 = Ok share
       /\ 0 <= round2 (float_mul share 100) <= 100
       /\ Qabs (round2 (float_mul share 100)
                - 100 * (inject_Z 1 / inject_Z 3))
          <= (1 # 200) + (1 # 1000000000000).
Proof.
  split; [lia|]. apply (percent_in_range (count := 1) (total := 3)); lia.
Defined.

End Percentages.

Section ProgressBar.

Import Formatter.

Lemma str_mul_single (c : Z) (n : Z) :
  str_mul [c] n = repeat c (Z.to_nat n).
Proof.
  unfold str_mul. induction (Z.to_nat n) as [|k IH]; simpl; congruence.
Qed.

Lemma count_occ_repeat_same (c : Z) (n : nat) :
  count_occ Z.eq_dec (repeat c n) c = n.
Proof.
  induction n as [|n IH]; simpl; [reflexivity|].
  destruct (Z.eq_dec c c); congruence.
Qed.

Lemma count_occ_repeat_other (c d : Z) (n : nat) :
  c <> d -> count_occ Z.eq_dec (repeat c n) d = O.
Proof.
  intros N. induction n as [|n IH]; simpl; [reflexivity|].
  destruct (Z.eq_dec c d); congruence.
Qed.

Lemma get_symbols_valid (v : Z) :
  valid_version v ->
  exists filled empty : Z,
    get_symbols v = Ok ([filled], [empty]) /\ filled <> empty.
Proof.
  intros [E|[E|E]]; subst v; do 2 eexists; (split; [reflexivity|discriminate]).
Qed.

Lemma quarter_between (p : Q) :
  (0 <= p <= 100)%Q ->
  exists quarter : float,
    float_div p 4 = Ok quarter
    /\ (fl p == p -> quarter == p / 4)%Q
    /\ (0 <= round quarter <= 25)%Z.
Proof.
  intros [L U]. exists (fl (p / 4)). split; [reflexivity|]. split.
  - intros F. rewrite fl_quarter, F. reflexivity.
  - apply round_between. change (inject_Z 0) with 0%Q.
    change (inject_Z 25) with 25%Q.
    apply fl_between; [apply fl_0|apply fl_25|].
    assert (D : (p / 4 == p * (1 # 4))%Q) by reflexivity.
    rewrite D. lra.
Qed.

Lemma bar_shape (filled empty : Z) (k : Z) :
  filled <> empty -> (0 <= k <= 25)%Z ->
  let bar := repeat filled (Z.to_nat k) ++ repeat empty (Z.to_nat (25 - k)) in
  length bar = 25%nat
  /\ count_occ Z.eq_dec bar filled = Z.to_nat k
  /\ count_occ Z.eq_dec bar empty = Z.to_nat (25 - k).
Proof.
  intros N Hk bar. subst bar.
  rewrite !count_occ_app, length_app, !repeat_length.
  rewrite !count_occ_repeat_same.
  rewrite (count_occ_repeat_other _ (not_eq_sym N)).
  rewrite (count_occ_repeat_other _ N).
  repeat split; lia.
Qed.

(** C4. For a percent between 0 and 100 the progress bar has exactly 25
    cells: [round(percent / 4)] filled glyphs, rounded half to even,
    followed by empty glyphs; 100 gives 25 filled and 0 gives 25 empty
    glyphs.  The quotient is exact when [percent] is a float. *)
Theorem make_graph_cells (EM : EnvironmentManager) :
  valid_version (SYMBOL_VERSION EM) ->
  exists filled empty : Z,
    get_symbols (SYMBOL_VERSION EM) = Ok ([filled], [empty])
    /\ filled <> empty
    /\ make_graph EM 100 = Ok (repeat filled 25)
    /\ make_graph EM 0 = Ok (repeat empty 25)
    /\ forall p : float, (0 <= p <= 100)%Q ->
       exists (quarter : float) (bar : str),
         float_div p 4 = Ok quarter
         /\ (fl p == p -> quarter == p / 4)%Q
         /\ (inject_Z (round quarter) - (1 # 2) <= quarter
             /\ quarter <= inject_Z (round quarter) + (1 # 2))%Q
         /\ ((quarter - inject_Z (round quarter) == 1 # 2
              \/ inject_Z (round quarter) - quarter == 1 # 2)%Q ->
             Z.even (round quarter) = true)
         /\ (0 <= round quarter <= 25)%Z
         /\ make_graph EM p = Ok bar
         /\ bar = repeat filled (Z.to_nat (round quarter))
                  ++ repeat empty (Z.to_nat (25 - round quarter))
         /\ length bar = 25%nat
         /\ count_occ Z.eq_dec bar filled = Z.to_nat (round quarter)
         /\ count_occ Z.eq_dec bar empty = Z.to_nat (25 - round quarter).
Proof.
  intros Hv.
  destruct (get_symbols_valid Hv) as (filled & empty & G & N).
  exists filled, empty.
  assert (Hbar : forall p quarter,
             float_div p 4 = Ok quarter ->
             make_graph EM p
             = Ok (repeat filled (Z.to_nat (round quarter))
                   ++ repeat empty (Z.to_nat (25 - round quarter)))).
  { intros p quarter E. unfold make_graph. rewrite G. cbn [bind]. rewrite E.
    cbn [bind]. rewrite !str_mul_single. reflexivity. }
  split; [exact G|]. split; [exact N|]. split; [|split].
  - rewrite (Hbar 100%Q (fl (100 / 4))) by reflexivity.
    vm_compute. reflexivity.
  - rewrite (Hbar 0%Q (fl (0 / 4))) by reflexivity.
    vm_compute. reflexivity.
  - intros p Hp.
    destruct (quarter_between Hp) as (quarter & E & Ex & Hk).
    exists quarter. eexists.
    split; [exact E|]. split; [exact Ex|].
    split; [apply round_half_even_near|].
    split; [apply round_half_even_even|].
    split; [exact Hk|].
    split; [apply Hbar; exact E|].
    split; [reflexivity|].
    apply bar_shape; assumption.
Qed.

Lemma make_graph_cells_witness :
  valid_version 1
  /\ exists bar : str,
       make_graph (Build_EnvironmentManager 1 true (lit "waka")) (50 # 1)
       = Ok bar
       /\ length bar = 25%nat
       /\ count_occ Z.eq_dec bar 9608%Z = 12%nat.
Proof.
  split; [left; reflexivity|].
  destruct (@make_graph_cells (Build_EnvironmentManager 1 true (lit "waka")))
    as (filled & empty & G & _ & _ & _ & H); [left; reflexivity|].
  destruct (H (50 # 1))
    as (quarter & bar & E & _ & _ & _ & _ & M & _ & L & C & _).
  { split; discriminate. }
  exists bar. split; [exact M|]. split; [exact L|].
  injection G as -> _. injection E as <-. exact C.
Defined.

End ProgressBar.

(* ================================================================== *)
(** * The table of [make_list] *)
(* ================================================================== *)

Section Strings.

Lemma str_eqb_refl (k : str) : str_eqb k k = true.
Proof. unfold str_eqb. destruct (str_eq_dec k k); congruence. Qed.

Lemma str_eqb_neq (k k' : str) : k <> k' -> str_eqb k k' = false.
Proof. intros N. unfold str_eqb. destruct (str_eq_dec k k'); congruence. Qed.

End Strings.

Section Table.

Import Formatter.

Lemma mapM_Forall2 {A B} (f : A -> result B) (l : list A) (ys : list B) :
  mapM f l = Ok ys <-> Forall2 (fun x y => f x = Ok y) l ys.
Proof.
  revert ys. induction l as [|x l IH]; intros ys; simpl.
  - split; intros H.
    + injection H as <-. constructor.
    + inversion H. reflexivity.
  - split; intros H.
    + destruct (f x) as [y|e] eqn:E; simpl in H; [|discriminate].
      destruct (mapM f l) as [ys'|e] eqn:E'; simpl in H; [|discriminate].
      injection H as <-. constructor; [exact E|]. apply IH. reflexivity.
    + inversion H as [|x' y l' ys' Hx Hl]; subst.
      rewrite Hx. simpl. apply IH in Hl. rewrite Hl. reflexivity.
Qed.

Lemma mapM_total {A B} (f : A -> result B) (l : list A) :
  (forall x, In x l -> exists y, f x = Ok y) ->
  exists ys, mapM f l = Ok ys.
Proof.
  induction l as [|x l IH]; intros H; simpl.
  - exists []. reflexivity.
  - destruct (H x (or_introl eq_refl)) as (y & E).
    destruct IH as (ys & E'); [intros z Hz; apply H; right; exact Hz|].
    exists (y :: ys). rewrite E, E'. reflexivity.
Qed.

(** With a version the enumeration knows, the bar of any percent is
    rendered: the model puts no limit on the length of a string. *)
Lemma make_graph_total (EM : EnvironmentManager) (p : float) :
  valid_version (SYMBOL_VERSION EM) -> exists graph, make_graph EM p = Ok graph.
Proof.
  intros Hv. destruct (get_symbols_valid Hv) as (filled & empty & G & _).
  unfold make_graph. rewrite G. cbn [bind]. eexists. reflexivity.
Qed.

Lemma row_total (EM : EnvironmentManager) (r : str * str * float) :
  valid_version (SYMBOL_VERSION EM) -> exists line, row EM r = Ok line.
Proof.
  intros Hv. destruct r as [[n t] p].
  destruct (@make_graph_total EM p Hv) as (graph & G).
  unfold row. rewrite G. cbn [bind]. eexists. reflexivity.
Qed.

Lemma rows_total (EM : EnvironmentManager) (l : list (str * str * float)) :
  valid_version (SYMBOL_VERSION EM) ->
  exists rows, mapM (row EM) l = Ok rows
               /\ Forall2 (fun r line => row EM r = Ok line) l rows.
Proof.
  intros Hv.
  destruct (mapM_total (row EM) l) as (rows & E).
  { intros r _. apply row_total. exact Hv. }
  exists rows. split; [exact E|]. apply mapM_Forall2. exact E.
Qed.

(** ** Sorting *)

Lemma insert_desc_perm {A} (key : A -> float) (x : A) (l : list A) :
  Permutation (insert_desc key x l) (x :: l).
Proof.
  induction l as [|y l IH]; simpl; [reflexivity|].
  destruct (Qcompare (key x) (key y)); try reflexivity.
  rewrite IH. apply perm_swap.
Qed.

Lemma sorted_reverse_perm {A} (key : A -> float) (l : list A) :
  Permutation (sorted_reverse key l) l.
Proof.
  induction l as [|x l IH]; simpl; [reflexivity|].
  rewrite insert_desc_perm. constructor. exact IH.
Qed.

Lemma insert_desc_sorted {A} (key : A -> float) (x : A) (l : list A) :
  StronglySorted (fun a b => (key b <= key a)%Q) l ->
  StronglySorted (fun a b => (key b <= key a)%Q) (insert_desc key x l).
Proof.
  induction 1 as [|y l Hs IH Hy]; simpl.
  - constructor; constructor.
  - destruct (Qcompare_spec (key x) (key y)) as [E|E|E].
    + constructor; [constructor; assumption|].
      constructor; [rewrite E; apply Qle_refl|].
      eapply Forall_impl; [|exact Hy]. intros z Hz. simpl in Hz.
      rewrite E. exact Hz.
    + constructor; [exact IH|].
      apply (Permutation_Forall (Permutation_sym (insert_desc_perm key x l))).
      constructor; [apply Qlt_le_weak; exact E|exact Hy].
    + constructor; [constructor; assumption|].
      constructor; [apply Qlt_le_weak; exact E|].
      eapply Forall_impl; [|exact Hy]. intros z Hz. simpl in Hz.
      apply Qle_trans with (key y); [exact Hz|apply Qlt_le_weak; exact E].
Qed.

Lemma sorted_reverse_sorted {A} (key : A -> float) (l : list A) :
  StronglySorted (fun a b => (key b <= key a)%Q) (sorted_reverse key l).
Proof.
  induction l as [|x l IH]; simpl; [constructor|].
  apply insert_desc_sorted. exact IH.
Qed.

(** ** The window *)

Lemma slice_to_window {A} (l : list A) (n : Z) :
  (0 <= n)%Z -> slice_to l n = window l n.
Proof.
  intros Hn. unfold slice_to, window.
  destruct (Z.leb_spec 0 n) as [_|C]; [|lia].
  destruct (Nat.le_ge_cases (length l) (Z.to_nat n)) as [H|H].
  - rewrite Nat.min_l by exact H.
    rewrite !firstn_all2; [reflexivity|lia|exact H].
  - rewrite Nat.min_r by exact H. reflexivity.
Qed.

Lemma window_length {A} (l : list A) (n : Z) :
  length (window l n) = Nat.min (length l) (Z.to_nat n).
Proof. unfold window. rewrite length_firstn. lia. Qed.

Lemma top_data_perm (entries : list (str * str * float)) (top_num : Z)
  (sort : bool) :
  Permutation (top_data entries top_num sort) (slice_to entries top_num).
Proof.
  unfold top_data. destruct sort; [apply sorted_reverse_perm|reflexivity].
Qed.

Lemma firstn_incl {A} (n : nat) (l : list A) (x : A) :
  In x (firstn n l) -> In x l.
Proof.
  intros H. rewrite <- (firstn_skipn n l). apply in_or_app. left. exact H.
Qed.

Lemma slice_to_incl {A} (l : list A) (n : Z) (x : A) :
  In x (slice_to l n) -> In x l.
Proof.
  unfold slice_to. destruct (0 <=? n)%Z; intros H; eapply firstn_incl; exact H.
Qed.

Lemma top_data_incl (entries : list (str * str * float)) (top_num : Z)
  (sort : bool) (r : str * str * float) :
  In r (top_data entries top_num sort) -> In r entries.
Proof.
  intros H. apply (Permutation_in _ (top_data_perm entries top_num sort)) in H.
  eapply slice_to_incl. exact H.
Qed.

Lemma zip3_length {A B C} (a : list A) (b : list B) (c : list C) :
  length (zip3 a b c)
  = Nat.min (length a) (Nat.min (length b) (length c)).
Proof.
  revert b c. induction a as [|x a IH]; intros [|y b] [|z c]; simpl;
    try reflexivity.
  rewrite IH. reflexivity.
Qed.

Lemma zip3_In {A B C} (a : list A) (b : list B) (c : list C) x y z :
  In (x, y, z) (zip3 a b c) -> In x a /\ In y b /\ In z c.
Proof.
  revert b c. induction a as [|x' a IH]; intros [|y' b] [|z' c]; simpl;
    try tauto.
  intros [E|H].
  - injection E as -> -> ->. tauto.
  - apply IH in H. tauto.
Qed.

Lemma zip3_firstn {A B C} (a : list A) (b : list B) (c : list C) (m : nat) :
  zip3 (firstn m a) (firstn m b) (firstn m c) = firstn m (zip3 a b c).
Proof.
  revert a b c. induction m as [|m IH]; intros a b c; [reflexivity|].
  destruct a as [|x a]; [reflexivity|].
  destruct b as [|y b]; [reflexivity|].
  destruct c as [|z c]; [reflexivity|].
  simpl. rewrite IH. reflexivity.
Qed.

End Table.

Section Widths.

Import Formatter.

Lemma str_mul_space_length (k : Z) :
  length (str_mul (lit " ") k) = Z.to_nat k.
Proof.
  change (lit " ") with [32%Z]. rewrite str_mul_single. apply repeat_length.
Qed.

(** The name column: cut to 25 characters, padded to 25. *)
Lemma name_column_width (n : str) :
  length (slice_to n 25 ++ str_mul (lit " ") (25 - len n)) = 25%nat.
Proof.
  change (slice_to n 25) with (firstn 25 n).
  rewrite length_app, str_mul_space_length, length_firstn.
  unfold len. lia.
Qed.

(** The text column: padded to 20 characters, never cut. *)
Lemma text_column_width (t : str) :
  length (t ++ str_mul (lit " ") (20 - len t)) = Nat.max 20 (length t).
Proof.
  rewrite length_app, str_mul_space_length. unfold len. lia.
Qed.

Lemma zfill_length (s : str) (w : nat) :
  length (zfill s w) = Nat.max w (length s).
Proof.
  unfold zfill. rewrite length_app, repeat_length. lia.
Qed.

Lemma below_100_check (P : Z -> bool) :
  forallb P (map Z.of_nat (seq 0 100)) = true ->
  forall q : Z, (0 <= q < 100)%Z -> P q = true.
Proof.
  intros H q Hq. rewrite forallb_forall in H. apply H.
  apply in_map_iff. exists (Z.to_nat q). split; [lia|].
  apply in_seq. lia.
Qed.

Lemma two_decimals_width (q m : Z) :
  (0 <= q < 100)%Z -> (0 <= m < 100)%Z ->
  length (zfill (str_of_int q ++ [46%Z] ++ two_digits m) 5) = 5%nat.
Proof.
  intros Hq Hm.
  assert (Lq : (length (str_of_int q) <=? 2)%nat = true).
  { apply (below_100_check (fun q => (length (str_of_int q) <=? 2)%nat));
      [vm_compute; reflexivity|exact Hq]. }
  assert (Lm : (length (two_digits m) =? 2)%nat = true).
  { apply (below_100_check (fun m => (length (two_digits m) =? 2)%nat));
      [vm_compute; reflexivity|exact Hm]. }
  apply Nat.leb_le in Lq. apply Nat.eqb_eq in Lm.
  rewrite zfill_length, !length_app, Lm. simpl length. lia.
Qed.

Lemma hundredths_small (p : Q) :
  (0 <= p)%Q -> (p < 99995 # 1000)%Q ->
  (0 <= round_half_even (p * 100) <= 9999)%Z.
Proof.
  intros L U.
  destruct (round_half_even_near (p * 100)) as [N1 N2].
  split.
  - apply (@round_between 0 10000). change (inject_Z 0) with 0%Q.
    change (inject_Z 10000) with 10000%Q. lra.
  - assert (H : (inject_Z (round_half_even (p * 100)) < inject_Z 10000)%Q).
    { change (inject_Z 10000) with 10000%Q. lra. }
    rewrite <- Zlt_Qlt in H. lia.
Qed.

Lemma hundredths_full (p : Q) :
  (99995 # 1000 <= p)%Q -> (p <= 100)%Q ->
  round_half_even (p * 100) = 10000%Z.
Proof.
  intros L U.
  destruct (round_half_even_near (p * 100)) as [N1 N2].
  assert (B : (9999 <= round_half_even (p * 100) <= 10000)%Z).
  { split.
    - assert (H : (inject_Z 9998 < inject_Z (round_half_even (p * 100)))%Q).
      { change (inject_Z 9998) with 9998%Q. lra. }
      rewrite <- Zlt_Qlt in H. lia.
    - apply (@round_between 0 10000). change (inject_Z 0) with 0%Q.
      change (inject_Z 10000) with 10000%Q. lra. }
  destruct (Z.eq_dec (round_half_even (p * 100)) 9999) as [E|N]; [|lia].
  exfalso.
  assert (Ev : Z.even (round_half_even (p * 100)) = true).
  { apply round_half_even_even. left. rewrite E in *.
    change (inject_Z 9999) with 9999%Q in *. lra. }
  rewrite E in Ev. discriminate.
Qed.

(** The percent column: five characters below [99.995], six from there
    up to 100. *)
Lemma format_width (p : float) :
  (0 <= p <= 100)%Q -> length (format_05_2f p) = percent_width p.
Proof.
  intros [L U]. unfold format_05_2f, percent_width.
  assert (C : match Qcompare p 0 with
              | Lt => False
              | _ => True
              end).
  { destruct (Qcompare_spec p 0); try exact I. lra. }
  destruct (Qle_bool (99995 # 1000) p) eqn:T.
  - apply Qle_bool_iff in T. rewrite (hundredths_full T U).
    destruct (Qcompare p 0); [reflexivity|contradiction|reflexivity].
  - assert (T' : (p < 99995 # 1000)%Q).
    { apply Qnot_le_lt. intros H. apply Qle_bool_iff in H. congruence. }
    destruct (hundredths_small L T') as [R0 R1].
    set (r := round_half_even (p * 100)) in *.
    rewrite (Z.abs_eq r) by exact R0.
    assert (Hq : (0 <= r / 100 < 100)%Z).
    { split; [apply Z.div_pos; lia|apply Z.div_lt_upper_bound; lia]. }
    assert (Hm : (0 <= r mod 100 < 100)%Z) by (apply Z.mod_pos_bound; lia).
    destruct (Qcompare p 0); [|contradiction|];
      apply two_decimals_width; assumption.
Qed.

Lemma percent_width_cases (p : float) :
  percent_width p = 5%nat \/ percent_width p = 6%nat.
Proof. unfold percent_width. destruct (Qle_bool _ _); auto. Qed.

(** A row, column by column. *)
Lemma row_width (EM : EnvironmentManager) (n t : str) (p : float) :
  valid_version (SYMBOL_VERSION EM) -> (0 <= p <= 100)%Q ->
  exists graph : str,
    make_graph EM p = Ok graph
    /\ length graph = 25%nat
    /\ row EM (n, t, p)
       = Ok (slice_to n 25 ++ str_mul (lit " ") (25 - len n)
             ++ t ++ str_mul (lit " ") (20 - len t)
             ++ graph ++ lit "   " ++ format_05_2f p ++ lit " % ")
    /\ forall line, row EM (n, t, p) = Ok line ->
       length line = (25 + Nat.max 20 (length t) + 25 + 3
                      + percent_width p + 3)%nat.
Proof.
  intros Hv Hp.
  destruct (@make_graph_total EM p Hv) as (graph & G).
  assert (Lg : length graph = 25%nat).
  { destruct (get_symbols_valid Hv) as (filled & empty & S & N).
    destruct (quarter_between Hp) as (quarter & E & _ & Hk).
    unfold make_graph in G. rewrite S in G. cbn [bind] in G.
    rewrite E in G. cbn [bind] in G. rewrite !str_mul_single in G.
    injection G as <-. apply (bar_shape N Hk). }
  exists graph. split; [exact G|]. split; [exact Lg|].
  assert (R : row EM (n, t, p)
              = Ok (slice_to n 25 ++ str_mul (lit " ") (25 - len n)
                    ++ t ++ str_mul (lit " ") (20 - len t)
                    ++ graph ++ lit "   " ++ format_05_2f p ++ lit " % ")).
  { unfold row. rewrite G. reflexivity. }
  split; [exact R|].
  intros line E. rewrite R in E. injection E as <-.
  rewrite app_assoc, length_app, name_column_width.
  rewrite app_assoc, length_app, text_column_width.
  rewrite !length_app, Lg. simpl length.
  rewrite length_app, (format_width Hp). simpl length. lia.
Qed.

End Widths.

Section TableClaims.

Import Formatter.

Lemma data_list_parallel (EM : EnvironmentManager)
  (data : option (list Measure)) (ns ts : list str) (ps : list float)
  (top_num : Z) (sort : bool) :
  data_list EM data (Some ns) (Some ts) (Some ps) top_num sort
  = mapM (row EM) (top_data (zip3 ns ts ps) top_num sort).
Proof. unfold data_list. destruct data; reflexivity. Qed.

Lemma make_list_rows (EM : EnvironmentManager)
  (data : option (list Measure)) (names texts : option (list str))
  (percents : option (list float)) (top_num : Z) (sort : bool)
  (rows : list str) :
  data_list EM data names texts percents top_num sort = Ok rows ->
  make_list EM data names texts percents top_num sort
  = Ok (join [10%Z] rows).
Proof. intros E. unfold make_list. rewrite E. reflexivity. Qed.

(** C3, as the code has it.  With texts of at most 20 characters and
    percents between 0 and 100, every row is the name cut and padded to 25
    characters, the text padded to 20, the bar of 25 cells, three spaces,
    the percent as [%05.2f] and the suffix [" % "]: 81 characters when the
    percent is below 99.995 (five characters), 82 from there on (six). *)
Theorem make_list_row_width (EM : EnvironmentManager)
  (data : option (list Measure)) (ns ts : list str) (ps : list float)
  (top_num : Z) (sort : bool) :
  valid_version (SYMBOL_VERSION EM) ->
  Forall (fun t => (length t <= 20)%nat) ts ->
  Forall (fun p => (0 <= p <= 100)%Q) ps ->
  exists rows : list str,
    data_list EM data (Some ns) (Some ts) (Some ps) top_num sort = Ok rows
    /\ make_list EM data (Some ns) (Some ts) (Some ps) top_num sort
       = Ok (join [10%Z] rows)
    /\ Forall2
         (fun r line =>
            let '(n, t, p) := r in
            exists graph : str,
              make_graph EM p = Ok graph
              /\ length graph = 25%nat
              /\ line = (slice_to n 25 ++ str_mul (lit " ") (25 - len n))
                        ++ (t ++ str_mul (lit " ") (20 - len t))
                        ++ graph ++ lit "   " ++ format_05_2f p ++ lit " % "
              /\ length (slice_to n 25 ++ str_mul (lit " ") (25 - len n))
                 = 25%nat
              /\ length (t ++ str_mul (lit " ") (20 - len t)) = 20%nat
              /\ length (format_05_2f p) = percent_width p
              /\ length line = (76 + percent_width p)%nat)
         (top_data (zip3 ns ts ps) top_num sort) rows
    /\ Forall (fun line => length line = 81%nat \/ length line = 82%nat) rows.
Proof.
  intros Hv Ht Hp.
  destruct (@rows_total EM (top_data (zip3 ns ts ps) top_num sort) Hv)
    as (rows & E & F).
  exists rows. rewrite data_list_parallel.
  split; [exact E|].
  split; [apply make_list_rows; rewrite data_list_parallel; exact E|].
  assert (Hin : forall n t p,
             In (n, t, p) (top_data (zip3 ns ts ps) top_num sort) ->
             (length t <= 20)%nat /\ (0 <= p <= 100)%Q).
  { intros n t p H. apply top_data_incl in H. apply zip3_In in H.
    destruct H as (_ & H1 & H2).
    rewrite Forall_forall in Ht, Hp. split; [apply Ht|apply Hp]; assumption. }
  assert (F' : Forall2
         (fun r line =>
            let '(n, t, p) := r in
            exists graph : str,
              make_graph EM p = Ok graph
              /\ length graph = 25%nat
              /\ line = (slice_to n 25 ++ str_mul (lit " ") (25 - len n))
                        ++ (t ++ str_mul (lit " ") (20 - len t))
                        ++ graph ++ lit "   " ++ format_05_2f p ++ lit " % "
              /\ length (slice_to n 25 ++ str_mul (lit " ") (25 - len n))
                 = 25%nat
              /\ length (t ++ str_mul (lit " ") (20 - len t)) = 20%nat
              /\ length (format_05_2f p) = percent_width p
              /\ length line = (76 + percent_width p)%nat)
         (top_data (zip3 ns ts ps) top_num sort) rows).
  { clear E. induction F as [|r line l rows' Hr F IH]; constructor.
    - destruct r as [[n t] p].
      destruct (Hin n t p (or_introl eq_refl)) as [Lt Lp].
      destruct (@row_width EM n t p Hv Lp) as (graph & G & Lg & R & W).
      exists graph. split; [exact G|]. split; [exact Lg|].
      split.
      { rewrite R in Hr. injection Hr as <-. rewrite <- !app_assoc.
        reflexivity. }
      split; [apply name_column_width|].
      split; [rewrite text_column_width; lia|].
      split; [apply format_width; exact Lp|].
      rewrite (W line Hr). lia.
    - apply IH. intros n t p H. apply (Hin n t p). right. exact H. }
  split; [exact F'|].
  clear E F Hin. induction F' as [|r line l rows' Hr F IH]; constructor.
  - destruct r as [[n t] p].
    destruct Hr as (graph & _ & _ & _ & _ & _ & _ & W).
    rewrite W. destruct (percent_width_cases p) as [C|C]; rewrite C; auto.
  - exact IH.
Qed.

Lemma make_list_row_width_witness :
  (valid_version (SYMBOL_VERSION EM_waka)
   /\ Forall (fun t => (length t <= 20)%nat) [lit "3 repos"; lit "1 repo"]
   /\ Forall (fun p => (0 <= p <= 100)%Q) [75 # 1; 100 # 1])
  /\ exists rows : list str,
       data_list EM_waka None (Some [lit "Python"; lit "Go"])
                 (Some [lit "3 repos"; lit "1 repo"])
                 (Some [75 # 1; 100 # 1]) 5 true = Ok rows
       /\ map (@length Z) rows = [82%nat; 81%nat].
Proof.
  assert (Hv : valid_version (SYMBOL_VERSION EM_waka)) by (left; reflexivity).
  assert (Ht : Forall (fun t => (length t <= 20)%nat)
                      [lit "3 repos"; lit "1 repo"]).
  { repeat constructor; simpl; lia. }
  assert (Hp : Forall (fun p => (0 <= p <= 100)%Q) [75 # 1; 100 # 1]).
  { repeat constructor; discriminate. }
  split; [repeat split; assumption|].
  destruct (@make_list_row_width EM_waka None [lit "Python"; lit "Go"]
              [lit "3 repos"; lit "1 repo"] [75 # 1; 100 # 1] 5 true Hv Ht Hp)
    as (rows & E & _).
  exists rows. split; [exact E|].
  vm_compute in E. injection E as <-. reflexivity.
Defined.

(** C3, as the specification states it, fails: the usual row is 81
    characters wide, not 82. *)
Lemma make_list_width_82_counterexample :
  exists line : str,
    data_list EM_waka None (Some [lit "Python"]) (Some [lit "3 repos"])
              (Some [75 # 1]) 5 true = Ok [line]
    /\ length line = 81%nat
    /\ length line <> 82%nat.
Proof.
  eexists. split; [vm_compute; reflexivity|].
  split; [reflexivity|discriminate].
Qed.

(** The text column is not cut: a text of more than 20 characters makes
    the row longer. *)
Lemma make_list_long_text :
  exists line : str,
    data_list EM_waka None (Some [lit "Python"])
              (Some [lit "123456789012345678901234"])
              (Some [75 # 1]) 5 true = Ok [line]
    /\ length line = 85%nat.
Proof.
  eexists. split; [vm_compute; reflexivity|reflexivity].
Qed.

(** C6. The window is cut before sorting: the rows rendered are those of
    the first [min(len(entries), top_num)] zipped entries, which sorting
    only reorders, by percent, largest first. *)
Theorem make_list_window (EM : EnvironmentManager)
  (data : option (list Measure)) (ns ts : list str) (ps : list float)
  (top_num : Z) (sort : bool) :
  valid_version (SYMBOL_VERSION EM) -> (0 <= top_num)%Z ->
  let entries := zip3 ns ts ps in
  let shown := top_data entries top_num sort in
  exists rows : list str,
    make_list EM data (Some ns) (Some ts) (Some ps) top_num sort
    = Ok (join [10%Z] rows)
    /\ Forall2 (fun r line => row EM r = Ok line) shown rows
    /\ Permutation shown (window entries top_num)
    /\ (sort = false -> shown = window entries top_num)
    /\ (sort = true -> StronglySorted percent_descending shown)
    /\ length rows = Nat.min (length entries) (Z.to_nat top_num)
    /\ (forall r, In r shown -> In r (window entries top_num)).
Proof.
  intros Hv Hn entries shown.
  destruct (@rows_total EM shown Hv) as (rows & E & F).
  exists rows.
  assert (P : Permutation shown (window entries top_num)).
  { unfold shown. rewrite <- (slice_to_window entries Hn).
    apply top_data_perm. }
  split; [apply make_list_rows; rewrite data_list_parallel; exact E|].
  split; [exact F|]. split; [exact P|].
  split.
  { intros ->. unfold shown, top_data. apply slice_to_window. exact Hn. }
  split.
  { intros ->. unfold shown, top_data, percent_descending.
    apply (sorted_reverse_sorted
             (fun record : str * str * float => snd record)). }
  split.
  { rewrite <- (Forall2_length F), (Permutation_length P).
    apply window_length. }
  intros r H. apply (Permutation_in _ P). exact H.
Qed.

Lemma make_list_window_witness :
  (valid_version (SYMBOL_VERSION EM_waka) /\ (0 <= 2)%Z)
  /\ Permutation
       (top_data (zip3 [lit "a"; lit "b"; lit "c"] [lit "x"; lit "y"; lit "z"]
                       [10 # 1; 20 # 1; 90 # 1]) 2 true)
       (window (zip3 [lit "a"; lit "b"; lit "c"] [lit "x"; lit "y"; lit "z"]
                     [10 # 1; 20 # 1; 90 # 1]) 2).
Proof.
  assert (Hv : valid_version (SYMBOL_VERSION EM_waka)) by (left; reflexivity).
  assert (Hn : (0 <= 2)%Z) by lia.
  split; [split; assumption|].
  destruct (@make_list_window EM_waka None [lit "a"; lit "b"; lit "c"]
              [lit "x"; lit "y"; lit "z"] [10 # 1; 20 # 1; 90 # 1] 2 true
              Hv Hn) as (rows & _ & _ & P & _).
  exact P.
Defined.

(** A negative [top_num] is a slice bound counted from the end. *)
Lemma make_list_negative_top_num :
  top_data (zip3 [lit "a"; lit "b"; lit "c"] [lit "x"; lit "y"; lit "z"]
                 [10 # 1; 20 # 1; 90 # 1]) (-1) false
  = [(lit "a", lit "x", 10 # 1); (lit "b", lit "y", 20 # 1)].
Proof. reflexivity. Qed.

(** C7, as the code has it.  Sequences of unequal length are not
    rejected: [zip] stops at the shortest one, and the table is the one of
    the sequences cut to that length. *)
Theorem make_list_unequal_lengths (EM : EnvironmentManager)
  (data : option (list Measure)) (ns ts : list str) (ps : list float)
  (top_num : Z) (sort : bool) :
  valid_version (SYMBOL_VERSION EM) ->
  let m := Nat.min (length ns) (Nat.min (length ts) (length ps)) in
  exists rows : list str,
    make_list EM data (Some ns) (Some ts) (Some ps) top_num sort
    = Ok (join [10%Z] rows)
    /\ length (zip3 ns ts ps) = m
    /\ Forall2 (fun r line => row EM r = Ok line)
               (top_data (zip3 ns ts ps) top_num sort) rows
    /\ make_list EM data (Some (firstn m ns)) (Some (firstn m ts))
                 (Some (firstn m ps)) top_num sort
       = Ok (join [10%Z] rows).
Proof.
  intros Hv m.
  destruct (@rows_total EM (top_data (zip3 ns ts ps) top_num sort) Hv)
    as (rows & E & F).
  exists rows.
  split; [apply make_list_rows; rewrite data_list_parallel; exact E|].
  split; [apply zip3_length|].
  split; [exact F|].
  apply make_list_rows. rewrite data_list_parallel, zip3_firstn.
  rewrite firstn_all2; [exact E|].
  rewrite zip3_length. fold m. lia.
Qed.

Lemma make_list_unequal_lengths_witness :
  valid_version (SYMBOL_VERSION EM_waka)
  /\ exists rows : list str,
       make_list EM_waka None (Some [lit "Python"; lit "Go"])
                 (Some [lit "3 repos"]) (Some [75 # 1; 25 # 1; 0 # 1]) 5 true
       = Ok (join [10%Z] rows)
       /\ length rows = 1%nat.
Proof.
  assert (Hv : valid_version (SYMBOL_VERSION EM_waka)) by (left; reflexivity).
  split; [exact Hv|].
  destruct (@make_list_unequal_lengths EM_waka None [lit "Python"; lit "Go"]
              [lit "3 repos"] [75 # 1; 25 # 1; 0 # 1] 5 true Hv)
    as (rows & E & _ & F & _).
  exists rows. split; [exact E|].
  rewrite <- (Forall2_length F). reflexivity.
Defined.

(** C7, as the specification states it, fails: with two names, one text
    and three percents the call is not rejected, it renders one row. *)
Lemma make_list_mismatch_counterexample :
  length [lit "Python"; lit "Go"] <> length [lit "3 repos"]
  /\ exists line : str,
       make_list EM_waka None (Some [lit "Python"; lit "Go"])
                 (Some [lit "3 repos"]) (Some [75 # 1; 25 # 1; 0 # 1]) 5 true
       = Ok line
       /\ length line = 81%nat.
Proof.
  split; [discriminate|].
  eexists. split; [vm_compute; reflexivity|reflexivity].
Qed.

End TableClaims.

(* ================================================================== *)
(** * More on the bar and the table *)
(* ================================================================== *)

Section Decimal.

Lemma uint_chars_inj (u u' : Decimal.uint) :
  uint_chars u = uint_chars u' -> u = u'.
Proof.
  revert u'.
  induction u as [|u IH|u IH|u IH|u IH|u IH|u IH|u IH|u IH|u IH|u IH];
    intros [|u'|u'|u'|u'|u'|u'|u'|u'|u'|u'] H; simpl in H;
    try discriminate H; try reflexivity;
    injection H as H; f_equal; apply IH; exact H.
Qed.

Lemma uint_chars_no_sign (u : Decimal.uint) (s : str) :
  uint_chars u <> 45%Z :: s.
Proof. destruct u; discriminate. Qed.

(** [str] is injective on integers. *)
Lemma str_of_int_inj (a b : Z) : str_of_int a = str_of_int b -> a = b.
Proof.
  destruct a as [|p|p], b as [|q|q]; simpl; intros H;
    try reflexivity; try discriminate H.
  - change [48%Z] with (uint_chars (Decimal.D0 Decimal.Nil)) in H.
    apply uint_chars_inj in H. symmetry in H.
    destruct (Unsigned.to_uint_nonzero _ H).
  - change [48%Z] with (uint_chars (Decimal.D0 Decimal.Nil)) in H.
    apply uint_chars_inj in H.
    destruct (Unsigned.to_uint_nonzero _ H).
  - apply uint_chars_inj, Unsigned.to_uint_inj in H. congruence.
  - destruct (uint_chars_no_sign _ H).
  - symmetry in H. destruct (uint_chars_no_sign _ H).
  - injection H as H.
    apply uint_chars_inj, Unsigned.to_uint_inj in H. congruence.
Qed.

End Decimal.

Section BarAndTable.

Import Formatter.

Lemma get_symbols_unknown (v : Z) :
  ~ valid_version v -> get_symbols v = Raise KeyError.
Proof.
  intros N. unfold get_symbols, Symbol_members, Symbol_getitem.
  assert (D : forall d : Z,
             v <> d ->
             str_eqb (lit "VERSION_" ++ str_of_int d)
                     (lit "VERSION_" ++ str_of_int v) = false).
  { intros d Hd. apply str_eqb_neq. intros E.
    apply app_inv_head, str_of_int_inj in E. congruence. }
  change (lit "VERSION_1") with (lit "VERSION_" ++ str_of_int 1).
  change (lit "VERSION_2") with (lit "VERSION_" ++ str_of_int 2).
  change (lit "VERSION_3") with (lit "VERSION_" ++ str_of_int 3).
  rewrite !D; [reflexivity| | |]; intros E; apply N; unfold valid_version;
    lia.
Qed.

Lemma top_data_nonempty (entries : list (str * str * float)) (top_num : Z)
  (sort : bool) :
  entries <> [] -> (1 <= top_num)%Z -> top_data entries top_num sort <> [].
Proof.
  intros He Hn E.
  pose proof (top_data_perm entries top_num sort) as P.
  rewrite E in P. apply Permutation_nil in P.
  unfold slice_to in P. destruct (Z.leb_spec 0 top_num); [|lia].
  destruct entries as [|x entries]; [contradiction|].
  destruct (Z.to_nat top_num) eqn:T; [lia|]. discriminate P.
Qed.

(** X1. A symbol version without a member in [Symbol] makes the lookup
    raise [KeyError]; so does the bar of any percent, and so does the
    table as soon as it has a row to render. *)
Theorem unknown_version_raises (EM : EnvironmentManager) :
  ~ valid_version (SYMBOL_VERSION EM) ->
  get_symbols (SYMBOL_VERSION EM) = Raise KeyError
  /\ (forall p : float, make_graph EM p = Raise KeyError)
  /\ (forall (data : option (list Measure)) (ns ts : list str)
             (ps : list float) (top_num : Z) (sort : bool),
        zip3 ns ts ps <> [] -> (1 <= top_num)%Z ->
        make_list EM data (Some ns) (Some ts) (Some ps) top_num sort
        = Raise KeyError).
Proof.
  intros N. pose proof (get_symbols_unknown N) as G.
  assert (M : forall p, make_graph EM p = Raise KeyError).
  { intros p. unfold make_graph. rewrite G. reflexivity. }
  split; [exact G|]. split; [exact M|].
  intros data ns ts ps top_num sort He Hn.
  unfold make_list. rewrite data_list_parallel.
  destruct (top_data (zip3 ns ts ps) top_num sort) as [|[[n t] p] l] eqn:T.
  - destruct (top_data_nonempty sort He Hn T).
  - cbn [mapM]. unfold row. rewrite M. reflexivity.
Qed.

Lemma unknown_version_raises_witness :
  ~ valid_version 4
  /\ make_list (Build_EnvironmentManager 4 true (lit "waka")) None
       (Some [lit "Python"]) (Some [lit "3 repos"]) (Some [75 # 1]) 5 true
     = Raise KeyError.
Proof.
  assert (N : ~ valid_version 4) by (unfold valid_version; lia).
  split; [exact N|].
  destruct (@unknown_version_raises
              (Build_EnvironmentManager 4 true (lit "waka")) N)
    as (_ & _ & H).
  apply H; [discriminate|lia].
Defined.

Lemma quarter_modest (p : float) :
  modest p -> (- 250000 <= round (fl (p / 4)) <= 250000)%Z.
Proof.
  intros [L U]. apply round_between.
  change (inject_Z (- 250000)) with (- (250000))%Q.
  change (inject_Z 250000) with 250000%Q.
  apply fl_between; [vm_compute; reflexivity|vm_compute; reflexivity|].
  assert (D : (p / 4 == p * (1 # 4))%Q) by reflexivity.
  rewrite D. lra.
Qed.

(** X2. For a percent of modest size (between minus one million and one
    million; beyond, the interpreter's limits on the length of a string,
    which the model leaves out, come into play) the bar is never shorter
    than 25 cells: it has [round(percent / 4)] filled cells if that is
    positive and [25 - round(percent / 4)] empty cells if that is
    positive, which makes exactly 25 cells only when the rounded quarter
    lies between 0 and 25, and never more than 250025. *)
Theorem make_graph_any_percent (EM : EnvironmentManager) (p : float) :
  valid_version (SYMBOL_VERSION EM) -> modest p ->
  exists (filled empty : Z) (quarter : float) (bar : str),
    get_symbols (SYMBOL_VERSION EM) = Ok ([filled], [empty])
    /\ float_div p 4 = Ok quarter
    /\ make_graph EM p = Ok bar
    /\ bar = repeat filled (Z.to_nat (round quarter))
             ++ repeat empty (Z.to_nat (25 - round quarter))
    /\ (25 <= length bar)%nat
    /\ (len bar <= 250025)%Z
    /\ (length bar = 25%nat <-> (0 <= round quarter <= 25)%Z).
Proof.
  intros Hv Hp. destruct (get_symbols_valid Hv) as (filled & empty & G & _).
  pose proof (quarter_modest Hp) as B.
  exists filled, empty, (fl (p / 4)).
  eexists. split; [exact G|]. split; [reflexivity|].
  split.
  { unfold make_graph. rewrite G. cbn [bind].
    change (float_div p 4) with (Ok (fl (p / 4))). cbn [bind].
    rewrite !str_mul_single. reflexivity. }
  split; [reflexivity|].
  unfold len. rewrite length_app, !repeat_length.
  split; [lia|]. split; lia.
Qed.

Lemma make_graph_any_percent_witness :
  (valid_version (SYMBOL_VERSION EM_waka) /\ modest (120 # 1))
  /\ make_graph EM_waka (120 # 1) = Ok (repeat 9608%Z 30).
Proof.
  assert (Hv : valid_version (SYMBOL_VERSION EM_waka)) by (left; reflexivity).
  assert (Hp : modest (120 # 1)) by (split; discriminate).
  split; [split; assumption|].
  destruct (@make_graph_any_percent EM_waka (120 # 1) Hv Hp)
    as (filled & empty & quarter & bar & G & Q & M & B & _).
  rewrite M, B. injection G as <- <-. injection Q as <-. reflexivity.
Defined.

Lemma firstn_repeat {A} (x : A) (k m : nat) :
  firstn k (repeat x m) = repeat x (Nat.min k m).
Proof.
  revert m. induction k as [|k IH]; intros [|m]; simpl; try reflexivity.
  rewrite IH. reflexivity.
Qed.

(** The name column is the start of the name followed by 25 spaces. *)
Lemma name_column_padded (n : str) :
  slice_to n 25 ++ str_mul (lit " ") (25 - len n)
  = firstn 25 (n ++ repeat 32%Z 25).
Proof.
  change (lit " ") with [32%Z]. rewrite str_mul_single.
  change (slice_to n 25) with (firstn 25 n).
  rewrite firstn_app, firstn_repeat. f_equal. f_equal. unfold len. lia.
Qed.

(** X3. A text of more than 20 characters is not cut: with a percent
    between 0 and 100 the row is 56 characters, the width of the percent
    (5 or 6) and the larger of 20 and the length of the text wide, while a
    name is always brought to 25 characters. *)
Theorem row_width_any_text (EM : EnvironmentManager) (n t : str)
  (p : float) :
  valid_version (SYMBOL_VERSION EM) -> (0 <= p <= 100)%Q ->
  exists line : str,
    row EM (n, t, p) = Ok line
    /\ length line
       = (56 + Nat.max 20 (length t) + percent_width p)%nat
    /\ firstn 25 line = firstn 25 (n ++ repeat 32%Z 25).
Proof.
  intros Hv Hp.
  destruct (@row_width EM n t p Hv Hp) as (graph & G & Lg & R & W).
  eexists. split; [exact R|]. split.
  - rewrite (W _ R). lia.
  - rewrite app_assoc.
    set (column := slice_to n 25 ++ str_mul (lit " ") (25 - len n)).
    pose proof (name_column_width n) as L. fold column in L.
    rewrite firstn_app, L, Nat.sub_diag, firstn_O, app_nil_r.
    rewrite firstn_all2 by lia.
    unfold column. apply name_column_padded.
Qed.

Lemma row_width_any_text_witness :
  (valid_version (SYMBOL_VERSION EM_waka) /\ (0 <= 75 # 1 <= 100)%Q)
  /\ exists line : str,
       row EM_waka (lit "Python", lit "123456789012345678901234", 75 # 1)
       = Ok line
       /\ length line = 85%nat.
Proof.
  assert (Hv : valid_version (SYMBOL_VERSION EM_waka)) by (left; reflexivity).
  assert (Hp : (0 <= 75 # 1 <= 100)%Q) by (split; discriminate).
  split; [split; assumption|].
  destruct (@row_width_any_text EM_waka (lit "Python")
              (lit "123456789012345678901234") (75 # 1) Hv Hp)
    as (line & R & L & _).
  exists line. split; [exact R|]. rewrite L. reflexivity.
Defined.

End BarAndTable.

Section TableEdges.

Import Formatter.

(** X4. With a symbol version the enumeration knows and percents of
    modest size, [make_list] raises exactly when a column is given neither
    by its own argument nor by [data], and then it raises [TypeError];
    otherwise it returns a table: the rows of records with percents of
    modest size, joined by line breaks. *)
Theorem make_list_type_error (EM : EnvironmentManager)
  (data : option (list Measure)) (names texts : option (list str))
  (percents : option (list float)) (top_num : Z) (sort : bool) :
  valid_version (SYMBOL_VERSION EM) ->
  (forall ps, percents = Some ps -> Forall modest ps) ->
  (forall items, data = Some items -> percents = None ->
                 Forall (fun item => modest (percent item)) items) ->
  (data = None /\ (names = None \/ texts = None \/ percents = None) ->
   make_list EM data names texts percents top_num sort = Raise TypeError)
  /\ (~ (data = None /\ (names = None \/ texts = None \/ percents = None)) ->
      exists (records : list (str * str * float)) (rows : list str),
        make_list EM data names texts percents top_num sort
        = Ok (join [10%Z] rows)
        /\ Forall2 (fun r line => row EM r = Ok line) records rows
        /\ Forall (fun r => modest (snd r)) records).
Proof.
  intros Hv Hp Hd. split.
  - intros [E H]. subst data. unfold make_list, data_list, zip_args.
    destruct names, texts, percents; try reflexivity.
    destruct H as [H|[H|H]]; discriminate H.
  - intros H.
    assert (T : forall ns ts ps,
               Forall modest ps ->
               exists records rows,
                 bind (bind (zip_args (Some ns) (Some ts) (Some ps))
                            (fun data0 =>
                               mapM (row EM) (top_data data0 top_num sort)))
                      (fun rows => Ok (join [10%Z] rows))
                 = Ok (join [10%Z] rows)
                 /\ Forall2 (fun r line => row EM r = Ok line) records rows
                 /\ Forall (fun r => modest (snd r)) records).
    { intros ns ts ps Hm. cbn [zip_args bind].
      destruct (@rows_total EM (top_data (zip3 ns ts ps) top_num sort) Hv)
        as (rows & E & F).
      rewrite E. exists (top_data (zip3 ns ts ps) top_num sort), rows.
      split; [reflexivity|]. split; [exact F|].
      apply Forall_forall. intros [[n t] q] Hr.
      apply top_data_incl, zip3_In in Hr. destruct Hr as (_ & _ & Hq).
      exact (proj1 (Forall_forall _ _) Hm q Hq). }
    unfold make_list, data_list.
    destruct data as [items|].
    + destruct names, texts, percents as [ps|]; cbn [or_else]; apply T;
        try (apply (Hp ps); reflexivity);
        apply Forall_map, (Hd items); reflexivity.
    + destruct names, texts, percents as [ps|];
        try (apply T; apply (Hp ps); reflexivity);
        exfalso; apply H; split; auto.
Qed.

Lemma make_list_type_error_witness :
  (valid_version (SYMBOL_VERSION EM_waka)
   /\ (forall ps, Some [75 # 1] = Some ps -> Forall modest ps))
  /\ make_list EM_waka None (Some [lit "Python"]) None (Some [75 # 1]) 5 true
     = Raise TypeError.
Proof.
  assert (Hv : valid_version (SYMBOL_VERSION EM_waka)) by (left; reflexivity).
  assert (Hp : forall ps, Some [75 # 1] = Some ps -> Forall modest ps).
  { intros ps E. injection E as <-. repeat constructor; discriminate. }
  split; [split; assumption|].
  destruct (@make_list_type_error EM_waka None (Some [lit "Python"]) None
              (Some [75 # 1]) 5 true Hv Hp) as [H _].
  { intros items E. discriminate E. }
  apply H. split; [reflexivity|]. right. left. reflexivity.
Defined.

Lemma zip3_nil {A B C} (a : list A) (b : list B) (c : list C) :
  a = [] \/ b = [] \/ c = [] -> zip3 a b c = [].
Proof.
  intros [-> | [-> | ->]]; [reflexivity| |].
  - destruct a; reflexivity.
  - destruct a; [reflexivity|]. destruct b; reflexivity.
Qed.

(** X5. When one of the three sequences is empty, or [top_num] is 0, the
    table is the empty string; no bar is rendered, so this holds whatever
    the symbol version is. *)
Theorem make_list_empty (EM : EnvironmentManager)
  (data : option (list Measure)) (ns ts : list str) (ps : list float)
  (top_num : Z) (sort : bool) :
  ns = [] \/ ts = [] \/ ps = [] \/ top_num = 0%Z ->
  make_list EM data (Some ns) (Some ts) (Some ps) top_num sort = Ok [].
Proof.
  intros H. unfold make_list. rewrite data_list_parallel.
  assert (E : slice_to (zip3 ns ts ps) top_num = []).
  { destruct H as [H|[H|[H|H]]].
    - rewrite zip3_nil by auto. unfold slice_to.
      destruct (0 <=? top_num)%Z; apply firstn_nil.
    - rewrite zip3_nil by auto. unfold slice_to.
      destruct (0 <=? top_num)%Z; apply firstn_nil.
    - rewrite zip3_nil by auto. unfold slice_to.
      destruct (0 <=? top_num)%Z; apply firstn_nil.
    - subst top_num. reflexivity. }
  unfold top_data. rewrite E. destruct sort; reflexivity.
Qed.

Lemma make_list_empty_witness :
  ([lit "Python"] = [] \/ @nil str = [] \/ [75 # 1] = [] \/ 5%Z = 0%Z)
  /\ make_list (Build_EnvironmentManager 9 true []) None
       (Some [lit "Python"]) (Some []) (Some [75 # 1]) 5 true
     = Ok [].
Proof.
  assert (H : [lit "Python"] = [] \/ @nil str = []
              \/ [75 # 1] = [] \/ 5%Z = 0%Z)
    by (right; left; reflexivity).
  split; [exact H|].
  apply (@make_list_empty (Build_EnvironmentManager 9 true []) None
           [lit "Python"] [] [75 # 1] 5 true H).
Defined.

(** X6. A negative [top_num] is a slice bound counted from the end: the
    table leaves out the last [-top_num] zipped entries instead of
    keeping the first ones. *)
Theorem make_list_negative_window (EM : EnvironmentManager)
  (data : option (list Measure)) (ns ts : list str) (ps : list float)
  (top_num : Z) (sort : bool) :
  valid_version (SYMBOL_VERSION EM) -> (top_num < 0)%Z ->
  let entries := zip3 ns ts ps in
  let kept := firstn (length entries - Z.to_nat (- top_num)) entries in
  exists rows : list str,
    make_list EM data (Some ns) (Some ts) (Some ps) top_num sort
    = Ok (join [10%Z] rows)
    /\ Forall2 (fun r line => row EM r = Ok line)
               (top_data entries top_num sort) rows
    /\ Permutation (top_data entries top_num sort) kept
    /\ (sort = false -> top_data entries top_num sort = kept)
    /\ length rows = (length entries - Z.to_nat (- top_num))%nat.
Proof.
  intros Hv Hn entries kept.
  destruct (@rows_total EM (top_data entries top_num sort) Hv)
    as (rows & E & F).
  assert (S : slice_to entries top_num = kept).
  { unfold slice_to, kept. destruct (Z.leb_spec 0 top_num); [lia|].
    f_equal. unfold len. lia. }
  assert (P : Permutation (top_data entries top_num sort) kept).
  { rewrite <- S. apply top_data_perm. }
  exists rows.
  split; [apply make_list_rows; rewrite data_list_parallel; exact E|].
  split; [exact F|]. split; [exact P|]. split.
  { intros ->. exact S. }
  rewrite <- (Forall2_length F), (Permutation_length P).
  unfold kept. rewrite length_firstn. lia.
Qed.

Lemma make_list_negative_window_witness :
  (valid_version (SYMBOL_VERSION EM_waka) /\ (-1 < 0)%Z)
  /\ top_data (zip3 [lit "a"; lit "b"; lit "c"] [lit "x"; lit "y"; lit "z"]
                    [10 # 1; 20 # 1; 90 # 1]) (-1) false
     = [(lit "a", lit "x", 10 # 1); (lit "b", lit "y", 20 # 1)].
Proof.
  assert (Hv : valid_version (SYMBOL_VERSION EM_waka)) by (left; reflexivity).
  assert (Hn : (-1 < 0)%Z) by lia.
  split; [split; assumption|].
  destruct (@make_list_negative_window EM_waka None
              [lit "a"; lit "b"; lit "c"] [lit "x"; lit "y"; lit "z"]
              [10 # 1; 20 # 1; 90 # 1] (-1) true Hv Hn) as (rows & _).
  reflexivity.
Defined.

Lemma insert_desc_filter {A} (key : A -> float) (q : Q) (x : A)
  (l : list A) :
  filter (fun r => Qeq_bool (key r) q) (insert_desc key x l)
  = filter (fun r => Qeq_bool (key r) q) (x :: l).
Proof.
  induction l as [|y l IH]; [reflexivity|].
  cbn [insert_desc].
  destruct (Qcompare_spec (key x) (key y)) as [E|E|E]; try reflexivity.
  cbn [filter] in *. rewrite IH.
  destruct (Qeq_bool (key x) q) eqn:Ex; [|reflexivity].
  destruct (Qeq_bool (key y) q) eqn:Ey; [|reflexivity].
  apply Qeq_bool_iff in Ex, Ey. exfalso.
  rewrite Ex, Ey in E. apply (Qlt_irrefl q). exact E.
Qed.

Lemma sorted_reverse_filter {A} (key : A -> float) (q : Q) (l : list A) :
  filter (fun r => Qeq_bool (key r) q) (sorted_reverse key l)
  = filter (fun r => Qeq_bool (key r) q) l.
Proof.
  induction l as [|x l IH]; [reflexivity|].
  cbn [sorted_reverse fold_right].
  fold (sorted_reverse key l). rewrite insert_desc_filter.
  cbn [filter]. rewrite IH. reflexivity.
Qed.

(** X7. Sorting is stable: the entries of one percent appear in the table
    in the order they have in the input. *)
Theorem make_list_sort_stable (entries : list (str * str * float))
  (top_num : Z) (q : Q) :
  filter (fun r => Qeq_bool (snd r) q) (top_data entries top_num true)
  = filter (fun r => Qeq_bool (snd r) q) (slice_to entries top_num).
Proof.
  unfold top_data.
  apply (sorted_reverse_filter (fun record : str * str * float => snd record)).
Qed.

End TableEdges.

(* ================================================================== *)
(** * The two reports *)
(* ================================================================== *)

Section Buckets.

Import Formatter.

Lemma bucket_count_cons (d : datetime) (dates : list datetime) (b : Z) :
  bucket_count (d :: dates) b
  = ((if (hour d / 6 =? b)%Z then 1 else 0) + bucket_count dates b)%Z.
Proof.
  unfold bucket_count. simpl filter.
  destruct (hour d / 6 =? b)%Z; simpl length; lia.
Qed.

Lemma weekday_count_cons (d : datetime) (dates : list datetime) (w : Z) :
  weekday_count (d :: dates) w
  = ((if (isoweekday d =? w)%Z then 1 else 0) + weekday_count dates w)%Z.
Proof.
  unfold weekday_count. simpl filter.
  destruct (isoweekday d =? w)%Z; simpl length; lia.
Qed.

Lemma bucket_count_total (dates : list datetime) :
  Forall valid_date dates ->
  (bucket_count dates 0 + bucket_count dates 1 + bucket_count dates 2
   + bucket_count dates 3 = len dates)%Z.
Proof.
  induction 1 as [|d dates [Hh _] _ IH].
  - reflexivity.
  - rewrite !bucket_count_cons. unfold len in *. simpl length.
    assert (B : (0 <= hour d / 6 < 4)%Z).
    { split; [apply Z.div_pos; lia|apply Z.div_lt_upper_bound; lia]. }
    destruct (Z.eqb_spec (hour d / 6) 0), (Z.eqb_spec (hour d / 6) 1),
      (Z.eqb_spec (hour d / 6) 2), (Z.eqb_spec (hour d / 6) 3); lia.
Qed.

(** One step of the loop on well-formed counters. *)
Lemma count_commit_step (d : datetime) (a0 a1 a2 a3 : Z)
  (w1 w2 w3 w4 w5 w6 w7 : Z) :
  valid_date d ->
  count_commit ([a0; a1; a2; a3], [w1; w2; w3; w4; w5; w6; w7]) d
  = Ok ([(a0 + if (hour d / 6 =? 0)%Z then 1 else 0)%Z;
         (a1 + if (hour d / 6 =? 1)%Z then 1 else 0)%Z;
         (a2 + if (hour d / 6 =? 2)%Z then 1 else 0)%Z;
         (a3 + if (hour d / 6 =? 3)%Z then 1 else 0)%Z],
        [(w1 + if (isoweekday d =? 1)%Z then 1 else 0)%Z;
         (w2 + if (isoweekday d =? 2)%Z then 1 else 0)%Z;
         (w3 + if (isoweekday d =? 3)%Z then 1 else 0)%Z;
         (w4 + if (isoweekday d =? 4)%Z then 1 else 0)%Z;
         (w5 + if (isoweekday d =? 5)%Z then 1 else 0)%Z;
         (w6 + if (isoweekday d =? 6)%Z then 1 else 0)%Z;
         (w7 + if (isoweekday d =? 7)%Z then 1 else 0)%Z]).
Proof.
  intros [Hh Hw].
  assert (B : (0 <= hour d / 6 < 4)%Z).
  { split; [apply Z.div_pos; lia|apply Z.div_lt_upper_bound; lia]. }
  assert (Cb : (hour d / 6 = 0 \/ hour d / 6 = 1 \/ hour d / 6 = 2
                \/ hour d / 6 = 3)%Z) by lia.
  assert (Cw : (isoweekday d = 1 \/ isoweekday d = 2 \/ isoweekday d = 3
                \/ isoweekday d = 4 \/ isoweekday d = 5 \/ isoweekday d = 6
                \/ isoweekday d = 7)%Z) by lia.
  unfold count_commit.
  destruct Cb as [Eb|[Eb|[Eb|Eb]]]; rewrite Eb;
    destruct Cw as [Ew|[Ew|[Ew|[Ew|[Ew|[Ew|Ew]]]]]]; rewrite Ew;
    cbn; rewrite ?Z.add_0_r; reflexivity.
Qed.

Lemma count_commits_spec (dates : list datetime) :
  Forall valid_date dates ->
  forall a0 a1 a2 a3 w1 w2 w3 w4 w5 w6 w7 : Z,
    count_commits ([a0; a1; a2; a3], [w1; w2; w3; w4; w5; w6; w7]) dates
    = Ok ([(a0 + bucket_count dates 0)%Z; (a1 + bucket_count dates 1)%Z;
           (a2 + bucket_count dates 2)%Z; (a3 + bucket_count dates 3)%Z],
          [(w1 + weekday_count dates 1)%Z; (w2 + weekday_count dates 2)%Z;
           (w3 + weekday_count dates 3)%Z; (w4 + weekday_count dates 4)%Z;
           (w5 + weekday_count dates 5)%Z; (w6 + weekday_count dates 6)%Z;
           (w7 + weekday_count dates 7)%Z]).
Proof.
  induction 1 as [|d dates Hd _ IH]; intros.
  - cbn [count_commits]. unfold bucket_count, weekday_count. simpl.
    rewrite !Z.add_0_r. reflexivity.
  - cbn [count_commits]. rewrite (count_commit_step _ _ _ _ _ _ _ _ _ _ _ Hd).
    cbn [bind]. rewrite IH.
    rewrite !bucket_count_cons, !weekday_count_cons, !Z.add_assoc.
    reflexivity.
Qed.

(** A commit is counted in the bucket [hour // 6]; the rotation moves the
    four counters one place to the left and changes none of them. *)
Lemma day_time_counts (dates : list datetime) :
  Forall valid_date dates ->
  exists (raw week_days : list Z),
    counted dates = Ok (raw, week_days)
    /\ raw = [bucket_count dates 0; bucket_count dates 1;
              bucket_count dates 2; bucket_count dates 3]
    /\ rotated raw = [bucket_count dates 1; bucket_count dates 2;
                      bucket_count dates 3; bucket_count dates 0]
    /\ (forall i : nat, (i < 4)%nat ->
          nth i (rotated raw) 0%Z = nth ((i + 1) mod 4) raw 0%Z)
    /\ Permutation (rotated raw) raw
    /\ sum (rotated raw) = sum raw
    /\ sum raw = len dates.
Proof.
  intros H. unfold counted. simpl repeat.
  rewrite (count_commits_spec H). simpl Z.add.
  do 2 eexists. split; [reflexivity|]. split; [reflexivity|].
  split; [reflexivity|]. split.
  { intros i Hi.
    destruct i as [|[|[|[|i]]]]; try reflexivity. lia. }
  split.
  { change (Permutation
              ([bucket_count dates 1; bucket_count dates 2;
                bucket_count dates 3] ++ [bucket_count dates 0])
              (bucket_count dates 0
               :: [bucket_count dates 1; bucket_count dates 2;
                   bucket_count dates 3])).
    apply Permutation_sym, Permutation_cons_append. }
  pose proof (bucket_count_total H) as T.
  unfold rotated, slice_from, slice_to, sum. simpl. split; lia.
Qed.

End Buckets.

Section Languages.

Import Formatter.

Variable LM_t : str -> str.
Variable str_mod : str -> str -> result str.

Lemma languages_of_none (nodes : list repository) :
  Forall (fun repo => primaryLanguage repo = None) nodes ->
  languages_of nodes = [].
Proof.
  induction 1 as [|repo nodes E _ IH]; simpl; [reflexivity|].
  rewrite E. exact IH.
Qed.

Lemma no_language_raises (EM : EnvironmentManager) (nodes : list repository) :
  languages_of nodes = [] ->
  make_language_per_repo_list LM_t str_mod EM nodes = Raise ValueError.
Proof.
  intros E. unfold make_language_per_repo_list. rewrite E. reflexivity.
Qed.

End Languages.

(** C10. When no repository has a primary language the report raises (the
    [max] of an empty sequence) before the title is chosen, so the branch
    of the empty title is never taken: whenever the report is returned,
    some repository has a language. *)
Theorem language_report_empty (LM_t : str -> str)
  (str_mod : str -> str -> result str) (EM : EnvironmentManager)
  (nodes : list Formatter.repository) :
  (Forall (fun repo => Formatter.primaryLanguage repo = None) nodes ->
   Formatter.make_language_per_repo_list LM_t str_mod EM nodes
   = Raise ValueError)
  /\ (forall out : str,
        Formatter.make_language_per_repo_list LM_t str_mod EM nodes = Ok out ->
        (len (Formatter.languages_of nodes) > 0)%Z).
Proof.
  split.
  - intros H. apply no_language_raises. apply languages_of_none. exact H.
  - intros out E.
    destruct (Formatter.languages_of nodes) as [|l ls] eqn:L.
    + rewrite (no_language_raises LM_t str_mod EM nodes L) in E. discriminate.
    + unfold len. simpl length. lia.
Qed.

Lemma language_report_empty_witness :
  Forall (fun repo => Formatter.primaryLanguage repo = None)
         [Formatter.Build_repository None; Formatter.Build_repository None]
  /\ Formatter.make_language_per_repo_list plain_t plain_mod EM_waka
       [Formatter.Build_repository None; Formatter.Build_repository None]
     = Raise ValueError.
Proof.
  assert (H : Forall (fun repo => Formatter.primaryLanguage repo = None)
                [Formatter.Build_repository None;
                 Formatter.Build_repository None]).
  { repeat constructor. }
  split; [exact H|].
  apply (language_report_empty plain_t plain_mod EM_waka
           [Formatter.Build_repository None; Formatter.Build_repository None]).
  exact H.
Defined.

Section ReportPercents.

Import Formatter.

Open Scope Z_scope.

Lemma bucket_count_nonneg (dates : list datetime) (b : Z) :
  0 <= bucket_count dates b.
Proof. unfold bucket_count. lia. Qed.

(** The percents of the commit report are percentages: each bucket is
    divided by the sum of the four, which is the number of commits. *)
Lemma day_time_percents_between (dates : list datetime) :
  Forall valid_date dates -> dates <> [] ->
  exists (raw week_days : list Z) (dt_percents : list float),
    counted dates = Ok (raw, week_days)
    /\ percents_of (rotated raw) (sum raw) = Ok dt_percents
    /\ length dt_percents = 4%nat
    /\ Forall (fun p => (0 <= p <= 100)%Q) dt_percents.
Proof.
  intros H Hne. unfold counted. simpl repeat.
  rewrite (count_commits_spec H). simpl Z.add.
  pose proof (bucket_count_total H) as T.
  pose proof (bucket_count_nonneg dates 0).
  pose proof (bucket_count_nonneg dates 1).
  pose proof (bucket_count_nonneg dates 2).
  pose proof (bucket_count_nonneg dates 3).
  assert (L : 0 < len dates).
  { unfold len. destruct dates; [contradiction|simpl; lia]. }
  set (raw := [bucket_count dates 0; bucket_count dates 1;
               bucket_count dates 2; bucket_count dates 3]).
  assert (S : sum raw = len dates).
  { unfold raw, sum. simpl. lia. }
  destruct (@percents_of_between (len dates) (rotated raw))
    as (ps & E & Lp & F).
  { exact L. }
  { unfold rotated, slice_from, slice_to, raw. simpl.
    repeat (apply Forall_cons; [lia|]). apply Forall_nil. }
  exists raw. eexists. exists ps.
  split; [reflexivity|]. rewrite S. split; [exact E|]. split; [|exact F].
  rewrite Lp. reflexivity.
Qed.

(** Without a commit the report divides by zero. *)
Lemma no_commit_raises (LM_t : str -> str)
  (str_mod : str -> str -> result str) (EM : EnvironmentManager) :
  make_commit_day_time_list LM_t str_mod EM [] = Raise ZeroDivisionError.
Proof. reflexivity. Qed.

(** ** The counts of the languages *)

Lemma dict_get_set (d : dict) (k k' : str) (v default : Z) :
  dict_get (dict_set d k v) k' default
  = if str_eqb k k' then v else dict_get d k' default.
Proof.
  induction d as [|[k0 v0] d IH]; simpl.
  - destruct (str_eqb k k'); reflexivity.
  - destruct (str_eq_dec k0 k) as [E|N].
    + subst k0. rewrite str_eqb_refl. simpl.
      destruct (str_eqb k k'); reflexivity.
    + rewrite (str_eqb_neq N). simpl. rewrite IH.
      destruct (str_eq_dec k0 k') as [E'|N'].
      * subst k0. rewrite str_eqb_refl.
        rewrite (str_eqb_neq (not_eq_sym N)). reflexivity.
      * rewrite (str_eqb_neq N'). reflexivity.
Qed.

Lemma count_language_get (d : dict) (language k : str) :
  dict_get (count_language d language) k 0
  = dict_get d k 0 + (if str_eqb language k then 1 else 0).
Proof.
  unfold count_language. rewrite !dict_get_set, str_eqb_refl.
  destruct (str_eqb language k) eqn:E; [|lia].
  unfold str_eqb in E. destruct (str_eq_dec language k); [|discriminate].
  subst k. reflexivity.
Qed.

Lemma language_count_get (langs : list str) (d : dict) (k : str) :
  dict_get (fold_left count_language langs d) k 0
  = dict_get d k 0 + occurrences langs k.
Proof.
  revert d. unfold occurrences.
  induction langs as [|l langs IH]; intros d; simpl; [lia|].
  rewrite IH, count_language_get. unfold str_eqb.
  destruct (str_eq_dec l k); lia.
Qed.

Lemma occurrences_between (langs : list str) (k : str) :
  0 <= occurrences langs k <= len langs.
Proof.
  unfold occurrences, len. pose proof (count_occ_bound str_eq_dec k langs).
  lia.
Qed.

(** The percents of the language report are percentages: the count of a
    language is at most the number of repositories with a language. *)
Lemma language_percents_between (langs : list str) :
  let language_count := fold_left count_language langs [] in
  exists percents : list float,
    mapM (fun lang =>
            bind (int_truediv (dict_get language_count lang 0) (len langs))
                 (fun share => Ok (round2 (float_mul share 100%Q))))
         (keys language_count) = Ok percents
    /\ Forall (fun p => (0 <= p <= 100)%Q) percents.
Proof.
  intros language_count.
  destruct langs as [|l langs].
  { exists []. split; [reflexivity|constructor]. }
  assert (L : 0 < len (l :: langs)) by (unfold len; simpl; lia).
  assert (C : forall k,
             0 <= dict_get language_count k 0 <= len (l :: langs)).
  { intros k. unfold language_count. rewrite language_count_get. simpl.
    apply occurrences_between. }
  induction (keys language_count) as [|k ks IH].
  - exists []. split; [reflexivity|constructor].
  - destruct IH as (ps & E & F).
    destruct (percent_between L (C k)) as (share & Es & _ & R).
    exists (round2 (float_mul share 100%Q) :: ps). cbn [mapM].
    rewrite Es. cbn [bind]. rewrite E. cbn [bind]. split; [reflexivity|].
    constructor; assumption.
Qed.

End ReportPercents.

Section CommitReport.

Import Formatter.

Lemma weekday_count_nonneg (dates : list datetime) (w : Z) :
  (0 <= weekday_count dates w)%Z.
Proof. unfold weekday_count. lia. Qed.

Lemma weekday_count_total (dates : list datetime) :
  Forall valid_date dates ->
  (weekday_count dates 1 + weekday_count dates 2 + weekday_count dates 3
   + weekday_count dates 4 + weekday_count dates 5 + weekday_count dates 6
   + weekday_count dates 7 = len dates)%Z.
Proof.
  induction 1 as [|d dates [_ Hw] _ IH].
  - reflexivity.
  - rewrite !weekday_count_cons. unfold len in *. simpl length.
    destruct (Z.eqb_spec (isoweekday d) 1), (Z.eqb_spec (isoweekday d) 2),
      (Z.eqb_spec (isoweekday d) 3), (Z.eqb_spec (isoweekday d) 4),
      (Z.eqb_spec (isoweekday d) 5), (Z.eqb_spec (isoweekday d) 6),
      (Z.eqb_spec (isoweekday d) 7); lia.
Qed.

Lemma counted_spec (dates : list datetime) :
  Forall valid_date dates ->
  counted dates
  = Ok ([bucket_count dates 0; bucket_count dates 1; bucket_count dates 2;
         bucket_count dates 3],
        [weekday_count dates 1; weekday_count dates 2;
         weekday_count dates 3; weekday_count dates 4;
         weekday_count dates 5; weekday_count dates 6;
         weekday_count dates 7]).
Proof.
  intros H. unfold counted. simpl repeat.
  rewrite (count_commits_spec H). reflexivity.
Qed.

(** X8. The days of the week are counted by ISO weekday, Monday first,
    and are not rotated; every commit is counted once. *)
Theorem week_days_counted (dates : list datetime) :
  Forall valid_date dates ->
  exists raw week_days : list Z,
    counted dates = Ok (raw, week_days)
    /\ length week_days = 7%nat
    /\ (forall i : nat, (i < 7)%nat ->
          nth i week_days 0%Z = weekday_count dates (Z.of_nat i + 1))
    /\ sum week_days = len dates.
Proof.
  intros H. do 2 eexists. split; [apply (counted_spec H)|].
  split; [reflexivity|]. split.
  - intros i Hi.
    destruct i as [|[|[|[|[|[|[|i]]]]]]]; try reflexivity. lia.
  - pose proof (weekday_count_total H) as T. unfold sum. simpl. lia.
Qed.

Lemma week_days_counted_witness :
  Forall valid_date [Build_datetime 1 1; Build_datetime 8 7;
                     Build_datetime 9 7]
  /\ exists raw : list Z,
       counted [Build_datetime 1 1; Build_datetime 8 7; Build_datetime 9 7]
       = Ok (raw, [1; 0; 0; 0; 0; 0; 2]%Z).
Proof.
  assert (H : Forall valid_date [Build_datetime 1 1; Build_datetime 8 7;
                                 Build_datetime 9 7]).
  { repeat constructor; simpl; lia. }
  split; [exact H|].
  destruct (week_days_counted H) as (raw & week_days & E & _).
  vm_compute in E. injection E as <- <-.
  eexists. vm_compute. reflexivity.
Defined.

Lemma filter_length_perm {A} (f : A -> bool) (l l' : list A) :
  Permutation l l' -> length (filter f l) = length (filter f l').
Proof.
  induction 1 as [|x l l' _ IH|x y l|l l' l'' _ IH1 _ IH2]; simpl.
  - reflexivity.
  - destruct (f x); simpl; congruence.
  - destruct (f x), (f y); reflexivity.
  - congruence.
Qed.

(** X9. The counters do not depend on the order in which the commits are
    visited. *)
Theorem counted_any_order (dates dates' : list datetime) :
  Forall valid_date dates -> Permutation dates dates' ->
  counted dates' = counted dates.
Proof.
  intros H P.
  assert (H' : Forall valid_date dates').
  { apply (Permutation_Forall P). exact H. }
  rewrite (counted_spec H), (counted_spec H').
  unfold bucket_count, weekday_count.
  rewrite !(filter_length_perm _ P). reflexivity.
Qed.

Lemma counted_any_order_witness :
  (Forall valid_date [Build_datetime 1 1; Build_datetime 8 7]
   /\ Permutation [Build_datetime 1 1; Build_datetime 8 7]
                  [Build_datetime 8 7; Build_datetime 1 1])
  /\ counted [Build_datetime 8 7; Build_datetime 1 1]
     = counted [Build_datetime 1 1; Build_datetime 8 7].
Proof.
  assert (H : Forall valid_date [Build_datetime 1 1; Build_datetime 8 7]).
  { repeat constructor; simpl; lia. }
  assert (P : Permutation [Build_datetime 1 1; Build_datetime 8 7]
                          [Build_datetime 8 7; Build_datetime 1 1])
    by apply perm_swap.
  split; [split; assumption|].
  apply (counted_any_order H P).
Defined.

Lemma week_percents_between (dates : list datetime) :
  Forall valid_date dates -> dates <> [] ->
  exists wd_percents : list float,
    percents_of [weekday_count dates 1; weekday_count dates 2;
                 weekday_count dates 3; weekday_count dates 4;
                 weekday_count dates 5; weekday_count dates 6;
                 weekday_count dates 7]
                (sum [weekday_count dates 1; weekday_count dates 2;
                      weekday_count dates 3; weekday_count dates 4;
                      weekday_count dates 5; weekday_count dates 6;
                      weekday_count dates 7]) = Ok wd_percents
    /\ length wd_percents = 7%nat
    /\ Forall (fun p => (0 <= p <= 100)%Q) wd_percents.
Proof.
  intros H Hne.
  pose proof (weekday_count_total H) as T.
  pose proof (weekday_count_nonneg dates 1).
  pose proof (weekday_count_nonneg dates 2).
  pose proof (weekday_count_nonneg dates 3).
  pose proof (weekday_count_nonneg dates 4).
  pose proof (weekday_count_nonneg dates 5).
  pose proof (weekday_count_nonneg dates 6).
  pose proof (weekday_count_nonneg dates 7).
  assert (L : (0 < len dates)%Z).
  { unfold len. destruct dates; [contradiction|simpl; lia]. }
  set (week_days := [weekday_count dates 1; weekday_count dates 2;
                     weekday_count dates 3; weekday_count dates 4;
                     weekday_count dates 5; weekday_count dates 6;
                     weekday_count dates 7]).
  assert (S : sum week_days = len dates).
  { unfold week_days, sum. simpl. lia. }
  rewrite S.
  destruct (@percents_of_between (len dates) week_days) as (ps & E & Lp & F).
  { exact L. }
  { unfold week_days. repeat (apply Forall_cons; [lia|]). apply Forall_nil. }
  exists ps. split; [exact E|]. split; [rewrite Lp; reflexivity|exact F].
Qed.

Lemma day_percents_between (dates : list datetime) :
  Forall valid_date dates -> dates <> [] ->
  exists dt_percents : list float,
    percents_of [bucket_count dates 1; bucket_count dates 2;
                 bucket_count dates 3; bucket_count dates 0]
                (sum [bucket_count dates 0; bucket_count dates 1;
                      bucket_count dates 2; bucket_count dates 3])
    = Ok dt_percents
    /\ length dt_percents = 4%nat
    /\ Forall (fun p => (0 <= p <= 100)%Q) dt_percents.
Proof.
  intros H Hne.
  destruct (day_time_percents_between H Hne)
    as (raw & week_days & ps & E & P & L & F).
  rewrite (counted_spec H) in E. injection E as <- _.
  exists ps. split; [exact P|]. split; assumption.
Qed.

(** X10. With at least one commit, the four percents of the times of day
    and the seven percents of the days of the week are computed without
    an error and lie between 0 and 100. *)
Theorem commit_percents_between (dates : list datetime) :
  Forall valid_date dates -> dates <> [] ->
  exists (raw week_days : list Z) (dt_percents wd_percents : list float),
    counted dates = Ok (raw, week_days)
    /\ percents_of (rotated raw) (sum raw) = Ok dt_percents
    /\ percents_of week_days (sum week_days) = Ok wd_percents
    /\ length dt_percents = 4%nat
    /\ length wd_percents = 7%nat
    /\ Forall (fun p => (0 <= p <= 100)%Q) (dt_percents ++ wd_percents).
Proof.
  intros H Hne.
  destruct (day_percents_between H Hne) as (dps & Ed & Ld & Fd).
  destruct (week_percents_between H Hne) as (wps & Ew & Lw & Fw).
  do 2 eexists. exists dps, wps.
  split; [apply (counted_spec H)|].
  split; [exact Ed|]. split; [exact Ew|].
  split; [exact Ld|]. split; [exact Lw|].
  apply Forall_app. split; assumption.
Qed.

Lemma commit_percents_between_witness :
  (Forall valid_date [Build_datetime 1 1; Build_datetime 8 7;
                      Build_datetime 9 7]
   /\ [Build_datetime 1 1; Build_datetime 8 7; Build_datetime 9 7] <> [])
  /\ exists dt_percents : list float,
       percents_of (rotated [1; 2; 0; 0]%Z) 3 = Ok dt_percents
       /\ Forall (fun p => (0 <= p <= 100)%Q) dt_percents.
Proof.
  assert (H : Forall valid_date [Build_datetime 1 1; Build_datetime 8 7;
                                 Build_datetime 9 7]).
  { repeat constructor; simpl; lia. }
  assert (N : [Build_datetime 1 1; Build_datetime 8 7; Build_datetime 9 7]
              <> []) by discriminate.
  split; [split; assumption|].
  destruct (commit_percents_between H N)
    as (raw & week_days & dps & wps & E & Ed & _ & _ & _ & F).
  exists dps. rewrite (counted_spec H) in E. injection E as <- _.
  split; [exact Ed|]. apply Forall_app in F. apply F.
Defined.

(** The largest element of a list of floats and its first index. *)
Lemma index_of_max (l : list float) :
  l <> [] ->
  exists (best : float) (i : nat),
    max_float l = Ok best
    /\ index_float l best = Ok i
    /\ (i < length l)%nat
    /\ (nth i l 0 == best)%Q
    /\ Forall (fun x => (x <= best)%Q) l
    /\ (forall j, (j < i)%nat -> (nth j l 0 < best)%Q).
Proof.
  induction l as [|x l IH]; intros Hne; [contradiction|].
  destruct l as [|y l].
  - exists x, O.
    split; [reflexivity|].
    split; [cbn [index_float]; rewrite Qeq_bool_refl; reflexivity|].
    split; [simpl; lia|]. split; [apply Qeq_refl|].
    split; [repeat constructor; apply Qle_refl|intros j Hj; lia].
  - destruct IH as (m & i & Em & Ei & Li & Ni & Fm & Bm); [discriminate|].
    assert (Ex : forall best,
               max_float (x :: y :: l) = Ok best ->
               Forall (fun z => (z <= best)%Q) (x :: y :: l) ->
               (x == best)%Q ->
               exists (best : float) (i : nat),
                 max_float (x :: y :: l) = Ok best
                 /\ index_float (x :: y :: l) best = Ok i
                 /\ (i < length (x :: y :: l))%nat
                 /\ (nth i (x :: y :: l) 0 == best)%Q
                 /\ Forall (fun z => (z <= best)%Q) (x :: y :: l)
                 /\ (forall j, (j < i)%nat ->
                               (nth j (x :: y :: l) 0 < best)%Q)).
    { intros best Eb Fb Q. exists best, O.
      split; [exact Eb|].
      split.
      { cbn [index_float].
        rewrite (proj2 (Qeq_bool_iff x best) Q). reflexivity. }
      split; [simpl; lia|]. split; [exact Q|].
      split; [exact Fb|intros j Hj; lia]. }
    assert (Mx : max_float (x :: y :: l)
                 = Ok (match Qcompare x m with Lt => m | _ => x end)).
    { change (max_float (x :: y :: l))
        with (bind (max_float (y :: l))
                (fun m => Ok (match Qcompare x m with Lt => m | _ => x end))).
      rewrite Em. reflexivity. }
    destruct (Qcompare_spec x m) as [C|C|C].
    + apply (Ex x Mx); [|apply Qeq_refl].
      constructor; [apply Qle_refl|].
      eapply Forall_impl; [|exact Fm]. intros z Hz. simpl in Hz.
      rewrite C. exact Hz.
    + exists m, (S i).
      assert (N : Qeq_bool x m = false).
      { destruct (Qeq_bool x m) eqn:Q; [|reflexivity].
        apply Qeq_bool_iff in Q. rewrite Q in C.
        destruct (Qlt_irrefl _ C). }
      split; [exact Mx|].
      split.
      { change (index_float (x :: y :: l) m)
          with (if Qeq_bool x m then Ok O
                else bind (index_float (y :: l) m) (fun i => Ok (S i))).
        rewrite N, Ei. reflexivity. }
      split; [simpl in *; lia|]. split; [exact Ni|].
      split; [constructor; [apply Qlt_le_weak; exact C|exact Fm]|].
      intros [|j] Hj; [exact C|]. apply Bm. lia.
    + apply (Ex x Mx); [|apply Qeq_refl].
      constructor; [apply Qle_refl|].
      eapply Forall_impl; [|exact Fm]. intros z Hz. simpl in Hz.
      apply Qle_trans with m; [exact Hz|apply Qlt_le_weak; exact C].
Qed.

End CommitReport.

Section CommitReportText.

Import Formatter.

Variable LM_t : str -> str.
Variable str_mod : str -> str -> result str.
Hypothesis str_mod_total :
  forall template argument : str,
    exists line : str, str_mod template argument = Ok line.

Lemma fenced_total (EM : EnvironmentManager) (ns ts : list str)
  (ps : list float) (top_num : Z) (sort : bool) :
  valid_version (SYMBOL_VERSION EM) ->
  exists table : str,
    fenced EM ns ts ps top_num sort
    = Ok (lit "```text" ++ [10%Z] ++ table ++ [10%Z] ++ lit "```"
          ++ [10%Z]).
Proof.
  intros Hv.
  destruct (@rows_total EM (top_data (zip3 ns ts ps) top_num sort) Hv)
    as (rows & E & _).
  exists (join [10%Z] rows). unfold fenced.
  rewrite (@make_list_rows EM None (Some ns) (Some ts) (Some ps) top_num
             sort rows); [reflexivity|].
  rewrite data_list_parallel. exact E.
Qed.

Lemma getitem_total {A} (l : list A) (i : nat) :
  (i < length l)%nat -> exists x, getitem l i = Ok x.
Proof.
  intros H. unfold getitem.
  destruct (nth_error l i) as [x|] eqn:E; [exists x; reflexivity|].
  apply nth_error_None in E. lia.
Qed.

Lemma early_bird_test (dates : list datetime) :
  (sum (firstn 2 [bucket_count dates 1; bucket_count dates 2;
                  bucket_count dates 3; bucket_count dates 0])
   >=? sum (firstn 2 (skipn 2 [bucket_count dates 1; bucket_count dates 2;
                               bucket_count dates 3; bucket_count dates 0])))%Z
  = early_bird dates.
Proof.
  unfold early_bird, sum. simpl. rewrite Z.geb_leb. reflexivity.
Qed.

(** The commit report with at least one commit. *)
Lemma commit_report_shape (EM : EnvironmentManager) (dates : list datetime) :
  valid_version (SYMBOL_VERSION EM) ->
  Forall valid_date dates -> dates <> [] ->
  exists rest : str,
    make_commit_day_time_list LM_t str_mod EM dates
    = Ok (lit "**"
          ++ LM_t (if early_bird dates then lit "I am an Early"
                   else lit "I am a Night")
          ++ lit "** " ++ [10%Z; 10%Z] ++ lit "```text" ++ [10%Z] ++ rest).
Proof.
  intros Hv H Hne.
  destruct (day_percents_between H Hne) as (dps & Ed & _ & _).
  destruct (week_percents_between H Hne) as (wps & Ew & Lw & _).
  destruct (@index_of_max wps) as (best & i & Em & Ei & Li & _).
  { intros ->. discriminate Lw. }
  unfold make_commit_day_time_list.
  rewrite (counted_spec H). cbv beta iota zeta. cbn [bind].
  change (rotated [bucket_count dates 0; bucket_count dates 1;
                   bucket_count dates 2; bucket_count dates 3])
    with [bucket_count dates 1; bucket_count dates 2;
          bucket_count dates 3; bucket_count dates 0].
  cbn [length seq mapM getitem nth_error DAY_TIME_EMOJI DAY_TIME_NAMES bind].
  rewrite Ed. cbn [bind]. rewrite early_bird_test.
  match goal with
  | |- context [fenced EM ?ns ?ts dps 7 false] =>
      destruct (@fenced_total EM ns ts dps 7 false Hv) as (t1 & F1);
      rewrite F1
  end.
  cbn [bind].
  destruct (SHOW_DAYS_OF_WEEK EM).
  - rewrite Ew. cbn [bind]. rewrite Em. cbn [bind]. rewrite Ei. cbn [bind].
    destruct (@getitem_total _ (map LM_t WEEK_DAY_NAMES) i) as (day & Eg).
    { rewrite length_map. change (length WEEK_DAY_NAMES) with 7%nat. lia. }
    rewrite Eg. cbn [bind].
    destruct (str_mod_total (LM_t (lit "I am Most Productive on")) day)
      as (line & El).
    rewrite El. cbn [bind].
    match goal with
    | |- context [fenced EM ?ns ?ts wps 7 false] =>
        destruct (@fenced_total EM ns ts wps 7 false Hv) as (t2 & F2);
        rewrite F2
    end.
    cbn [bind].
    destruct (early_bird dates); eexists; f_equal; rewrite <- !app_assoc;
      reflexivity.
  - destruct (early_bird dates); eexists; f_equal; rewrite <- !app_assoc;
      reflexivity.
Qed.

Lemma fenced_rows (EM : EnvironmentManager) (ns ts : list str)
  (ps : list float) :
  valid_version (SYMBOL_VERSION EM) ->
  (length (zip3 ns ts ps) <= 7)%nat ->
  exists rows : list str,
    mapM (row EM) (zip3 ns ts ps) = Ok rows
    /\ fenced EM ns ts ps 7 false
       = Ok (lit "```text" ++ [10%Z] ++ join [10%Z] rows ++ [10%Z]
             ++ lit "```" ++ [10%Z]).
Proof.
  intros Hv Hl.
  destruct (@rows_total EM (zip3 ns ts ps) Hv) as (rows & E & _).
  exists rows. split; [exact E|]. unfold fenced.
  rewrite (@make_list_rows EM None (Some ns) (Some ts) (Some ps) 7 false
             rows); [reflexivity|].
  rewrite data_list_parallel. unfold top_data, slice_to.
  cbn [Z.leb Z.compare]. rewrite firstn_all2; [exact E|].
  change (Z.to_nat 7) with 7%nat. exact Hl.
Qed.

Lemma four_rows (EM : EnvironmentManager) (ns ts : list str)
  (ps : list float) (rows : list str) :
  length ns = 4%nat -> length ts = 4%nat -> length ps = 4%nat ->
  mapM (row EM) (zip3 ns ts ps) = Ok rows ->
  exists r1 r2 r3 r4 : str,
    rows = [r1; r2; r3; r4]
    /\ row EM (nth 0 ns [], nth 0 ts [], nth 0 ps 0%Q) = Ok r1
    /\ row EM (nth 1 ns [], nth 1 ts [], nth 1 ps 0%Q) = Ok r2
    /\ row EM (nth 2 ns [], nth 2 ts [], nth 2 ps 0%Q) = Ok r3
    /\ row EM (nth 3 ns [], nth 3 ts [], nth 3 ps 0%Q) = Ok r4.
Proof.
  intros Ln Lt Lp E.
  destruct ns as [|n1 [|n2 [|n3 [|n4 [|]]]]]; try discriminate Ln.
  destruct ts as [|t1 [|t2 [|t3 [|t4 [|]]]]]; try discriminate Lt.
  destruct ps as [|p1 [|p2 [|p3 [|p4 [|]]]]]; try discriminate Lp.
  cbn [zip3 mapM] in E. cbn [nth].
  destruct (row EM (n1, t1, p1)) as [r1|]; [|discriminate E].
  destruct (row EM (n2, t2, p2)) as [r2|]; [|discriminate E].
  destruct (row EM (n3, t3, p3)) as [r3|]; [|discriminate E].
  destruct (row EM (n4, t4, p4)) as [r4|]; [|discriminate E].
  cbn [bind] in E. injection E as <-.
  exists r1, r2, r3, r4. repeat split; reflexivity.
Qed.


(** The commit report with at least one commit, block by block. *)
Lemma commit_report_blocks (EM : EnvironmentManager)
  (dates : list datetime) :
  valid_version (SYMBOL_VERSION EM) ->
  Forall valid_date dates -> dates <> [] ->
  exists (dt_percents : list float) (rows : list str) (head : str),
    percents_of [bucket_count dates 1; bucket_count dates 2;
                 bucket_count dates 3; bucket_count dates 0]
                (sum [bucket_count dates 0; bucket_count dates 1;
                      bucket_count dates 2; bucket_count dates 3])
    = Ok dt_percents
    /\ length dt_percents = 4%nat
    /\ mapM (row EM)
            (zip3 (day_time_names LM_t)
                  (map commits_text
                       [bucket_count dates 1; bucket_count dates 2;
                        bucket_count dates 3; bucket_count dates 0])
                  dt_percents) = Ok rows
    /\ head = lit "**"
              ++ LM_t (if early_bird dates then lit "I am an Early"
                       else lit "I am a Night")
              ++ lit "** " ++ [10%Z; 10%Z] ++ lit "```text" ++ [10%Z]
              ++ join [10%Z] rows ++ [10%Z] ++ lit "```" ++ [10%Z]
    /\ make_commit_day_time_list LM_t str_mod (days_off EM) dates = Ok head
    /\ (SHOW_DAYS_OF_WEEK EM = false ->
        make_commit_day_time_list LM_t str_mod EM dates = Ok head)
    /\ (SHOW_DAYS_OF_WEEK EM = true ->
        exists (wd_percents : list float) (best : float) (i : nat)
               (day line : str) (wd_rows : list str),
          percents_of [weekday_count dates 1; weekday_count dates 2;
                       weekday_count dates 3; weekday_count dates 4;
                       weekday_count dates 5; weekday_count dates 6;
                       weekday_count dates 7]
                      (sum [weekday_count dates 1; weekday_count dates 2;
                            weekday_count dates 3; weekday_count dates 4;
                            weekday_count dates 5; weekday_count dates 6;
                            weekday_count dates 7]) = Ok wd_percents
          /\ max_float wd_percents = Ok best
          /\ index_float wd_percents best = Ok i
          /\ (i < 7)%nat
          /\ (nth i wd_percents 0 == best)%Q
          /\ Forall (fun p => (p <= best)%Q) wd_percents
          /\ (forall j, (j < i)%nat -> (nth j wd_percents 0 < best)%Q)
          /\ nth_error WEEK_DAY_NAMES i = Some day
          /\ str_mod (LM_t (lit "I am Most Productive on")) (LM_t day)
             = Ok line
          /\ mapM (row EM)
                  (zip3 (map LM_t WEEK_DAY_NAMES)
                        (map commits_text
                             [weekday_count dates 1; weekday_count dates 2;
                              weekday_count dates 3; weekday_count dates 4;
                              weekday_count dates 5; weekday_count dates 6;
                              weekday_count dates 7])
                        wd_percents) = Ok wd_rows
          /\ make_commit_day_time_list LM_t str_mod EM dates
             = Ok (head ++ [128197%Z] ++ lit " **" ++ line ++ lit "** "
                   ++ [10%Z; 10%Z] ++ lit "```text" ++ [10%Z]
                   ++ join [10%Z] wd_rows ++ [10%Z] ++ lit "```"
                   ++ [10%Z])).
Proof.
  intros Hv H Hne.
  destruct (day_percents_between H Hne) as (dps & Ed & Ld & _).
  destruct (@fenced_rows EM (day_time_names LM_t)
              (map commits_text
                   [bucket_count dates 1; bucket_count dates 2;
                    bucket_count dates 3; bucket_count dates 0]) dps Hv)
    as (rows & Er & F1).
  { rewrite zip3_length. cbn [length map day_time_names]. lia. }
  exists dps, rows. eexists.
  split; [exact Ed|]. split; [exact Ld|]. split; [exact Er|].
  split; [reflexivity|].
  assert (Open : forall EM' : EnvironmentManager,
            make_commit_day_time_list LM_t str_mod EM' dates
            = bind (fenced EM' (day_time_names LM_t)
                      (map commits_text
                           [bucket_count dates 1; bucket_count dates 2;
                            bucket_count dates 3; bucket_count dates 0])
                      dps 7 false) (fun table =>
              let stats :=
                lit "**"
                ++ LM_t (if early_bird dates then lit "I am an Early"
                         else lit "I am a Night")
                ++ lit "** " ++ [10%Z; 10%Z] ++ table in
              if SHOW_DAYS_OF_WEEK EM' then
                let week_days :=
                  [weekday_count dates 1; weekday_count dates 2;
                   weekday_count dates 3; weekday_count dates 4;
                   weekday_count dates 5; weekday_count dates 6;
                   weekday_count dates 7] in
                bind (percents_of week_days (sum week_days))
                     (fun wd_percents =>
                bind (max_float wd_percents) (fun best =>
                bind (index_float wd_percents best) (fun i =>
                bind (getitem (map LM_t WEEK_DAY_NAMES) i) (fun day =>
                bind (str_mod (LM_t (lit "I am Most Productive on")) day)
                     (fun title =>
                bind (fenced EM' (map LM_t WEEK_DAY_NAMES)
                        (map commits_text week_days) wd_percents 7 false)
                     (fun table =>
                Ok (stats ++ [128197%Z] ++ lit " **" ++ title ++ lit "** "
                    ++ [10%Z; 10%Z] ++ table)))))))
              else Ok stats)).
  { intros EM'. unfold make_commit_day_time_list.
    rewrite (counted_spec H). cbv beta iota zeta. cbn [bind].
    change (rotated [bucket_count dates 0; bucket_count dates 1;
                     bucket_count dates 2; bucket_count dates 3])
      with [bucket_count dates 1; bucket_count dates 2;
            bucket_count dates 3; bucket_count dates 0].
    cbn [length seq mapM getitem nth_error DAY_TIME_EMOJI DAY_TIME_NAMES
         bind].
    rewrite Ed. cbn [bind]. rewrite early_bird_test.
    destruct (early_bird dates); reflexivity. }
  split.
  { rewrite Open.
    change (fenced (days_off EM)) with (fenced EM).
    rewrite F1. cbn [bind]. cbv zeta.
    change (SHOW_DAYS_OF_WEEK (days_off EM)) with false. cbv iota.
    rewrite <- ?app_assoc. reflexivity. }
  split.
  { intros Es. rewrite Open, F1. cbn [bind]. cbv zeta. rewrite Es.
    rewrite <- ?app_assoc. reflexivity. }
  intros Es. rewrite Open, F1. cbn [bind]. cbv zeta. rewrite Es.
  destruct (week_percents_between H Hne) as (wps & Ew & Lw & _).
  destruct (@index_of_max wps) as (best & i & Em & Ei & Li & Hb & Hle & Hlt).
  { intros ->. discriminate Lw. }
  rewrite Lw in Li.
  destruct (@fenced_rows EM (map LM_t WEEK_DAY_NAMES)
              (map commits_text
                   [weekday_count dates 1; weekday_count dates 2;
                    weekday_count dates 3; weekday_count dates 4;
                    weekday_count dates 5; weekday_count dates 6;
                    weekday_count dates 7]) wps Hv)
    as (wd_rows & Ewr & F2).
  { rewrite zip3_length. cbn [length map WEEK_DAY_NAMES]. lia. }
  destruct (nth_error WEEK_DAY_NAMES i) as [day|] eqn:En.
  2:{ apply nth_error_None in En.
      change (length WEEK_DAY_NAMES) with 7%nat in En. lia. }
  destruct (str_mod_total (LM_t (lit "I am Most Productive on"))
              (LM_t day)) as (line & El).
  exists wps, best, i, day, line, wd_rows.
  split; [exact Ew|]. split; [exact Em|]. split; [exact Ei|].
  split; [exact Li|]. split; [exact Hb|]. split; [exact Hle|].
  split; [exact Hlt|]. split; [exact En|]. split; [exact El|].
  split; [exact Ewr|].
  rewrite Ew. cbn [bind]. rewrite Em. cbn [bind]. rewrite Ei. cbn [bind].
  unfold getitem. rewrite nth_error_map, En. cbn [option_map bind].
  rewrite El. cbn [bind]. rewrite F2. cbn [bind].
  rewrite <- ?app_assoc. reflexivity.
Qed.


End CommitReportText.

(** X12. With a symbol version the enumeration knows and a [%] that
    succeeds, the commit report raises [ZeroDivisionError] when there is
    no commit and is returned otherwise; it then opens with the title,
    which is the early one exactly when the commits from 6 h to 18 h are
    at least as many as those from 18 h to 6 h. *)
Theorem commit_report_returns (LM_t : str -> str)
  (str_mod : str -> str -> result str) (EM : EnvironmentManager)
  (dates : list Formatter.datetime) :
  (forall template argument : str,
     exists line : str, str_mod template argument = Ok line) ->
  valid_version (SYMBOL_VERSION EM) ->
  Forall valid_date dates ->
  (dates = [] ->
   Formatter.make_commit_day_time_list LM_t str_mod EM dates
   = Raise ZeroDivisionError)
  /\ (dates <> [] ->
      exists rest : str,
        Formatter.make_commit_day_time_list LM_t str_mod EM dates
        = Ok (lit "**"
              ++ LM_t (if early_bird dates then lit "I am an Early"
                       else lit "I am a Night")
              ++ lit "** " ++ [10%Z; 10%Z] ++ lit "```text" ++ [10%Z]
              ++ rest)).
Proof.
  intros Hm Hv H. split.
  - intros ->. reflexivity.
  - intros Hne. apply commit_report_shape; assumption.
Qed.

Lemma plain_mod_total (template argument : str) :
  exists line : str, plain_mod template argument = Ok line.
Proof. eexists. reflexivity. Qed.

Lemma commit_report_returns_witness :
  ((forall template argument : str,
      exists line : str, plain_mod template argument = Ok line)
   /\ valid_version (SYMBOL_VERSION EM_waka)
   /\ Forall valid_date [Formatter.Build_datetime 20 1;
                         Formatter.Build_datetime 8 7;
                         Formatter.Build_datetime 23 7])
  /\ exists rest : str,
       Formatter.make_commit_day_time_list plain_t plain_mod EM_waka
         [Formatter.Build_datetime 20 1; Formatter.Build_datetime 8 7;
          Formatter.Build_datetime 23 7]
       = Ok (lit "**I am a Night** " ++ [10%Z; 10%Z] ++ lit "```text"
             ++ [10%Z] ++ rest).
Proof.
  assert (Hv : valid_version (SYMBOL_VERSION EM_waka)) by (left; reflexivity).
  assert (H : Forall valid_date [Formatter.Build_datetime 20 1;
                                 Formatter.Build_datetime 8 7;
                                 Formatter.Build_datetime 23 7]).
  { repeat constructor; simpl; lia. }
  split; [repeat split; [apply plain_mod_total|exact Hv|exact H]|].
  destruct (@commit_report_returns plain_t plain_mod EM_waka _
              plain_mod_total Hv H) as [_ R].
  destruct R as (rest & E); [discriminate|].
  exists rest. rewrite E. reflexivity.
Defined.

(** C9. A commit is counted in the bucket [hour // 6]; when the counting
    is over the four counters are rotated left by one, which moves the
    counters and changes none of them; and the report publishes them in
    this order: its four rows are, from the top, the morning with the
    commits from 6 h to 12 h, the daytime with those from 12 h to 18 h,
    the evening with those from 18 h to 24 h and the night with those from
    0 h to 6 h. *)
Theorem day_time_rotation (LM_t : str -> str)
  (str_mod : str -> str -> result str) (EM : EnvironmentManager)
  (dates : list Formatter.datetime) :
  Forall valid_date dates ->
  exists (raw week_days : list Z),
    Formatter.counted dates = Ok (raw, week_days)
    /\ raw = [bucket_count dates 0; bucket_count dates 1;
              bucket_count dates 2; bucket_count dates 3]
    /\ Formatter.rotated raw
       = [bucket_count dates 1; bucket_count dates 2;
          bucket_count dates 3; bucket_count dates 0]
    /\ (forall i : nat, (i < 4)%nat ->
          nth i (Formatter.rotated raw) 0%Z = nth ((i + 1) mod 4) raw 0%Z)
    /\ Permutation (Formatter.rotated raw) raw
    /\ sum (Formatter.rotated raw) = sum raw
    /\ sum raw = len dates
    /\ ((forall template argument : str,
           exists line : str, str_mod template argument = Ok line) ->
        valid_version (SYMBOL_VERSION EM) -> dates <> [] ->
        exists (p1 p2 p3 p0 : float)
               (morning daytime evening night rest : str),
          Formatter.percents_of (Formatter.rotated raw) (sum raw)
          = Ok [p1; p2; p3; p0]
          /\ Formatter.row EM
               ([127774%Z] ++ lit " " ++ LM_t (lit "Morning"),
                str_of_int (bucket_count dates 1) ++ lit " commits", p1)
             = Ok morning
          /\ Formatter.row EM
               ([127750%Z] ++ lit " " ++ LM_t (lit "Daytime"),
                str_of_int (bucket_count dates 2) ++ lit " commits", p2)
             = Ok daytime
          /\ Formatter.row EM
               ([127747%Z] ++ lit " " ++ LM_t (lit "Evening"),
                str_of_int (bucket_count dates 3) ++ lit " commits", p3)
             = Ok evening
          /\ Formatter.row EM
               ([127769%Z] ++ lit " " ++ LM_t (lit "Night"),
                str_of_int (bucket_count dates 0) ++ lit " commits", p0)
             = Ok night
          /\ Formatter.make_commit_day_time_list LM_t str_mod EM dates
             = Ok (lit "**"
                   ++ LM_t (if early_bird dates then lit "I am an Early"
                            else lit "I am a Night")
                   ++ lit "** " ++ [10%Z; 10%Z] ++ lit "```text" ++ [10%Z]
                   ++ morning ++ [10%Z] ++ daytime ++ [10%Z]
                   ++ evening ++ [10%Z] ++ night
                   ++ [10%Z] ++ lit "```" ++ [10%Z] ++ rest)).
Proof.
  intros H.
  destruct (day_time_counts H)
    as (raw & week_days & E & R & Rr & Hi & Hp & Hs & Hl).
  exists raw, week_days.
  split; [exact E|]. split; [exact R|]. split; [exact Rr|].
  split; [exact Hi|]. split; [exact Hp|]. split; [exact Hs|].
  split; [exact Hl|].
  intros Hm Hv Hne.
  destruct (@commit_report_blocks LM_t str_mod Hm EM dates Hv H Hne)
    as (dps & rows & head & Ed & Ld & Er & Eh & _ & Off & On).
  destruct (@four_rows EM (day_time_names LM_t)
              (map commits_text
                   [bucket_count dates 1; bucket_count dates 2;
                    bucket_count dates 3; bucket_count dates 0])
              dps rows eq_refl eq_refl Ld Er)
    as (r1 & r2 & r3 & r4 & -> & E1 & E2 & E3 & E4).
  destruct dps as [|p1 [|p2 [|p3 [|p0 [|]]]]]; try discriminate Ld.
  exists p1, p2, p3, p0, r1, r2, r3, r4.
  assert (J : head
              = (lit "**"
                 ++ LM_t (if early_bird dates then lit "I am an Early"
                          else lit "I am a Night")
                 ++ lit "** " ++ [10%Z; 10%Z] ++ lit "```text" ++ [10%Z]
                 ++ r1 ++ [10%Z] ++ r2 ++ [10%Z] ++ r3 ++ [10%Z] ++ r4
                 ++ [10%Z] ++ lit "```" ++ [10%Z]) ++ []).
  { rewrite app_nil_r, Eh. cbn [join]. rewrite <- ?app_assoc. reflexivity. }
  destruct (SHOW_DAYS_OF_WEEK EM) eqn:Es.
  - destruct (On eq_refl)
      as (wps & best & i & day & line & wd_rows & _ & _ & _ & _ & _ & _
          & _ & _ & _ & _ & Em).
    eexists.
    split; [rewrite Rr, R; exact Ed|].
    split; [exact E1|]. split; [exact E2|]. split; [exact E3|].
    split; [exact E4|].
    rewrite Em, J, app_nil_r. rewrite <- ?app_assoc. reflexivity.
  - exists [].
    split; [rewrite Rr, R; exact Ed|].
    split; [exact E1|]. split; [exact E2|]. split; [exact E3|].
    split; [exact E4|].
    rewrite (Off eq_refl), J. rewrite <- ?app_assoc. reflexivity.
Qed.

Lemma day_time_rotation_witness :
  Forall valid_date
         [Formatter.Build_datetime 1 1; Formatter.Build_datetime 8 2;
          Formatter.Build_datetime 9 2; Formatter.Build_datetime 14 7;
          Formatter.Build_datetime 20 5]
  /\ exists (week_days : list Z) (morning tail : str),
       Formatter.counted
         [Formatter.Build_datetime 1 1; Formatter.Build_datetime 8 2;
          Formatter.Build_datetime 9 2; Formatter.Build_datetime 14 7;
          Formatter.Build_datetime 20 5]
       = Ok ([1; 2; 1; 1]%Z, week_days)
       /\ Formatter.rotated [1; 2; 1; 1]%Z = [2; 1; 1; 1]%Z
       /\ Formatter.row EM_waka
            ([127774%Z] ++ lit " Morning", lit "2 commits", 40 # 1)
          = Ok morning
       /\ Formatter.make_commit_day_time_list plain_t plain_mod EM_waka
            [Formatter.Build_datetime 1 1; Formatter.Build_datetime 8 2;
             Formatter.Build_datetime 9 2; Formatter.Build_datetime 14 7;
             Formatter.Build_datetime 20 5]
          = Ok (lit "**I am an Early** " ++ [10%Z; 10%Z] ++ lit "```text"
                ++ [10%Z] ++ morning ++ [10%Z] ++ tail).
Proof.
  assert (H : Forall valid_date
                [Formatter.Build_datetime 1 1; Formatter.Build_datetime 8 2;
                 Formatter.Build_datetime 9 2;
                 Formatter.Build_datetime 14 7;
                 Formatter.Build_datetime 20 5]).
  { repeat constructor; simpl; lia. }
  assert (Hv : valid_version (SYMBOL_VERSION EM_waka)) by (left; reflexivity).
  split; [exact H|].
  destruct (@day_time_rotation plain_t plain_mod EM_waka _ H)
    as (raw & week_days & E & R & _ & _ & _ & _ & _ & P).
  destruct (P plain_mod_total Hv ltac:(discriminate))
    as (p1 & p2 & p3 & p0 & morning & daytime & evening & night & rest
        & Ep & E1 & _ & _ & _ & Em).
  subst raw. vm_compute in Ep. injection Ep as <- <- <- <-.
  exists week_days, morning. eexists.
  split; [exact E|]. split; [reflexivity|]. split; [exact E1|].
  rewrite Em. rewrite <- ?app_assoc. reflexivity.
Defined.

(** X11. With the days of the week shown and at least one commit, the
    report is the report without the days of the week followed by a
    second block, whose title names the most productive day: the
    localized [I am Most Productive on], filled in with the localized name
    of the first day of the week, from Monday on, whose percent is the
    largest. *)
Theorem most_productive_day (LM_t : str -> str)
  (str_mod : str -> str -> result str) (EM : EnvironmentManager)
  (dates : list Formatter.datetime) :
  (forall template argument : str,
     exists line : str, str_mod template argument = Ok line) ->
  valid_version (SYMBOL_VERSION EM) ->
  Forall valid_date dates -> dates <> [] ->
  SHOW_DAYS_OF_WEEK EM = true ->
  exists (raw week_days : list Z) (wd_percents : list float)
         (best : float) (i : nat) (day line head rest : str),
    Formatter.counted dates = Ok (raw, week_days)
    /\ Formatter.percents_of week_days (sum week_days) = Ok wd_percents
    /\ Formatter.max_float wd_percents = Ok best
    /\ Formatter.index_float wd_percents best = Ok i
    /\ (i < 7)%nat
    /\ (nth i wd_percents 0 == best)%Q
    /\ Forall (fun p => (p <= best)%Q) wd_percents
    /\ (forall j, (j < i)%nat -> (nth j wd_percents 0 < best)%Q)
    /\ nth_error Formatter.WEEK_DAY_NAMES i = Some day
    /\ str_mod (LM_t (lit "I am Most Productive on")) (LM_t day) = Ok line
    /\ Formatter.make_commit_day_time_list LM_t str_mod (days_off EM) dates
       = Ok head
    /\ Formatter.make_commit_day_time_list LM_t str_mod EM dates
       = Ok (head ++ [128197%Z] ++ lit " **" ++ line ++ lit "** "
             ++ [10%Z; 10%Z] ++ lit "```text" ++ [10%Z] ++ rest).
Proof.
  intros Hm Hv H Hne Es.
  destruct (@commit_report_blocks LM_t str_mod Hm EM dates Hv H Hne)
    as (dps & rows & head & _ & _ & _ & _ & Eo & _ & On).
  destruct (On Es)
    as (wps & best & i & day & line & wd_rows & Ew & Em & Ei & Li & Hb
        & Hle & Hlt & En & El & _ & Er).
  do 2 eexists. exists wps, best, i, day, line, head. eexists.
  split; [apply (counted_spec H)|]. split; [exact Ew|].
  split; [exact Em|]. split; [exact Ei|]. split; [exact Li|].
  split; [exact Hb|]. split; [exact Hle|]. split; [exact Hlt|].
  split; [exact En|]. split; [exact El|]. split; [exact Eo|].
  rewrite Er. reflexivity.
Qed.

Lemma most_productive_day_witness :
  ((forall template argument : str,
      exists line : str, plain_mod template argument = Ok line)
   /\ valid_version (SYMBOL_VERSION EM_waka)
   /\ Forall valid_date [Formatter.Build_datetime 1 3;
                         Formatter.Build_datetime 8 7;
                         Formatter.Build_datetime 9 5]
   /\ [Formatter.Build_datetime 1 3; Formatter.Build_datetime 8 7;
       Formatter.Build_datetime 9 5] <> []
   /\ SHOW_DAYS_OF_WEEK EM_waka = true)
  /\ exists head rest : str,
       Formatter.make_commit_day_time_list plain_t plain_mod EM_waka
         [Formatter.Build_datetime 1 3; Formatter.Build_datetime 8 7;
          Formatter.Build_datetime 9 5]
       = Ok (head ++ [128197%Z]
             ++ lit " **I am Most Productive on Wednesday** "
             ++ [10%Z; 10%Z] ++ lit "```text" ++ [10%Z] ++ rest).
Proof.
  assert (Hv : valid_version (SYMBOL_VERSION EM_waka)) by (left; reflexivity).
  assert (H : Forall valid_date [Formatter.Build_datetime 1 3;
                                 Formatter.Build_datetime 8 7;
                                 Formatter.Build_datetime 9 5]).
  { repeat constructor; simpl; lia. }
  assert (N : [Formatter.Build_datetime 1 3; Formatter.Build_datetime 8 7;
               Formatter.Build_datetime 9 5] <> []) by discriminate.
  split; [repeat split; [apply plain_mod_total|exact Hv|exact H|exact N]|].
  destruct (@most_productive_day plain_t plain_mod EM_waka _
              plain_mod_total Hv H N eq_refl)
    as (raw & week_days & wps & best & i & day & line & head & rest
        & E & Ew & Em & Ei & _ & _ & _ & _ & En & El & _ & Er).
  rewrite (counted_spec H) in E. injection E as _ <-.
  vm_compute in Ew. injection Ew as <-.
  vm_compute in Em. injection Em as <-.
  vm_compute in Ei. injection Ei as <-.
  vm_compute in En. injection En as <-.
  unfold plain_mod, plain_t in El. injection El as <-.
  exists head, rest. rewrite Er. rewrite <- ?app_assoc. reflexivity.
Defined.

Section LanguageCounts.

Import Formatter.

Lemma str_eqb_eq (a b : str) : str_eqb a b = true <-> a = b.
Proof.
  unfold str_eqb. destruct (str_eq_dec a b); split; congruence.
Qed.

Lemma keys_set_known (d : dict) (k : str) (v : Z) :
  In k (keys d) -> keys (dict_set d k v) = keys d.
Proof.
  unfold keys. induction d as [|[k0 v0] d IH]; simpl; [tauto|].
  intros H. destruct (str_eq_dec k0 k) as [E|N].
  - subst k0. rewrite str_eqb_refl. reflexivity.
  - rewrite (str_eqb_neq N). simpl. f_equal. apply IH.
    destruct H; [contradiction|assumption].
Qed.

Lemma keys_set_new (d : dict) (k : str) (v : Z) :
  ~ In k (keys d) -> keys (dict_set d k v) = keys d ++ [k].
Proof.
  unfold keys. induction d as [|[k0 v0] d IH]; simpl; [reflexivity|].
  intros H. destruct (str_eq_dec k0 k) as [E|N]; [tauto|].
  rewrite (str_eqb_neq N). simpl. f_equal. apply IH. tauto.
Qed.

Lemma keys_count_language (d : dict) (l : str) :
  keys (count_language d l)
  = if in_dec str_eq_dec l (keys d) then keys d else keys d ++ [l].
Proof.
  unfold count_language. destruct (in_dec str_eq_dec l (keys d)) as [H|H].
  - rewrite keys_set_known; rewrite keys_set_known; auto.
  - rewrite keys_set_known.
    + apply keys_set_new. exact H.
    + rewrite keys_set_new by exact H. apply in_or_app. right. left.
      reflexivity.
Qed.

Lemma filter_filter {A} (f g : A -> bool) (l : list A) :
  filter f (filter g l) = filter (fun x => g x && f x) l.
Proof.
  induction l as [|x l IH]; simpl; [reflexivity|].
  destruct (g x); simpl; [destruct (f x)|]; rewrite ?IH; reflexivity.
Qed.

Lemma filter_same {A} (f g : A -> bool) (l : list A) :
  (forall x, In x l -> f x = g x) -> filter f l = filter g l.
Proof.
  induction l as [|x l IH]; intros H; simpl; [reflexivity|].
  rewrite (H x (or_introl eq_refl)), IH; [reflexivity|].
  intros y Hy. apply H. right. exact Hy.
Qed.

Lemma distinct_filter (f : str -> bool) (l : list str) :
  distinct (filter f l) = filter f (distinct l).
Proof.
  induction l as [|x l IH]; [reflexivity|].
  cbn [filter distinct]. destruct (f x) eqn:Fx.
  - cbn [distinct]. rewrite IH, !filter_filter. f_equal.
    apply filter_same. intros y _. apply andb_comm.
  - rewrite IH, filter_filter. apply filter_same.
    intros y _. destruct (str_eq_dec x y) as [E|N].
    + subst y. rewrite Fx, str_eqb_refl. reflexivity.
    + rewrite (str_eqb_neq N). reflexivity.
Qed.

Lemma keys_language_count (langs : list str) (d : dict) :
  keys (fold_left count_language langs d)
  = keys d ++ distinct (filter (unseen (keys d)) langs).
Proof.
  revert d. induction langs as [|l langs IH]; intros d.
  - simpl. rewrite app_nil_r. reflexivity.
  - cbn [fold_left filter]. rewrite IH, keys_count_language.
    unfold unseen at 2.
    destruct (in_dec str_eq_dec l (keys d)) as [H|H]; [reflexivity|].
    cbn [distinct]. rewrite <- app_assoc. f_equal. cbn [app]. f_equal.
    rewrite <- distinct_filter, filter_filter. f_equal.
    apply filter_same. intros y _. unfold unseen.
    destruct (in_dec str_eq_dec y (keys d ++ [l])) as [I|I];
      destruct (in_dec str_eq_dec y (keys d)) as [J|J]; simpl.
    + reflexivity.
    + apply in_app_or in I. destruct I as [I|[I|[]]]; [contradiction|].
      subst y. rewrite str_eqb_refl. reflexivity.
    + exfalso. apply I. apply in_or_app. left. exact J.
    + destruct (str_eq_dec l y) as [E|N].
      * subst y. exfalso. apply I. apply in_or_app. right. left.
        reflexivity.
      * rewrite (str_eqb_neq N). reflexivity.
Qed.

Lemma filter_all {A} (f : A -> bool) (l : list A) :
  (forall x, In x l -> f x = true) -> filter f l = l.
Proof.
  induction l as [|x l IH]; intros H; simpl; [reflexivity|].
  rewrite (H x (or_introl eq_refl)), IH; [reflexivity|].
  intros y Hy. apply H. right. exact Hy.
Qed.

Lemma distinct_In (l : list str) (x : str) : In x (distinct l) <-> In x l.
Proof.
  induction l as [|y l IH]; simpl; [tauto|].
  rewrite filter_In, IH. split.
  - intros [E|[H _]]; auto.
  - intros [E|H]; [left; exact E|].
    destruct (str_eq_dec y x) as [E|N]; [left; exact E|].
    right. split; [exact H|]. rewrite (str_eqb_neq N). reflexivity.
Qed.

Lemma distinct_NoDup (l : list str) : NoDup (distinct l).
Proof.
  induction l as [|y l IH]; simpl; constructor.
  - rewrite filter_In. intros [_ H]. rewrite str_eqb_refl in H.
    discriminate H.
  - apply NoDup_filter. exact IH.
Qed.

(** X13. The names of the language report are the distinct primary
    languages in the order of their first occurrence, each once, and the
    count of a language is the number of repositories that have it. *)
Theorem language_count_spec (langs : list str) :
  let language_count := fold_left count_language langs [] in
  keys language_count = distinct langs
  /\ NoDup (keys language_count)
  /\ (forall k, In k (keys language_count) <-> In k langs)
  /\ (forall k, dict_get language_count k 0 = occurrences langs k).
Proof.
  intros language_count.
  assert (K : keys language_count = distinct langs).
  { unfold language_count. rewrite keys_language_count. simpl.
    rewrite filter_all; [reflexivity|]. intros x _. reflexivity. }
  split; [exact K|]. rewrite K.
  split; [apply distinct_NoDup|]. split; [apply distinct_In|].
  intros k. unfold language_count. rewrite language_count_get. reflexivity.
Qed.

(** The first of the elements of the largest key. *)
Lemma max_by_spec (key : str -> Z) (l : list str) :
  l <> [] ->
  exists (top : str) (pre post : list str),
    max_by key l = Ok top
    /\ l = pre ++ top :: post
    /\ Forall (fun x => (key x < key top)%Z) pre
    /\ Forall (fun x => (key x <= key top)%Z) post.
Proof.
  induction l as [|x l IH]; intros Hne; [contradiction|].
  destruct l as [|y l].
  - exists x, [], []. repeat split; constructor.
  - destruct IH as (m & pre & post & Em & El & Fp & Fq); [discriminate|].
    assert (Mx : max_by key (x :: y :: l)
                 = Ok (if (key x <? key m)%Z then m else x)).
    { change (max_by key (x :: y :: l))
        with (bind (max_by key (y :: l))
                (fun m => Ok (if (key x <? key m)%Z then m else x))).
      rewrite Em. reflexivity. }
    rewrite Mx. destruct (Z.ltb_spec (key x) (key m)) as [C|C].
    + exists m, (x :: pre), post. rewrite El.
      repeat split; [constructor; assumption|exact Fq].
    + exists x, [], (y :: l).
      repeat split; [constructor|]. rewrite El.
      apply Forall_app. split.
      * eapply Forall_impl; [|exact Fp]. intros z Hz. simpl in Hz. lia.
      * constructor; [lia|].
        eapply Forall_impl; [|exact Fq]. intros z Hz. simpl in Hz. lia.
Qed.

End LanguageCounts.

Section LanguageReportText.

Import Formatter.

Variable LM_t : str -> str.
Variable str_mod : str -> str -> result str.
Hypothesis str_mod_total :
  forall template argument : str,
    exists line : str, str_mod template argument = Ok line.

Lemma language_report_shape (EM : EnvironmentManager)
  (nodes : list repository) :
  valid_version (SYMBOL_VERSION EM) ->
  languages_of nodes <> [] ->
  let langs := languages_of nodes in
  exists (top line rest : str) (pre post : list str),
    distinct langs = pre ++ top :: post
    /\ Forall (fun l => (occurrences langs l < occurrences langs top)%Z) pre
    /\ Forall (fun l => (occurrences langs l <= occurrences langs top)%Z)
              post
    /\ str_mod (LM_t (lit "I Mostly Code in")) top = Ok line
    /\ make_language_per_repo_list LM_t str_mod EM nodes
       = Ok (lit "**" ++ line ++ lit "** " ++ [10%Z; 10%Z]
             ++ lit "```text" ++ [10%Z] ++ rest).
Proof.
  intros Hv Hne langs.
  destruct (language_count_spec langs) as (K & _ & _ & C).
  destruct (language_percents_between langs) as (percents & Ep & _).
  destruct (@max_by_spec
              (fun x => dict_get (fold_left count_language langs []) x 0%Z)
              (keys (fold_left count_language langs [])))
    as (top & pre & post & Em & El & Fp & Fq).
  { rewrite K. unfold langs. revert Hne.
    destruct (languages_of nodes); intros Hne; [contradiction|discriminate]. }
  destruct (str_mod_total (LM_t (lit "I Mostly Code in")) top)
    as (line & Es).
  unfold make_language_per_repo_list. fold langs. cbv zeta.
  rewrite Ep. cbn [bind]. rewrite Em. cbn [bind].
  assert (L : (len langs >? 0)%Z = true).
  { unfold len, langs. revert Hne.
    destruct (languages_of nodes); intros Hne; [contradiction|].
    apply (proj2 (Z.gtb_lt _ _)). simpl length. lia. }
  rewrite L, Es. cbn [bind].
  match goal with
  | |- context [fenced EM ?ns ?ts percents 5 true] =>
      destruct (@fenced_total EM ns ts percents 5 true Hv) as (t1 & F1);
      rewrite F1
  end.
  cbn [bind].
  exists top, line. eexists. exists pre, post.
  rewrite <- K. split; [exact El|].
  split.
  { eapply Forall_impl; [|exact Fp]. intros l Hl. simpl in Hl.
    rewrite !C in Hl. exact Hl. }
  split.
  { eapply Forall_impl; [|exact Fq]. intros l Hl. simpl in Hl.
    rewrite !C in Hl. exact Hl. }
  split; [exact Es|].
  f_equal. rewrite <- !app_assoc. reflexivity.
Qed.

End LanguageReportText.

(** X14. The percents of the language report are computed without an
    error and lie between 0 and 100: the count of a language is divided
    by the number of repositories that have a primary language. *)
Theorem language_report_percents (nodes : list Formatter.repository) :
  let langs := Formatter.languages_of nodes in
  let language_count := fold_left Formatter.count_language langs [] in
  exists percents : list float,
    mapM (fun lang =>
            bind (int_truediv (Formatter.dict_get language_count lang 0)
                              (len langs))
                 (fun share => Ok (round2 (float_mul share 100))))
         (Formatter.keys language_count) = Ok percents
    /\ length percents = length (distinct langs)
    /\ Forall (fun p => (0 <= p <= 100)%Q) percents.
Proof.
  intros langs language_count. subst language_count.
  destruct (language_percents_between langs) as (percents & E & F).
  exists percents. split; [exact E|]. split; [|exact F].
  apply mapM_Forall2, Forall2_length in E. rewrite <- E.
  destruct (language_count_spec langs) as (K & _).
  rewrite K. reflexivity.
Qed.

(** X15. With a symbol version the enumeration knows, a [%] that succeeds
    and at least one repository with a primary language, the language
    report is returned; it opens with the title, which names the first,
    in order of first occurrence, of the languages with the most
    repositories. *)
Theorem language_report_returns (LM_t : str -> str)
  (str_mod : str -> str -> result str) (EM : EnvironmentManager)
  (nodes : list Formatter.repository) :
  (forall template argument : str,
     exists line : str, str_mod template argument = Ok line) ->
  valid_version (SYMBOL_VERSION EM) ->
  Formatter.languages_of nodes <> [] ->
  let langs := Formatter.languages_of nodes in
  exists (top line rest : str) (pre post : list str),
    distinct langs = pre ++ top :: post
    /\ Forall (fun l => (occurrences langs l < occurrences langs top)%Z) pre
    /\ Forall (fun l => (occurrences langs l <= occurrences langs top)%Z)
              post
    /\ str_mod (LM_t (lit "I Mostly Code in")) top = Ok line
    /\ Formatter.make_language_per_repo_list LM_t str_mod EM nodes
       = Ok (lit "**" ++ line ++ lit "** " ++ [10%Z; 10%Z]
             ++ lit "```text" ++ [10%Z] ++ rest).
Proof.
  intros Hm Hv Hne. apply language_report_shape; assumption.
Qed.

Lemma language_report_returns_witness :
  ((forall template argument : str,
      exists line : str, plain_mod template argument = Ok line)
   /\ valid_version (SYMBOL_VERSION EM_waka)
   /\ Formatter.languages_of
        [Formatter.Build_repository (Some (lit "C"));
         Formatter.Build_repository None;
         Formatter.Build_repository (Some (lit "Go"));
         Formatter.Build_repository (Some (lit "Go"))] <> [])
  /\ exists top line rest : str,
       plain_mod (plain_t (lit "I Mostly Code in")) top = Ok line
       /\ Formatter.make_language_per_repo_list plain_t plain_mod EM_waka
            [Formatter.Build_repository (Some (lit "C"));
             Formatter.Build_repository None;
             Formatter.Build_repository (Some (lit "Go"));
             Formatter.Build_repository (Some (lit "Go"))]
          = Ok (lit "**" ++ line ++ lit "** " ++ [10%Z; 10%Z]
                ++ lit "```text" ++ [10%Z] ++ rest).
Proof.
  assert (Hv : valid_version (SYMBOL_VERSION EM_waka)) by (left; reflexivity).
  assert (Hl : Formatter.languages_of
                 [Formatter.Build_repository (Some (lit "C"));
                  Formatter.Build_repository None;
                  Formatter.Build_repository (Some (lit "Go"));
                  Formatter.Build_repository (Some (lit "Go"))] <> [])
    by discriminate.
  split; [repeat split; [apply plain_mod_total|exact Hv|exact Hl]|].
  destruct (@language_report_returns plain_t plain_mod EM_waka _
              plain_mod_total Hv Hl)
    as (top & line & rest & pre & post & _ & _ & _ & Es & E).
  exists top, line, rest. split; [exact Es|exact E].
Defined.

(* ================================================================== *)
(** * Matching and substitution *)
(* ================================================================== *)

Section Prefixes.

Import Re.

Lemma prefixb_app (p r : str) : prefixb p (p ++ r) = true.
Proof.
  induction p as [|a p IH]; simpl; [reflexivity|].
  rewrite Z.eqb_refl. exact IH.
Qed.

Lemma prefixb_true (p s : str) :
  prefixb p s = true -> s = p ++ skipn (length p) s.
Proof.
  revert s. induction p as [|a p IH]; intros s H; simpl in *; [reflexivity|].
  destruct s as [|b s]; [discriminate|].
  apply andb_true_iff in H. destruct H as [E H].
  apply Z.eqb_eq in E. subst b. simpl. f_equal. apply IH. exact H.
Qed.

Lemma prefixb_length (p s : str) :
  prefixb p s = true -> (length p <= length s)%nat.
Proof.
  intros H. rewrite (prefixb_true _ _ H), length_app. lia.
Qed.

(** Whether [p] is a prefix only depends on the first [length p]
    characters. *)
Lemma prefixb_same_start (p w y1 y2 : str) :
  (length p <= length w)%nat -> prefixb p (w ++ y1) = prefixb p (w ++ y2).
Proof.
  revert w. induction p as [|a p IH]; intros w H; simpl; [reflexivity|].
  destruct w as [|b w]; simpl in *; [lia|].
  rewrite (IH w) by lia. reflexivity.
Qed.

Lemma containsb_false (p s : str) :
  containsb p s = false -> forall k, prefixb p (skipn k s) = false.
Proof.
  induction s as [|c s IH]; simpl; intros H k.
  - rewrite orb_false_r in H. rewrite skipn_nil. exact H.
  - apply orb_false_iff in H. destruct H as [H1 H2].
    destruct k as [|k]; [exact H1|]. simpl. apply IH. exact H2.
Qed.

Lemma containsb_true (p s : str) :
  containsb p s = true -> exists k, prefixb p (skipn k s) = true.
Proof.
  induction s as [|c s IH]; simpl; intros H.
  - rewrite orb_false_r in H. exists O. exact H.
  - apply orb_true_iff in H. destruct H as [H|H].
    + exists O. exact H.
    + destruct (IH H) as (k & Hk). exists (S k). exact Hk.
Qed.

End Prefixes.

Section Matching.

Import Re.

(** The pattern of a start marker [A], a greedy item and an end marker [B]. *)
Variables A B : str.
Hypothesis A_nonempty : A <> [].
Hypothesis B_nonempty : B <> [].

Lemma match_here_literal (l : str) (p : pattern) (s : str) :
  match_here (map Chr l ++ p) s
  = if prefixb l s
    then option_map (Nat.add (length l)) (match_here p (skipn (length l) s))
    else None.
Proof.
  revert s. induction l as [|a l IH]; intros s.
  - simpl. destruct (match_here p s); reflexivity.
  - destruct s as [|b s]; [reflexivity|].
    cbn [map app match_here prefixb length skipn].
    rewrite Z.eqb_sym. destruct (Z.eqb_spec a b) as [E|N]; [|reflexivity].
    simpl andb. rewrite IH. destruct (prefixb l s); [|reflexivity].
    destruct (match_here p (skipn (length l) s)); reflexivity.
Qed.

Lemma match_here_end (s : str) :
  match_here (map Chr B) s = if prefixb B s then Some (length B) else None.
Proof.
  rewrite <- (app_nil_r (map Chr B)), match_here_literal.
  destruct (prefixb B s); [|reflexivity].
  simpl. rewrite Nat.add_0_r. reflexivity.
Qed.

Lemma any_plus_nil : any_plus B [] = None.
Proof. reflexivity. Qed.

Lemma any_plus_cons (c : Z) (s : str) :
  any_plus B (c :: s)
  = match any_plus B s with
    | Some n => Some (S n)
    | None => if prefixb B s then Some (S (length B)) else None
    end.
Proof.
  unfold any_plus. cbn [match_here].
  fold (match_here (map Chr B)).
  set (f := fix go (s0 : str) : option nat :=
         match s0 with
         | [] => None
         | _ :: s' =>
             match go s' with
             | Some n => Some (S n)
             | None => option_map S (match_here (map Chr B) s')
             end
         end).
  destruct (f s); [reflexivity|].
  rewrite match_here_end. destruct (prefixb B s); reflexivity.
Qed.

(** Greedy matching stops at the last end marker. *)
Lemma any_plus_spec (t : str) :
  match any_plus B t with
  | Some m => exists k, last_at B t k /\ m = (k + length B)%nat
  | None => forall k, (1 <= k)%nat -> prefixb B (skipn k t) = false
  end.
Proof.
  induction t as [|c t IH].
  - rewrite any_plus_nil. intros k _. rewrite skipn_nil.
    destruct B; [contradiction|reflexivity].
  - rewrite any_plus_cons. destruct (any_plus B t) as [n|].
    + destruct IH as (k & (K1 & K2 & K3) & ->).
      exists (S k). split; [|reflexivity].
      split; [lia|]. split; [exact K2|].
      intros k' Hk'. destruct k' as [|k']; [lia|]. simpl. apply K3. lia.
    + destruct (prefixb B t) eqn:P.
      * exists 1%nat. split; [|reflexivity].
        split; [lia|]. split; [exact P|].
        intros k' Hk'. destruct k' as [|k']; [lia|]. simpl. apply IH. lia.
      * intros k Hk. destruct k as [|[|k]]; [lia|exact P|].
        simpl. apply (IH (S k)). lia.
Qed.

Lemma last_at_unique (t : str) (k1 k2 : nat) :
  last_at B t k1 -> last_at B t k2 -> k1 = k2.
Proof.
  intros (_ & P1 & L1) (_ & P2 & L2).
  destruct (Nat.lt_trichotomy k1 k2) as [H|[H|H]]; [|exact H|].
  - rewrite (L1 k2 H) in P2. discriminate.
  - rewrite (L2 k1 H) in P1. discriminate.
Qed.

Lemma any_plus_last (t : str) (k : nat) :
  last_at B t k -> any_plus B t = Some (k + length B)%nat.
Proof.
  intros L. pose proof (any_plus_spec t) as S.
  destruct (any_plus B t) as [m|].
  - destruct S as (k' & L' & ->). rewrite (last_at_unique L L'). reflexivity.
  - destruct L as (K1 & K2 & _). rewrite (S k K1) in K2. discriminate.
Qed.

Lemma marker_match (s : str) :
  match_here (marker_pattern A B) s
  = if prefixb A s
    then option_map (Nat.add (length A)) (any_plus B (skipn (length A) s))
    else None.
Proof. unfold marker_pattern. apply match_here_literal. Qed.

Lemma marker_match_nil : match_here (marker_pattern A B) [] = None.
Proof.
  rewrite marker_match. destruct A; [contradiction|reflexivity].
Qed.

(** A match is a start marker, at least one character, and the last end
    marker of the text. *)
Lemma marker_match_Some (s : str) (n : nat) :
  match_here (marker_pattern A B) s = Some n ->
  exists mid post : str,
    s = A ++ mid ++ B ++ post
    /\ mid <> []
    /\ n = length (A ++ mid ++ B)
    /\ no_later B post.
Proof.
  rewrite marker_match. destruct (prefixb A s) eqn:PA; [|discriminate].
  pose proof (any_plus_spec (skipn (length A) s)) as S.
  destruct (any_plus B (skipn (length A) s)) as [m|]; [|discriminate].
  intros E. injection E as <-.
  destruct S as (k & (K1 & K2 & K3) & ->).
  set (t := skipn (length A) s) in *.
  exists (firstn k t), (skipn (length B) (skipn k t)).
  assert (Et : skipn k t = B ++ skipn (length B) (skipn k t)).
  { apply prefixb_true. exact K2. }
  assert (Lk : (k < length t)%nat).
  { destruct (Nat.lt_ge_cases k (length t)) as [H|H]; [exact H|].
    rewrite (skipn_all2 t H) in K2.
    destruct B; [contradiction|discriminate]. }
  split.
  { rewrite (prefixb_true _ _ PA) at 1. fold t. f_equal.
    rewrite <- Et. symmetry. apply firstn_skipn. }
  split.
  { intros C. apply (f_equal (@length Z)) in C.
    rewrite length_firstn in C. simpl in C. lia. }
  split.
  { rewrite !length_app, length_firstn. lia. }
  intros d Hd. rewrite <- Et, skipn_skipn. apply K3. lia.
Qed.

(** Conversely, such a text is matched up to its last end marker. *)
Lemma marker_match_intro (mid post : str) :
  mid <> [] -> no_later B post ->
  match_here (marker_pattern A B) (A ++ mid ++ B ++ post)
  = Some (length (A ++ mid ++ B)).
Proof.
  intros Hm Hl. rewrite marker_match, prefixb_app.
  rewrite skipn_app, skipn_all, Nat.sub_diag. simpl skipn. simpl app.
  rewrite (@any_plus_last (mid ++ B ++ post) (length mid)).
  - cbn [option_map]. f_equal. rewrite !length_app. lia.
  - split; [destruct mid; [contradiction|simpl; lia]|].
    split.
    + rewrite skipn_app, skipn_all, Nat.sub_diag. simpl. apply prefixb_app.
    + intros k' Hk'.
      replace k' with ((k' - length mid) + length mid)%nat by lia.
      rewrite <- skipn_skipn.
      rewrite (skipn_app (length mid)), skipn_all, Nat.sub_diag. simpl.
      apply Hl. lia.
Qed.

(** After the last end marker nothing matches. *)
Lemma no_match_after (post : str) :
  no_later B post ->
  forall k, match_here (marker_pattern A B) (skipn k post) = None.
Proof.
  intros Hl k. rewrite marker_match.
  destruct (prefixb A (skipn k post)) eqn:PA; [|reflexivity].
  pose proof (any_plus_spec (skipn (length A) (skipn k post))) as S.
  destruct (any_plus B (skipn (length A) (skipn k post))) as [m|];
    [|reflexivity].
  exfalso. destruct S as (j & (J1 & J2 & _) & _).
  rewrite !skipn_skipn in J2.
  assert (E : skipn (j + length A + k) post
              = skipn ((j + length A + k) + length B) (B ++ post)).
  { rewrite <- (skipn_skipn (j + length A + k) (length B)).
    rewrite skipn_app, skipn_all, Nat.sub_diag. reflexivity. }
  rewrite E, Hl in J2; [discriminate|].
  destruct B; [contradiction|simpl; lia].
Qed.

End Matching.

Section Substitution.

Import Re.

Variables A B : str.
Hypothesis A_nonempty : A <> [].
Hypothesis B_nonempty : B <> [].

Variable t : list token.

Lemma scan_skip (s : str) (k : nat) :
  (k <= length s)%nat ->
  scan (marker_pattern A B) t s k
  = scan (marker_pattern A B) t (skipn k s) 0.
Proof.
  revert k. induction s as [|c s IH]; intros k H.
  - simpl in H. replace k with O by lia. reflexivity.
  - destruct k as [|k]; [reflexivity|]. simpl. apply IH. simpl in H. lia.
Qed.

(** Where nothing matches the text is copied. *)
Lemma scan_before (pre rest : str) :
  (forall j, (j < length pre)%nat ->
             match_here (marker_pattern A B) (skipn j (pre ++ rest)) = None) ->
  scan (marker_pattern A B) t (pre ++ rest) 0
  = pre ++ scan (marker_pattern A B) t rest 0.
Proof.
  induction pre as [|c pre IH]; intros H; [reflexivity|].
  pose proof (H O ltac:(simpl; lia)) as H0. simpl skipn in H0.
  cbn [app scan]. cbn [app] in H0. rewrite H0. f_equal.
  apply IH. intros j Hj. apply (H (S j)). simpl. lia.
Qed.

Lemma scan_none (s : str) :
  (forall k, match_here (marker_pattern A B) (skipn k s) = None) ->
  scan (marker_pattern A B) t s 0 = s.
Proof.
  intros H. rewrite <- (app_nil_r s) at 1.
  rewrite scan_before.
  - simpl. rewrite (marker_match_nil B A_nonempty), app_nil_r. reflexivity.
  - intros j _. rewrite app_nil_r. apply H.
Qed.

(** A match is replaced by the expansion of the template, and what
    follows the last end marker is copied. *)
Lemma scan_match (mid post : str) :
  mid <> [] -> no_later B post ->
  scan (marker_pattern A B) t (A ++ mid ++ B ++ post) 0
  = expand t (A ++ mid ++ B) ++ post.
Proof.
  intros Hm Hl.
  pose proof (marker_match_intro A B_nonempty Hm Hl) as M.
  assert (E : A ++ mid ++ B ++ post = (A ++ mid ++ B) ++ post).
  { rewrite <- !app_assoc. reflexivity. }
  rewrite E in *.
  set (whole := A ++ mid ++ B) in *.
  destruct whole as [|c w] eqn:W.
  { destruct A; [contradiction|discriminate]. }
  cbn [app scan]. cbn [app length] in M. rewrite M. cbv iota beta.
  replace (firstn (S (length w)) (c :: w ++ post)) with (c :: w).
  2:{ simpl. f_equal. rewrite firstn_app, firstn_all, Nat.sub_diag.
      simpl. rewrite app_nil_r. reflexivity. }
  f_equal. rewrite scan_skip by (rewrite length_app; lia).
  rewrite skipn_app, skipn_all, Nat.sub_diag. simpl.
  apply scan_none. apply (@no_match_after A B B_nonempty post Hl).
Qed.

(** Either nothing matches, or the text splits at its first match. *)
Lemma first_match (s : str) :
  (forall k, match_here (marker_pattern A B) (skipn k s) = None)
  \/ exists pre mid post : str,
       s = pre ++ A ++ mid ++ B ++ post
       /\ mid <> []
       /\ no_later B post
       /\ forall j, (j < length pre)%nat ->
                    match_here (marker_pattern A B) (skipn j s) = None.
Proof.
  induction s as [|c s IH].
  - left. intros k. rewrite skipn_nil. apply marker_match_nil. exact A_nonempty.
  - destruct (match_here (marker_pattern A B) (c :: s)) as [n|] eqn:M.
    + right. destruct (@marker_match_Some A B B_nonempty _ _ M)
        as (mid & post & E & Hm & _ & Hl).
      exists [], mid, post. repeat split; try assumption.
      intros j Hj. simpl in Hj. lia.
    + destruct IH as [IH|(pre & mid & post & E & Hm & Hl & Hb)].
      * left. intros [|k]; [exact M|]. apply IH.
      * right. exists (c :: pre), mid, post. subst s.
        repeat split; try assumption.
        intros [|j] Hj; [exact M|]. apply Hb. simpl in Hj. lia.
Qed.

Lemma scan_first_match (pre mid post : str) :
  mid <> [] -> no_later B post ->
  (forall j, (j < length pre)%nat ->
             match_here (marker_pattern A B)
                        (skipn j (pre ++ A ++ mid ++ B ++ post)) = None) ->
  scan (marker_pattern A B) t (pre ++ A ++ mid ++ B ++ post) 0
  = pre ++ expand t (A ++ mid ++ B) ++ post.
Proof.
  intros Hm Hl Hb. rewrite scan_before by exact Hb.
  rewrite scan_match by assumption. reflexivity.
Qed.

End Substitution.

Section Templates.

Import Re.

Lemma not_special_bracket (c : Z) :
  is_special c = false -> (91 =? c)%Z = false.
Proof.
  intros H. destruct (Z.eqb_spec 91 c) as [E|N]; [|reflexivity].
  subst c. discriminate H.
Qed.

Lemma not_special_backslash (c : Z) :
  is_special c = false -> c <> backslash.
Proof. intros H E. subst c. discriminate H. Qed.

Lemma plain_no_backslash (s : str) : plain s -> no_backslash s.
Proof.
  intros H. eapply Forall_impl; [|exact H].
  intros c. apply not_special_backslash.
Qed.

Lemma compile_plain (l rest : str) (p : pattern) :
  plain l -> compile_from rest 0 = Ok p ->
  compile_from (l ++ rest) 0 = Ok (map Chr l ++ p).
Proof.
  intros H E. induction H as [|c l Hc _ IH]; [exact E|].
  cbn [app compile_from map].
  change (prefixb any_plus_text (c :: l ++ rest))
    with ((91 =? c)%Z && prefixb (tl any_plus_text) (l ++ rest)).
  rewrite (not_special_bracket _ Hc). cbn [andb]. rewrite Hc, IH. reflexivity.
Qed.

Lemma compile_any_plus (rest : str) (p : pattern) :
  compile_from rest 0 = Ok p ->
  compile_from (any_plus_text ++ rest) 0 = Ok (AnyPlus :: p).
Proof.
  intros E.
  change (compile_from (any_plus_text ++ rest) 0)
    with (bind (compile_from rest 0) (fun p => Ok (AnyPlus :: p))).
  rewrite E. reflexivity.
Qed.

Lemma compile_markers (a b : str) :
  plain a -> plain b ->
  compile (a ++ any_plus_text ++ b) = Ok (marker_pattern a b).
Proof.
  intros Ha Hb. unfold compile, marker_pattern.
  apply compile_plain; [exact Ha|]. apply compile_any_plus.
  pose proof (@compile_plain b [] [] Hb eq_refl) as H.
  rewrite !app_nil_r in H. exact H.
Qed.

(** A template without a backslash stands for itself. *)
Lemma parse_template_plain (src : str) :
  no_backslash src -> parse_template src = Ok (map TChr src).
Proof.
  unfold parse_template. induction 1 as [|c src Hc _ IH]; [reflexivity|].
  cbn [parse_template_from map].
  destruct (Z.eqb_spec c backslash) as [E|_]; [contradiction|].
  rewrite IH. reflexivity.
Qed.

Lemma expand_literal (s whole : str) : expand (map TChr s) whole = s.
Proof. induction s as [|c s IH]; simpl; congruence. Qed.

Lemma getuntil_ascii (s name after : str) :
  getuntil s = Some (name, after) -> isascii s = true -> isascii name = true.
Proof.
  revert name. induction s as [|c s IH]; intros name E A; [discriminate E|].
  cbn [getuntil] in E. cbn [isascii forallb] in A.
  apply andb_true_iff in A. destruct A as [Ac As].
  destruct (c =? 62)%Z; [injection E as <- _; reflexivity|].
  destruct (c =? backslash)%Z; [discriminate E|].
  destruct (getuntil s) as [[name' after']|]; [|discriminate E].
  injection E as <- <-. cbn [isascii forallb]. rewrite Ac.
  apply (IH name' eq_refl As).
Qed.

Lemma bind_error {A B} (m : result A) (k : A -> B) (e : exn) (P : Prop) :
  (m = Raise e -> P) ->
  bind m (fun t => Ok (k t)) = Raise e -> P.
Proof. destruct m; [discriminate|]. intros H E. injection E as ->. auto. Qed.

(** The errors of a template: [re.error], [IndexError] for a group name
    the pattern does not have, or, on a text with a character outside
    ASCII, no answer of the model. *)
Lemma parse_template_from_errors (src : str) :
  forall (skip : nat) (e : exn),
    parse_template_from src skip = Raise e ->
    e = re_error \/ e = IndexError
    \/ (e = OutsideModel /\ isascii src = false).
Proof.
  induction src as [|c rest IH]; intros skip e E; [discriminate E|].
  assert (Tail : forall k, parse_template_from rest k = Raise e ->
                 e = re_error \/ e = IndexError
                 \/ (e = OutsideModel /\ isascii (c :: rest) = false)).
  { intros k Ek. destruct (IH k e Ek) as [X|[X|[X Y]]]; auto.
    right. right. split; [exact X|]. cbn [isascii forallb].
    change (forallb (fun c0 => ((0 <=? c0) && (c0 <? 128))%Z) rest)
      with (isascii rest). rewrite Y. apply andb_false_r. }
  cbn [parse_template_from] in E.
  destruct skip as [|k]; [|apply (Tail k E)].
  destruct (c =? backslash)%Z; [|apply (bind_error _ (Tail 0%nat) E)].
  destruct rest as [|x rest']; [injection E as <-; auto|].
  destruct (x =? 103)%Z.
  { destruct rest' as [|lt named]; [injection E as <-; auto|].
    destruct lt as [|lt|lt]; try (injection E as <-; auto; fail).
    repeat (destruct lt as [lt|lt|]; try (injection E as <-; auto; fail)).
    destruct (getuntil named) as [[[|c0 name'] after]|] eqn:G;
      try (injection E as <-; auto; fail).
    destruct (str_eqb after [backslash]); [injection E as <-; auto|].
    destruct (isascii (c0 :: name')) eqn:A; cbn [negb] in E.
    - destruct (isidentifier (c0 :: name')); [injection E as <-; auto|].
      destruct (int_of_str (c0 :: name')) as [[|v|v]|];
        try (injection E as <-; auto; fail).
      apply (bind_error _ (Tail _) E).
    - injection E as <-. right. right. split; [reflexivity|].
      destruct (isascii (c :: x :: 60%Z :: named)) eqn:B; [|reflexivity].
      cbn [isascii forallb] in B.
      apply andb_true_iff in B. destruct B as [_ B].
      apply andb_true_iff in B. destruct B as [_ B].
      apply andb_true_iff in B. destruct B as [_ B].
      rewrite (getuntil_ascii _ G B) in A. discriminate A. }
  destruct (x =? 48)%Z.
  { destruct rest' as [|d1 [|d2 r]];
      repeat match type of E with
             | context [if ?b then _ else _] => destruct b
             end;
      apply (bind_error _ (Tail _) E). }
  destruct (is_digit x).
  { destruct rest' as [|d1 [|d2 r]]; try (injection E as <-; auto; fail).
    repeat match type of E with
           | context [if ?b then _ else _] => destruct b
           end;
      try (injection E as <-; auto; fail);
      apply (bind_error _ (Tail _) E). }
  destruct (escape x); [apply (bind_error _ (Tail _) E)|].
  destruct (is_ascii_letter x); [injection E as <-; auto|].
  apply (bind_error _ (Tail _) E).
Qed.

Lemma isascii_app (a b : str) :
  isascii (a ++ b) = isascii a && isascii b.
Proof. apply forallb_app. Qed.

End Templates.

(* ================================================================== *)
(** * The section of the README *)
(* ================================================================== *)

Section Readme.

Import Re GitHubManager.

Variable EM : EnvironmentManager.
Hypothesis name_plain : plain (SECTION_NAME EM).

Lemma START_plain : plain (_START_COMMENT EM).
Proof.
  unfold _START_COMMENT, plain. rewrite !Forall_app.
  repeat split; [|exact name_plain|]; repeat constructor.
Qed.

Lemma END_plain : plain (_END_COMMENT EM).
Proof.
  unfold _END_COMMENT, plain. rewrite !Forall_app.
  repeat split; [|exact name_plain|]; repeat constructor.
Qed.

Lemma START_nonempty : _START_COMMENT EM <> [].
Proof. discriminate. Qed.

Lemma END_nonempty : _END_COMMENT EM <> [].
Proof. discriminate. Qed.

Lemma README_REGEX_compiled :
  compile (_README_REGEX EM)
  = Ok (marker_pattern (_START_COMMENT EM) (_END_COMMENT EM)).
Proof. apply compile_markers; [apply START_plain|apply END_plain]. Qed.

(** The new README is the scan of the old one, once the template is
    parsed. *)
Lemma generate_scan (doc stats : str) :
  _generate_new_readme EM doc stats
  = bind (parse_template (readme_stats EM stats)) (fun t =>
    Ok (scan (marker_pattern (_START_COMMENT EM) (_END_COMMENT EM)) t doc 0)).
Proof.
  unfold _generate_new_readme, sub. rewrite README_REGEX_compiled.
  reflexivity.
Qed.

Lemma readme_stats_plain (stats : str) :
  no_backslash stats -> no_backslash (readme_stats EM stats).
Proof.
  intros H. unfold readme_stats, no_backslash. rewrite !Forall_app.
  repeat split.
  - apply plain_no_backslash, START_plain.
  - repeat constructor. discriminate.
  - exact H.
  - repeat constructor. discriminate.
  - apply plain_no_backslash, END_plain.
Qed.

Lemma generate_scan_plain (doc stats : str) :
  no_backslash stats ->
  _generate_new_readme EM doc stats
  = Ok (scan (marker_pattern (_START_COMMENT EM) (_END_COMMENT EM))
             (map TChr (readme_stats EM stats)) doc 0).
Proof.
  intros H. rewrite generate_scan.
  rewrite (parse_template_plain (readme_stats_plain H)). reflexivity.
Qed.

Lemma markers_absent_no_match (doc : str) :
  containsb (_START_COMMENT EM) doc = false
  \/ containsb (_END_COMMENT EM) doc = false ->
  forall k,
    match_here (marker_pattern (_START_COMMENT EM) (_END_COMMENT EM))
               (skipn k doc) = None.
Proof.
  intros H k. rewrite marker_match.
  destruct H as [H|H].
  - rewrite (containsb_false _ _ H). reflexivity.
  - destruct (prefixb (_START_COMMENT EM) (skipn k doc)); [|reflexivity].
    pose proof (any_plus_spec END_nonempty
                  (skipn (length (_START_COMMENT EM)) (skipn k doc))) as S.
    destruct (any_plus (_END_COMMENT EM)
                (skipn (length (_START_COMMENT EM)) (skipn k doc)));
      [|reflexivity].
    destruct S as (j & (_ & J & _) & _).
    rewrite !skipn_skipn, (containsb_false _ _ H) in J. discriminate.
Qed.

Lemma update_readme_same (doc stats : str) :
  _generate_new_readme EM doc stats = Ok doc ->
  update_readme EM doc stats = Ok (false, None).
Proof.
  intros E. unfold update_readme. rewrite E. cbn [bind].
  unfold str_eqb. destruct (str_eq_dec doc doc); [reflexivity|contradiction].
Qed.

Lemma no_later_nil : no_later (_END_COMMENT EM) [].
Proof.
  intros d Hd.
  destruct (prefixb (_END_COMMENT EM) (skipn d (_END_COMMENT EM ++ [])))
    eqn:P; [|reflexivity].
  apply prefixb_length in P. rewrite length_skipn, app_nil_r in P.
  assert (L : (1 <= length (_END_COMMENT EM))%nat).
  { unfold _END_COMMENT. simpl. lia. }
  lia.
Qed.

(** A start marker followed, at least one character later, by an end
    marker is matched somewhere. *)
Lemma section_found (x m y : str) :
  m <> [] ->
  ~ (forall k,
       match_here (marker_pattern (_START_COMMENT EM) (_END_COMMENT EM))
         (skipn k (x ++ _START_COMMENT EM ++ m ++ _END_COMMENT EM ++ y))
       = None).
Proof.
  intros Hm H. specialize (H (length x)).
  rewrite skipn_app, skipn_all, Nat.sub_diag, skipn_O, app_nil_l in H.
  rewrite marker_match, prefixb_app in H.
  rewrite skipn_app, skipn_all, Nat.sub_diag, skipn_O, app_nil_l in H.
  pose proof (any_plus_spec END_nonempty (m ++ _END_COMMENT EM ++ y)) as S.
  destruct (any_plus (_END_COMMENT EM) (m ++ _END_COMMENT EM ++ y));
    [discriminate|].
  assert (K : (1 <= length m)%nat).
  { destruct m; [contradiction|simpl; lia]. }
  specialize (S (length m) K).
  rewrite skipn_app, skipn_all, Nat.sub_diag, skipn_O, app_nil_l in S.
  rewrite prefixb_app in S. discriminate.
Qed.

(** The replaced README: the old one with the span from the first start
    marker to the last end marker replaced by the new section. *)
Lemma generate_plain_found (doc stats : str) :
  no_backslash stats ->
  ~ (forall k,
       match_here (marker_pattern (_START_COMMENT EM) (_END_COMMENT EM))
                  (skipn k doc) = None) ->
  exists pre mid post : str,
    doc = pre ++ _START_COMMENT EM ++ mid ++ _END_COMMENT EM ++ post
    /\ mid <> []
    /\ no_later (_END_COMMENT EM) post
    /\ (forall j, (j < length pre)%nat ->
          match_here (marker_pattern (_START_COMMENT EM) (_END_COMMENT EM))
                     (skipn j doc) = None)
    /\ _generate_new_readme EM doc stats
       = Ok (pre ++ readme_stats EM stats ++ post).
Proof.
  intros Hs Hf.
  destruct (first_match START_nonempty END_nonempty doc)
    as [H|(pre & mid & post & E & Hm & Hl & Hb)]; [contradiction|].
  exists pre, mid, post. repeat split; try assumption.
  rewrite (generate_scan_plain doc Hs). f_equal. subst doc.
  rewrite (scan_first_match START_nonempty END_nonempty _ _ Hm Hl Hb).
  rewrite expand_literal. reflexivity.
Qed.

(** The README that has just been written is left as it is. *)
Lemma generate_plain_again (pre mid post stats : str) :
  no_backslash stats -> mid <> [] ->
  no_later (_END_COMMENT EM) post ->
  (forall j, (j < length pre)%nat ->
     match_here (marker_pattern (_START_COMMENT EM) (_END_COMMENT EM))
       (skipn j (pre ++ _START_COMMENT EM ++ mid ++ _END_COMMENT EM ++ post))
     = None) ->
  _generate_new_readme EM (pre ++ readme_stats EM stats ++ post) stats
  = Ok (pre ++ readme_stats EM stats ++ post).
Proof.
  intros Hs Hm Hl Hb.
  rewrite (generate_scan_plain _ Hs). f_equal.
  set (A := _START_COMMENT EM) in *. set (B := _END_COMMENT EM) in *.
  assert (R : readme_stats EM stats = A ++ ([10%Z] ++ stats ++ [10%Z]) ++ B).
  { unfold readme_stats. fold A B. rewrite <- !app_assoc. reflexivity. }
  assert (E : pre ++ readme_stats EM stats ++ post
              = pre ++ A ++ ([10%Z] ++ stats ++ [10%Z]) ++ B ++ post).
  { rewrite R, <- !app_assoc. reflexivity. }
  rewrite E at 1.
  rewrite (@scan_first_match A B START_nonempty END_nonempty).
  - rewrite expand_literal. reflexivity.
  - discriminate.
  - exact Hl.
  - intros j Hj. rewrite marker_match.
    assert (S1 : forall Y, skipn j (pre ++ A ++ Y) = (skipn j pre ++ A) ++ Y).
    { intros Y. rewrite skipn_app. replace (j - length pre)%nat with O by lia.
      rewrite skipn_O, app_assoc. reflexivity. }
    rewrite S1.
    rewrite (@prefixb_same_start A (skipn j pre ++ A) _
               (mid ++ B ++ post)) by (rewrite length_app; lia).
    rewrite <- S1.
    destruct (prefixb A (skipn j (pre ++ A ++ mid ++ B ++ post))) eqn:PA;
      [|reflexivity].
    exfalso. specialize (Hb j Hj). rewrite marker_match, PA in Hb.
    pose proof (any_plus_spec END_nonempty
                  (skipn (length A) (skipn j (pre ++ A ++ mid ++ B ++ post))))
      as S.
    fold B in S.
    destruct (any_plus B
                (skipn (length A) (skipn j (pre ++ A ++ mid ++ B ++ post))));
      [discriminate|].
    assert (Lm : (1 <= length mid)%nat).
    { destruct mid; [contradiction|simpl; lia]. }
    specialize (S (length pre - j + length mid)%nat ltac:(lia)).
    rewrite !skipn_skipn in S.
    replace (length pre - j + length mid + length A + j)%nat
      with (length (pre ++ A ++ mid)) in S by (rewrite !length_app; lia).
    replace (pre ++ A ++ mid ++ B ++ post)
      with ((pre ++ A ++ mid) ++ B ++ post) in S
      by (rewrite <- !app_assoc; reflexivity).
    rewrite skipn_app, skipn_all, Nat.sub_diag, skipn_O, app_nil_l in S.
    rewrite prefixb_app in S. discriminate.
Qed.

(** For a body without a backslash the replacement is idempotent. *)
Lemma update_readme_plain_idempotent (doc stats : str) :
  no_backslash stats ->
  exists outcome : bool * option str,
    update_readme EM doc stats = Ok outcome
    /\ update_readme EM (readme_after doc outcome) stats = Ok (false, None).
Proof.
  intros Hs.
  destruct (first_match START_nonempty END_nonempty doc)
    as [H|(pre & mid & post & E & Hm & Hl & Hb)].
  - assert (G : _generate_new_readme EM doc stats = Ok doc).
    { rewrite (generate_scan_plain doc Hs). f_equal.
      apply (scan_none (_END_COMMENT EM) START_nonempty). exact H. }
    exists (false, None). split; apply update_readme_same; exact G.
  - assert (G : _generate_new_readme EM doc stats
                = Ok (pre ++ readme_stats EM stats ++ post)).
    { rewrite (generate_scan_plain doc Hs). f_equal. subst doc.
      rewrite (scan_first_match START_nonempty END_nonempty _ _ Hm Hl Hb).
      rewrite expand_literal. reflexivity. }
    assert (G2 := @generate_plain_again pre mid post stats Hs Hm Hl
                    ltac:(rewrite <- E; exact Hb)).
    unfold update_readme at 1. rewrite G. cbn [bind].
    unfold str_eqb.
    destruct (str_eq_dec (pre ++ readme_stats EM stats ++ post) doc) as [Q|Q].
    + exists (false, None). split; [reflexivity|].
      unfold readme_after. simpl. apply update_readme_same.
      rewrite <- Q at 1 2. exact G2.
    + eexists. split; [reflexivity|].
      unfold readme_after. simpl. apply update_readme_same. exact G2.
Qed.

End Readme.

Section ReadmeClaims.

Import Re GitHubManager.

(** For a body without a backslash, the new README holds the body as it
    is, between the two markers, in place of the old section. *)
Lemma generate_plain_roundtrip (EM : EnvironmentManager)
  (x m y stats : str) :
  plain (SECTION_NAME EM) -> no_backslash stats -> m <> [] ->
  exists pre mid post : str,
    x ++ _START_COMMENT EM ++ m ++ _END_COMMENT EM ++ y
    = pre ++ _START_COMMENT EM ++ mid ++ _END_COMMENT EM ++ post
    /\ _generate_new_readme EM
         (x ++ _START_COMMENT EM ++ m ++ _END_COMMENT EM ++ y) stats
       = Ok (pre ++ (_START_COMMENT EM ++ [10%Z] ++ stats ++ [10%Z]
                     ++ _END_COMMENT EM) ++ post).
Proof.
  intros Hn Hs Hm.
  destruct (@generate_plain_found EM Hn _ stats Hs
              (@section_found EM x m y Hm))
    as (pre & mid & post & E & _ & _ & _ & G).
  exists pre, mid, post. split; [exact E|exact G].
Qed.

(** C1, as the code has it.  For a section name without a character
    special in a pattern: when the README lacks one of the markers the
    pattern matches nowhere.  If the new section is a well-formed
    template, as it is when the body has no backslash, the README is left
    as it is and [update_readme] answers [False] without writing the
    file, which is also its answer when the section is found and already
    up to date; if it is malformed, [re] raises its error, [re.error] or,
    for a group name the pattern does not have, [IndexError].  On ASCII
    text these are all the outcomes.  No outcome of its own tells that
    the markers were not found. *)
Theorem update_readme_markers_absent (EM : EnvironmentManager)
  (doc stats : str) :
  plain (SECTION_NAME EM) ->
  containsb (_START_COMMENT EM) doc = false
  \/ containsb (_END_COMMENT EM) doc = false ->
  (forall t : list token,
     parse_template (readme_stats EM stats) = Ok t ->
     _generate_new_readme EM doc stats = Ok doc
     /\ update_readme EM doc stats = Ok (false, None))
  /\ (forall e : exn,
        parse_template (readme_stats EM stats) = Raise e ->
        e <> OutsideModel ->
        (e = re_error \/ e = IndexError)
        /\ _generate_new_readme EM doc stats = Raise e
        /\ update_readme EM doc stats = Raise e)
  /\ (isascii (SECTION_NAME EM) = true -> isascii stats = true ->
      parse_template (readme_stats EM stats) <> Raise OutsideModel)
  /\ (no_backslash stats ->
      _generate_new_readme EM doc stats = Ok doc
      /\ update_readme EM doc stats = Ok (false, None)
      /\ update_readme EM (readme_stats EM stats) stats = Ok (false, None)).
Proof.
  intros Hn Ha.
  pose proof (@markers_absent_no_match EM doc Ha) as N.
  assert (G : forall t, parse_template (readme_stats EM stats) = Ok t ->
                        _generate_new_readme EM doc stats = Ok doc).
  { intros t E. rewrite (@generate_scan EM Hn doc stats), E.
    cbn [bind]. f_equal.
    apply (scan_none (_END_COMMENT EM) (@START_nonempty EM)). exact N. }
  split.
  { intros t E. split; [apply (G t E)|].
    apply update_readme_same, (G t E). }
  split.
  { intros e E Ne.
    destruct (parse_template_from_errors _ _ E) as [X|[X|[X _]]];
      [| |contradiction].
    - split; [left; exact X|].
      unfold update_readme. rewrite (@generate_scan EM Hn doc stats), E.
      split; reflexivity.
    - split; [right; exact X|].
      unfold update_readme. rewrite (@generate_scan EM Hn doc stats), E.
      split; reflexivity. }
  split.
  { intros An As E.
    destruct (parse_template_from_errors _ _ E) as [X|[X|[_ X]]];
      try discriminate X.
    unfold readme_stats, _START_COMMENT, _END_COMMENT in X.
    rewrite !isascii_app, An, As in X. discriminate X. }
  intros Hs.
  pose proof (parse_template_plain (@readme_stats_plain EM Hn stats Hs))
    as E.
  split; [apply (G _ E)|]. split; [apply update_readme_same, (G _ E)|].
  apply update_readme_same.
  pose proof (@generate_plain_again EM Hn [] [0%Z] [] stats Hs
                ltac:(discriminate) (@no_later_nil EM)
                ltac:(intros j Hj; simpl in Hj; lia)) as G2.
  rewrite app_nil_l, app_nil_r in G2. exact G2.
Qed.

Lemma update_readme_markers_absent_witness :
  (plain (SECTION_NAME EM_waka)
   /\ (containsb (_START_COMMENT EM_waka) (lit "# Hello") = false
       \/ containsb (_END_COMMENT EM_waka) (lit "# Hello") = false))
  /\ update_readme EM_waka (lit "# Hello") (lit "stats") = Ok (false, None).
Proof.
  assert (Hn : plain (SECTION_NAME EM_waka)) by (repeat constructor).
  assert (Ha : containsb (_START_COMMENT EM_waka) (lit "# Hello") = false
               \/ containsb (_END_COMMENT EM_waka) (lit "# Hello") = false)
    by (left; reflexivity).
  split; [split; assumption|].
  destruct (@update_readme_markers_absent EM_waka (lit "# Hello")
              (lit "stats") Hn Ha) as (_ & _ & _ & H).
  apply H. repeat constructor; discriminate.
Defined.

(** C1, as the specification states it, fails: a README without the
    markers gets the plain answer "unchanged". *)
Lemma update_readme_marker_not_found_counterexample :
  containsb (_START_COMMENT EM_waka) (lit "# Hello") = false
  /\ containsb (_END_COMMENT EM_waka) (lit "# Hello") = false
  /\ _generate_new_readme EM_waka (lit "# Hello") (lit "stats")
     = Ok (lit "# Hello")
  /\ update_readme EM_waka (lit "# Hello") (lit "stats") = Ok (false, None).
Proof. repeat split; vm_compute; reflexivity. Qed.

(** C2 at a failing input.  The body is read as a replacement template:
    with the body [\g<0>], which stands for the whole match, the second
    application with the same body changes the README again. *)
Theorem update_readme_reapplied_changes :
  let doc := lit "<!--START_SECTION:waka-->x<!--END_SECTION:waka-->" in
  let stats := lit "\g<0>" in
  exists doc1 doc2 : str,
    update_readme EM_waka doc stats = Ok (true, Some doc1)
    /\ update_readme EM_waka (readme_after doc (true, Some doc1)) stats
       = Ok (true, Some doc2)
    /\ doc2 <> doc1.
Proof.
  do 2 eexists. split; [vm_compute; reflexivity|].
  split; [vm_compute; reflexivity|]. discriminate.
Qed.

(** With a body that is a malformed template, such as [\d], there is no
    first result at all. *)
Lemma update_readme_bad_escape :
  update_readme EM_waka
    (lit "<!--START_SECTION:waka-->x<!--END_SECTION:waka-->") (lit "\d")
  = Raise re_error.
Proof. vm_compute. reflexivity. Qed.

(** C5 at a failing input.  With the body [a\nb] (a backslash and the
    letter n) the new README holds a line break where the body has two
    characters: the body is not in it. *)
Theorem generate_body_not_verbatim :
  let doc := lit "<!--START_SECTION:waka-->x<!--END_SECTION:waka-->" in
  let stats := lit "a\nb" in
  exists new_readme : str,
    _generate_new_readme EM_waka doc stats = Ok new_readme
    /\ new_readme
       = _START_COMMENT EM_waka ++ [10%Z] ++ lit "a" ++ [10%Z] ++ lit "b"
         ++ [10%Z] ++ _END_COMMENT EM_waka
    /\ containsb stats new_readme = false.
Proof.
  eexists. split; [vm_compute; reflexivity|].
  split; vm_compute; reflexivity.
Qed.

End ReadmeClaims.

Section ReadmeExtras.

Import Re GitHubManager.

Lemma first_atb_true (A pre : str) :
  first_atb A pre = true -> first_at A pre.
Proof.
  unfold first_atb, first_at. intros H j Hj.
  rewrite forallb_forall in H.
  specialize (H j ltac:(apply in_seq; lia)).
  destruct (prefixb A (skipn j (pre ++ A))); [discriminate H|reflexivity].
Qed.

Lemma no_laterb_true (B post : str) :
  B <> [] -> no_laterb B post = true -> no_later B post.
Proof.
  unfold no_laterb, no_later. intros HB H d Hd.
  rewrite forallb_forall in H.
  destruct (Nat.le_gt_cases d (length (B ++ post))) as [L|L].
  - specialize (H d ltac:(apply in_seq; lia)).
    destruct (prefixb B (skipn d (B ++ post))); [discriminate H|reflexivity].
  - rewrite skipn_all2 by lia. destruct B; [contradiction|reflexivity].
Qed.

Variable EM : EnvironmentManager.
Hypothesis name_plain : plain (SECTION_NAME EM).

(** Before the first start marker nothing matches. *)
Lemma no_match_before (pre rest : str) :
  first_at (_START_COMMENT EM) pre ->
  forall j, (j < length pre)%nat ->
    match_here (marker_pattern (_START_COMMENT EM) (_END_COMMENT EM))
               (skipn j (pre ++ _START_COMMENT EM ++ rest)) = None.
Proof.
  intros Hf j Hj. rewrite marker_match.
  assert (S1 : forall Y,
             skipn j (pre ++ _START_COMMENT EM ++ Y)
             = (skipn j pre ++ _START_COMMENT EM) ++ Y).
  { intros Y. rewrite skipn_app. replace (j - length pre)%nat with O by lia.
    rewrite skipn_O, app_assoc. reflexivity. }
  rewrite S1.
  rewrite (@prefixb_same_start (_START_COMMENT EM)
             (skipn j pre ++ _START_COMMENT EM) rest [])
    by (rewrite length_app; lia).
  rewrite <- S1, app_nil_r, (Hf j Hj). reflexivity.
Qed.

(** After the last end marker no end marker is left for a match that
    starts at or after the start marker before it. *)
Lemma no_match_from (pre post : str) :
  no_later (_END_COMMENT EM) post ->
  forall k, (length pre <= k)%nat ->
    match_here (marker_pattern (_START_COMMENT EM) (_END_COMMENT EM))
      (skipn k (pre ++ _START_COMMENT EM ++ _END_COMMENT EM ++ post))
    = None.
Proof.
  intros Hl k Hk. rewrite marker_match.
  set (A := _START_COMMENT EM). set (B := _END_COMMENT EM).
  set (doc := pre ++ A ++ B ++ post).
  destruct (prefixb A (skipn k doc)) eqn:PA; [|reflexivity].
  pose proof (any_plus_spec (@END_nonempty EM)
                (skipn (length A) (skipn k doc))) as S.
  fold B in S.
  destruct (any_plus B (skipn (length A) (skipn k doc))); [|reflexivity].
  exfalso. destruct S as (j & (J1 & J2 & _) & _).
  rewrite !skipn_skipn in J2.
  set (d := (j + length A + k - length pre - length A)%nat).
  assert (E : skipn (j + length A + k) doc = skipn d (B ++ post)).
  { unfold doc.
    replace (j + length A + k)%nat with (d + length (pre ++ A))%nat
      by (unfold d; rewrite length_app; lia).
    rewrite <- skipn_skipn.
    replace (pre ++ A ++ B ++ post) with ((pre ++ A) ++ B ++ post)
      by (rewrite <- app_assoc; reflexivity).
    rewrite (skipn_app (length (pre ++ A))), skipn_all, Nat.sub_diag,
      skipn_O, app_nil_l.
    reflexivity. }
  rewrite E, Hl in J2; [discriminate|unfold d; lia].
Qed.

End ReadmeExtras.

(** X16. For a body without a backslash and a section name without a
    character special in a pattern, the replacement is idempotent: the
    README written by [update_readme] is left as it is by a second call
    with the same body, which answers [False]. *)
Theorem section_replacement_idempotent (EM : EnvironmentManager)
  (doc stats : str) :
  plain (SECTION_NAME EM) -> no_backslash stats ->
  exists outcome : bool * option str,
    GitHubManager.update_readme EM doc stats = Ok outcome
    /\ GitHubManager.update_readme EM
         (GitHubManager.readme_after doc outcome) stats
       = Ok (false, None).
Proof.
  intros Hn Hs. apply update_readme_plain_idempotent; assumption.
Qed.

Lemma section_replacement_idempotent_witness :
  (plain (SECTION_NAME EM_waka) /\ no_backslash (lit "new"))
  /\ GitHubManager.update_readme EM_waka
       (lit "<!--START_SECTION:waka-->" ++ [10%Z] ++ lit "new" ++ [10%Z]
        ++ lit "<!--END_SECTION:waka-->")
       (lit "new")
     = Ok (false, None).
Proof.
  assert (Hn : plain (SECTION_NAME EM_waka)) by (repeat constructor).
  assert (Hs : no_backslash (lit "new"))
    by (repeat constructor; discriminate).
  split; [split; assumption|].
  destruct (@section_replacement_idempotent EM_waka
              (lit "<!--START_SECTION:waka-->x<!--END_SECTION:waka-->")
              (lit "new") Hn Hs) as (outcome & E1 & E2).
  vm_compute in E1. injection E1 as <-. exact E2.
Defined.

(** X17. For a section name without a character special in a pattern, a
    body without a backslash and at least one character between the
    first start marker and the last end marker: the replacement is greedy
    and leaves the rest alone.  Everything from the first start marker to
    the last end marker, other markers in between included, is replaced
    by the new section; what precedes the first start marker and what
    follows the last end marker is kept as it is. *)
Theorem section_greedy_span (EM : EnvironmentManager)
  (pre mid post stats : str) :
  plain (SECTION_NAME EM) -> no_backslash stats -> mid <> [] ->
  first_at (GitHubManager._START_COMMENT EM) pre ->
  no_later (GitHubManager._END_COMMENT EM) post ->
  GitHubManager._generate_new_readme EM
    (pre ++ GitHubManager._START_COMMENT EM ++ mid
     ++ GitHubManager._END_COMMENT EM ++ post) stats
  = Ok (pre ++ (GitHubManager._START_COMMENT EM ++ [10%Z] ++ stats
                ++ [10%Z] ++ GitHubManager._END_COMMENT EM) ++ post).
Proof.
  intros Hn Hs Hm Hf Hl.
  rewrite (@generate_scan_plain EM Hn _ stats Hs). f_equal.
  rewrite (@scan_first_match _ _ (@START_nonempty EM) (@END_nonempty EM)
             _ pre mid post Hm Hl).
  - rewrite expand_literal. reflexivity.
  - intros j Hj. apply no_match_before; assumption.
Qed.

Lemma section_greedy_span_witness :
  (plain (SECTION_NAME EM_waka) /\ no_backslash (lit "new")
   /\ lit "1<!--END_SECTION:waka-->2<!--START_SECTION:waka-->3" <> []
   /\ first_at (GitHubManager._START_COMMENT EM_waka) (lit "a")
   /\ no_later (GitHubManager._END_COMMENT EM_waka) (lit "b"))
  /\ GitHubManager._generate_new_readme EM_waka
       (lit "a<!--START_SECTION:waka-->1<!--END_SECTION:waka-->2"
        ++ lit "<!--START_SECTION:waka-->3<!--END_SECTION:waka-->b")
       (lit "new")
     = Ok (lit "a<!--START_SECTION:waka-->" ++ [10%Z] ++ lit "new"
           ++ [10%Z] ++ lit "<!--END_SECTION:waka-->b").
Proof.
  assert (Hn : plain (SECTION_NAME EM_waka)) by (repeat constructor).
  assert (Hs : no_backslash (lit "new"))
    by (repeat constructor; discriminate).
  assert (Hm : lit "1<!--END_SECTION:waka-->2<!--START_SECTION:waka-->3"
               <> []) by discriminate.
  assert (Hf : first_at (GitHubManager._START_COMMENT EM_waka) (lit "a"))
    by (apply first_atb_true; reflexivity).
  assert (Hl : no_later (GitHubManager._END_COMMENT EM_waka) (lit "b"))
    by (apply no_laterb_true; [discriminate|reflexivity]).
  split; [repeat split; assumption|].
  exact (@section_greedy_span EM_waka (lit "a")
           (lit "1<!--END_SECTION:waka-->2<!--START_SECTION:waka-->3")
           (lit "b") (lit "new") Hn Hs Hm Hf Hl).
Defined.

(** X18. For a section name without a character special in a pattern
    and a body without a backslash: the pattern asks for at least one
    character between the markers, so a README in which the end marker
    follows the start marker at once, with no start marker beginning
    before this pair and no end marker beginning after it, is never
    filled in; [update_readme] answers [False] and writes nothing. *)
Theorem adjacent_markers_unchanged (EM : EnvironmentManager)
  (pre post stats : str) :
  plain (SECTION_NAME EM) -> no_backslash stats ->
  first_at (GitHubManager._START_COMMENT EM) pre ->
  no_later (GitHubManager._END_COMMENT EM) post ->
  GitHubManager.update_readme EM
    (pre ++ GitHubManager._START_COMMENT EM
     ++ GitHubManager._END_COMMENT EM ++ post) stats
  = Ok (false, None).
Proof.
  intros Hn Hs Hf Hl. apply update_readme_same.
  rewrite (@generate_scan_plain EM Hn _ stats Hs). f_equal.
  apply (scan_none (GitHubManager._END_COMMENT EM) (@START_nonempty EM)).
  intros k. destruct (Nat.lt_ge_cases k (length pre)) as [H|H].
  - apply no_match_before; assumption.
  - apply no_match_from; assumption.
Qed.

Lemma adjacent_markers_unchanged_witness :
  (plain (SECTION_NAME EM_waka) /\ no_backslash (lit "new")
   /\ first_at (GitHubManager._START_COMMENT EM_waka) (lit "# Me ")
   /\ no_later (GitHubManager._END_COMMENT EM_waka) (lit " bye"))
  /\ GitHubManager.update_readme EM_waka
       (lit "# Me <!--START_SECTION:waka--><!--END_SECTION:waka--> bye")
       (lit "new")
     = Ok (false, None).
Proof.
  assert (Hn : plain (SECTION_NAME EM_waka)) by (repeat constructor).
  assert (Hs : no_backslash (lit "new"))
    by (repeat constructor; discriminate).
  assert (Hf : first_at (GitHubManager._START_COMMENT EM_waka) (lit "# Me "))
    by (apply first_atb_true; reflexivity).
  assert (Hl : no_later (GitHubManager._END_COMMENT EM_waka) (lit " bye"))
    by (apply no_laterb_true; [discriminate|reflexivity]).
  split; [repeat split; assumption|].
  exact (@adjacent_markers_unchanged EM_waka (lit "# Me ") (lit " bye")
           (lit "new") Hn Hs Hf Hl).
Defined.

(** X19. When the commits are not made in the user's name,
    [_get_author] always returns an author, whose name and e-mail address
    are not empty: those of the settings, or else the ones of the bot.
    When they are made in the user's name, it fails with the
    [AssertionError] of [InputGitAuthor] exactly when a field is [None]:
    the account gives no non-empty value and the setting is [None];
    otherwise it returns the account's value if that is not empty and the
    setting if it is, so that a field is empty exactly when the account
    gives none and the setting is the empty string. *)
Theorem get_author_outcome (CS : GitHubManager.CommitSettings)
  (USER : GitHubManager.AuthenticatedUser) :
  (GitHubManager.COMMIT_BY_ME CS = false ->
   exists author : GitHubManager.InputGitAuthor,
     GitHubManager._get_author CS USER = Ok author
     /\ GitHubManager.author_name author <> []
     /\ GitHubManager.author_email author <> []
     /\ (if GitHubManager.truthy (GitHubManager.COMMIT_USERNAME CS)
         then Some (GitHubManager.author_name author)
              = GitHubManager.COMMIT_USERNAME CS
         else GitHubManager.author_name author = lit "readme-bot")
     /\ (if GitHubManager.truthy (GitHubManager.COMMIT_EMAIL CS)
         then Some (GitHubManager.author_email author)
              = GitHubManager.COMMIT_EMAIL CS
         else GitHubManager.author_email author
              = GitHubManager.bot_email))
  /\ (GitHubManager.COMMIT_BY_ME CS = true ->
      let no_name :=
        GitHubManager.truthy (GitHubManager.login USER) = false
        /\ GitHubManager.COMMIT_USERNAME CS = None in
      let no_email :=
        GitHubManager.truthy (GitHubManager.email USER) = false
        /\ GitHubManager.COMMIT_EMAIL CS = None in
      (no_name \/ no_email ->
       GitHubManager._get_author CS USER = Raise AssertionError)
      /\ (~ (no_name \/ no_email) ->
          exists author : GitHubManager.InputGitAuthor,
            GitHubManager._get_author CS USER = Ok author
            /\ (if GitHubManager.truthy (GitHubManager.login USER)
                then Some (GitHubManager.author_name author)
                     = GitHubManager.login USER
                else Some (GitHubManager.author_name author)
                     = GitHubManager.COMMIT_USERNAME CS)
            /\ (if GitHubManager.truthy (GitHubManager.email USER)
                then Some (GitHubManager.author_email author)
                     = GitHubManager.email USER
                else Some (GitHubManager.author_email author)
                     = GitHubManager.COMMIT_EMAIL CS)
            /\ (GitHubManager.author_name author = []
                <-> GitHubManager.truthy (GitHubManager.login USER) = false
                    /\ GitHubManager.COMMIT_USERNAME CS = Some [])
            /\ (GitHubManager.author_email author = []
                <-> GitHubManager.truthy (GitHubManager.email USER) = false
                    /\ GitHubManager.COMMIT_EMAIL CS = Some []))).
Proof.
  unfold GitHubManager._get_author, GitHubManager.py_or. split.
  - intros ->.
    destruct (GitHubManager.COMMIT_USERNAME CS) as [[|c n]|],
      (GitHubManager.COMMIT_EMAIL CS) as [[|d m]|];
      cbn [GitHubManager.truthy GitHubManager.new_InputGitAuthor];
      eexists; (split; [reflexivity|]);
      cbn [GitHubManager.author_name GitHubManager.author_email];
      repeat split; discriminate.
  - intros ->. cbv zeta.
    destruct (GitHubManager.login USER) as [[|c n]|],
      (GitHubManager.COMMIT_USERNAME CS) as [[|c' n']|],
      (GitHubManager.email USER) as [[|d m]|],
      (GitHubManager.COMMIT_EMAIL CS) as [[|d' m']|];
      cbn [GitHubManager.truthy GitHubManager.new_InputGitAuthor];
      (split;
       [intros [[H1 H2]|[H1 H2]]; try discriminate H1;
        try discriminate H2; reflexivity
       |intros N; try (exfalso; apply N; auto; fail);
        eexists; (split; [reflexivity|]);
        cbn [GitHubManager.author_name GitHubManager.author_email];
        repeat split; try discriminate; try reflexivity;
        try (intros [_ H]; discriminate H);
        try (intros [H _]; discriminate H);
        try (intros H; discriminate H)]).
Qed.

Lemma get_author_outcome_witness :
  exists author : GitHubManager.InputGitAuthor,
    GitHubManager._get_author
      (GitHubManager.Build_CommitSettings false None (Some []))
      (GitHubManager.Build_AuthenticatedUser (Some (lit "me")) None)
    = Ok author
    /\ GitHubManager.author_name author = lit "readme-bot"
    /\ GitHubManager.author_email author = GitHubManager.bot_email.
Proof.
  destruct (get_author_outcome
              (GitHubManager.Build_CommitSettings false None (Some []))
              (GitHubManager.Build_AuthenticatedUser (Some (lit "me")) None))
    as [H _].
  destruct (H eq_refl) as (author & E & _ & _ & N & M).
  exists author. repeat split; assumption.
Defined.

(* ================================================================== *)
(** * The code on small inputs *)
(* ================================================================== *)

Section Examples.

Import Formatter GitHubManager.

(** [0.1] and [1/3] as binary64 numbers. *)
Example fl_tenth :
  fl (1 # 10) = (3602879701896397 # 36028797018963968)%Q.
Proof. vm_compute. reflexivity. Qed.

Example fl_third :
  fl (1 # 3) = (6004799503160661 # 18014398509481984)%Q.
Proof. vm_compute. reflexivity. Qed.

(** [round(2.5) == 2], [round(3.5) == 4], [round(-0.5) == 0]. *)
Example round_ties :
  round (5 # 2) = 2%Z /\ round (7 # 2) = 4%Z /\ round (-1 # 2) = 0%Z.
Proof. repeat split. Qed.

(** The format [05.2f] of 5.0, of 0.125 (a tie, to the even digit), of
    12.345 (the float nearest to it is above it), of -0.125 and of
    100.0. *)
Example format_examples :
  format_05_2f 5 = lit "05.00"
  /\ format_05_2f (1 # 8) = lit "00.12"
  /\ format_05_2f (fl (12345 # 1000)) = lit "12.35"
  /\ format_05_2f (-1 # 8) = lit "-0.12"
  /\ format_05_2f 100 = lit "100.00".
Proof. repeat split; vm_compute; reflexivity. Qed.

(** One commit out of three: [round(1 / 3 * 100, 2) == 33.33]. *)
Example percent_third :
  bind (int_truediv 1 3) (fun share => Ok (round2 (float_mul share 100)))
  = Ok (fl (3333 # 100)).
Proof. vm_compute. reflexivity. Qed.

(** Sorting puts the larger percent first. *)
Example make_list_sorted :
  top_data (zip3 [lit "Go"; lit "Python"] [lit "1 repo"; lit "3 repos"]
                 [25 # 1; 75 # 1]) 5 true
  = [(lit "Python", lit "3 repos", 75 # 1); (lit "Go", lit "1 repo", 25 # 1)].
Proof. reflexivity. Qed.

(** Records of equal percent keep their order. *)
Example sorted_stable :
  map fst (sorted_reverse snd [(1, 1 # 1); (2, 2 # 1); (3, 1 # 1);
                               (4, 2 # 1)]%Z)
  = [2; 4; 1; 3]%Z.
Proof. reflexivity. Qed.

(** An entry beyond the window does not come back through sorting. *)
Example make_list_cut_first :
  top_data (zip3 [lit "a"; lit "b"; lit "c"] [lit "x"; lit "y"; lit "z"]
                 [10 # 1; 20 # 1; 90 # 1]) 2 true
  = [(lit "b", lit "y", 20 # 1); (lit "a", lit "x", 10 # 1)].
Proof. reflexivity. Qed.

(** Commits at 1h, 8h, 9h and 20h: buckets [1, 2, 0, 1], published as
    [2, 0, 1, 1]. *)
Example buckets_example :
  counted [Build_datetime 1 1; Build_datetime 8 1; Build_datetime 9 3;
           Build_datetime 20 7]
  = Ok ([1; 2; 0; 1]%Z, [2; 0; 1; 0; 0; 0; 1]%Z)
  /\ rotated [1; 2; 0; 1]%Z = [2; 0; 1; 1]%Z.
Proof. split; reflexivity. Qed.

(** The section between the first start marker and the last end marker
    is replaced; the rest of the README stays. *)
Example generate_example :
  _generate_new_readme EM_waka
    (lit "# Me <!--START_SECTION:waka-->old<!--END_SECTION:waka--> bye")
    (lit "new")
  = Ok (lit "# Me <!--START_SECTION:waka-->" ++ [10%Z] ++ lit "new"
        ++ [10%Z] ++ lit "<!--END_SECTION:waka--> bye").
Proof. vm_compute. reflexivity. Qed.

(** Octal escapes and an escaped punctuation character in a body. *)
Example generate_escapes :
  _generate_new_readme EM_waka
    (lit "<!--START_SECTION:waka-->x<!--END_SECTION:waka-->")
    (lit "a\101\0\08\!")
  = Ok (lit "<!--START_SECTION:waka-->" ++ [10; 97; 65; 0; 0; 56]%Z
        ++ lit "\!" ++ [10%Z] ++ lit "<!--END_SECTION:waka-->").
Proof. vm_compute. reflexivity. Qed.

(** The pattern needs a character between the markers. *)
Example generate_empty_section :
  update_readme EM_waka
    (lit "<!--START_SECTION:waka--><!--END_SECTION:waka-->") (lit "new")
  = Ok (false, None).
Proof. vm_compute. reflexivity. Qed.

(** Group 0 however it is spelled, a group name the pattern does not have,
    and the lone backslash that is read with the token before it. *)
Example template_group_names :
  update_readme EM_waka (lit "# Hello") (lit "\g<00>") = Ok (false, None)
  /\ update_readme EM_waka (lit "# Hello") (lit "\g< -0_0 >")
     = Ok (false, None)
  /\ update_readme EM_waka (lit "# Hello") (lit "\g<foo>")
     = Raise IndexError
  /\ update_readme EM_waka (lit "# Hello") (lit "\g<1>") = Raise re_error
  /\ update_readme EM_waka (lit "# Hello") (lit "\d\g<foo>")
     = Raise re_error
  /\ Re.parse_template (lit "\g<foo>\") = Raise re_error
  /\ Re.parse_template (lit "\g<foo>x\") = Raise IndexError.
Proof. repeat split; vm_compute; reflexivity. Qed.

(** The author of a commit in the user's name, when neither the account
    nor the settings give an e-mail address. *)
Example author_without_email :
  GitHubManager._get_author
    (GitHubManager.Build_CommitSettings true (Some []) None)
    (GitHubManager.Build_AuthenticatedUser (Some (lit "me")) None)
  = Raise AssertionError.
Proof. reflexivity. Qed.

End Examples.

(* ================================================================== *)
(** * The weekly block of main.py *)
(* ================================================================== *)

Section WeeklyBlock.

Import Formatter Main.

Variable LM_t : str -> str.
Variable str_mod : str -> str -> result str.
Hypothesis str_mod_total :
  forall template argument : str,
    exists line : str, str_mod template argument = Ok line.





End WeeklyBlock.


